(** * Cinema 4D MCP bridge: a shallow embedding of its transport and session code

    The development follows the three Python sources of the repository:

    - [c4d_plugin.py]: the socket server living inside the host application
      ([Cinema4DMCPServer._handle_client], [execute_command], [ping],
      [create_object]);
    - [cinema4d_mcp/server.py]: the client side connection object
      ([Cinema4DConnection.connect], [disconnect], [receive_full_response],
      [send_command]) and the cached accessor [get_cinema4d_connection];
    - [cinema4d_mcp/chat_manager.py]: the conversation store ([ChatMessage],
      [ChatManager]).

    Sockets, the clock and the host application are the environment: every
    blocking call consumes the next answer of a script, and the functions
    below are ordinary total functions of that script.  The calls into the
    Python library ([bytes.decode], [json.loads], [json.dumps], ...) and into
    the SDK of the host are the fields of two classes, [Python] and [Host]:
    the properties hold for every instance, and the instances [RefCodec] and
    [RefHost] run the functions on concrete byte strings. *)

From Stdlib Require Import String Ascii ZArith Lia Bool DecimalString List.
From Stdlib.Strings Require Import Byte.
Import ListNotations.

Open Scope string_scope.
Open Scope list_scope.

(** String concatenation, as Python's [+] on [str] and its f-strings. *)
Infix "+++" := String.append (right associativity, at level 60).

Set Warnings "-register-all".

(** ** Python values that cross the wire *)

Module Json.

(** What [json.loads] can return.  Floats are kept as the literal that
    denoted them; no arithmetic is ever done on them here. *)
Inductive value : Type :=
| JNull
| JBool (b : bool)
| JInt (n : Z)
| JFloat (lexeme : string)
| JStr (s : string)
| JList (items : list value)
| JDict (members : list (string * value)).

(** A Python [dict] with string keys, in insertion order. *)
Definition dict : Type := list (string * value).

Fixpoint get (key : string) (d : dict) : option value :=
  match d with
  | [] => None
  | (k, v) :: rest => if String.eqb k key then Some v else get key rest
  end.

(** [d[key] = v]: an existing key keeps its position. *)
Fixpoint set (key : string) (v : value) (d : dict) : dict :=
  match d with
  | [] => [(key, v)]
  | (k, w) :: rest =>
      if String.eqb k key then (k, v) :: rest else (k, w) :: set key v rest
  end.

Definition keys (d : dict) : list string := map fst d.

(** [d.get(key, default)] *)
Definition get_default (key : string) (default : value) (d : dict) : value :=
  match get key d with
  | Some v => v
  | None => default
  end.

Definition decimal (n : Z) : string := NilZero.string_of_int (Z.to_int n).

(** The name Python gives to the type of a value, as it appears in the
    messages of [AttributeError] and [TypeError]. *)
Definition type_name (v : value) : string :=
  match v with
  | JNull => "NoneType"
  | JBool _ => "bool"
  | JInt _ => "int"
  | JFloat _ => "float"
  | JStr _ => "str"
  | JList _ => "list"
  | JDict _ => "dict"
  end.

End Json.

(** ** Exceptions *)

(** The exception classes the three sources tell apart in their [except]
    clauses.  Everything is a subclass of [Exception]; [PlainException]
    stands for [Exception] itself and for the classes no clause names. *)
Inductive exn_class : Type :=
| SocketTimeout
| ConnectionError
| JSONDecodeError
| UnicodeDecodeError
| AttributeError
| TypeError
| KeyError
| PlainException.

Record exn : Type := Exn { exn_cls : exn_class; exn_text : string }.

(** [str(e)] *)
Definition str_of_exn (e : exn) : string := exn_text e.

Inductive pyres (A : Type) : Type :=
| Ok (a : A)
| Raise (e : exn).

Arguments Ok {A} a.
Arguments Raise {A} e.

(** Python's [l[start:]] for any integer [start]. *)
Definition py_slice_from {A : Type} (start : Z) (l : list A) : list A :=
  let len := Z.of_nat (length l) in
  let i := if (start <? 0)%Z then Z.max 0 (start + len) else Z.min start len in
  skipn (Z.to_nat i) l.

(** The last [n] elements of a list (all of it when it is shorter). *)
Definition lastn {A : Type} (n : nat) (l : list A) : list A :=
  skipn (length l - n) l.

(** Python's [bytes]. *)
Abbreviation bytes := (list byte).

(** ** chat_manager.py *)

Module Chat.
Import Json.

(** [class ChatMessage].  The role is one of 'user', 'assistant', 'system'
    by convention only. *)
Record ChatMessage : Type := mkChatMessage {
  role : string;
  content : string;
  timestamp : string;
  metadata : dict
}.

(** [x or default] for an optional string: [None] and the empty string are
    falsy. *)
Definition str_or (x : option string) (default : string) : string :=
  match x with
  | Some EmptyString | None => default
  | Some s => s
  end.

(** [x or {}] for an optional dictionary. *)
Definition dict_or_empty (x : option dict) : dict :=
  match x with
  | Some d => d
  | None => []
  end.

(** [ChatMessage.__init__]; [now] is what [datetime.now().isoformat()]
    returns when it is asked. *)
Definition ChatMessage_init (now : string) (role content : string)
    (timestamp : option string) (metadata : option dict) : ChatMessage :=
  {| role := role;
     content := content;
     timestamp := str_or timestamp now;
     metadata := dict_or_empty metadata |}.

(** [ChatMessage.to_dict] *)
Definition to_dict (m : ChatMessage) : dict :=
  [("role", JStr (role m)); ("content", JStr (content m));
   ("timestamp", JStr (timestamp m)); ("metadata", JDict (metadata m))].

(** A message as it stands in an exported file: any key may be absent. *)
Record message_doc : Type := mkMessageDoc {
  d_role : option string;
  d_content : option string;
  d_timestamp : option string;
  d_metadata : option dict
}.

(** [ChatMessage.from_dict]: [data["role"]] and [data["content"]] raise
    [KeyError] when the key is absent, the other two use [data.get]. *)
Definition from_dict (now : string) (data : message_doc) : pyres ChatMessage :=
  match d_role data with
  | None => Raise (Exn KeyError "'role'")
  | Some r =>
      match d_content data with
      | None => Raise (Exn KeyError "'content'")
      | Some c =>
          Ok (ChatMessage_init now r c (d_timestamp data)
                (Some (dict_or_empty (d_metadata data))))
      end
  end.

(** [class ChatManager] *)
Record ChatManager : Type := mkChatManager {
  history : list ChatMessage;
  max_history : Z;
  context_data : dict;
  session_id : string
}.

(** [ChatManager.__init__]; [stamp] is [datetime.now().strftime(...)]. *)
Definition ChatManager_init (stamp : string) (max_history : Z) : ChatManager :=
  {| history := [];
     max_history := max_history;
     context_data := [];
     session_id := stamp |}.

Definition with_history (cm : ChatManager) (h : list ChatMessage) : ChatManager :=
  {| history := h;
     max_history := max_history cm;
     context_data := context_data cm;
     session_id := session_id cm |}.

Definition with_context (cm : ChatManager) (c : dict) : ChatManager :=
  {| history := history cm;
     max_history := max_history cm;
     context_data := c;
     session_id := session_id cm |}.

Definition with_session (cm : ChatManager) (s : string) : ChatManager :=
  {| history := history cm;
     max_history := max_history cm;
     context_data := context_data cm;
     session_id := s |}.

(** [ChatManager.add_message]: append, then keep [history[-max_history:]]
    when the list got longer than [max_history]. *)
Definition add_message (now : string) (cm : ChatManager) (role content : string)
    (metadata : option dict) : ChatMessage * ChatManager :=
  let message := ChatMessage_init now role content None metadata in
  let appended := history cm ++ [message] in
  let kept :=
    if (max_history cm <? Z.of_nat (length appended))%Z
    then py_slice_from (- max_history cm) appended
    else appended in
  (message, with_history cm kept).

(** [ChatManager.get_messages]; a [limit] of [0] and an empty [role_filter]
    are falsy and filter nothing. *)
Definition get_messages (cm : ChatManager) (limit : option Z)
    (role_filter : option string) : list ChatMessage :=
  let messages := history cm in
  let messages :=
    match role_filter with
    | Some EmptyString | None => messages
    | Some r => filter (fun m => String.eqb (role m) r) messages
    end in
  match limit with
  | None => messages
  | Some l => if (l =? 0)%Z then messages else py_slice_from (- l) messages
  end.

(** [ChatManager.get_conversation_history] *)
Definition get_conversation_history (cm : ChatManager) (limit : option Z) : list dict :=
  map to_dict (get_messages cm limit None).

(** [ChatManager.update_context] *)
Definition update_context (cm : ChatManager) (key : string) (v : value) : ChatManager :=
  with_context cm (set key v (context_data cm)).

(** [ChatManager.get_context]: one entry ([None] when absent), or a copy of
    the whole dictionary when no key, or an empty one, is given. *)
Definition get_context (cm : ChatManager) (key : option string) : value :=
  match key with
  | Some EmptyString | None => JDict (context_data cm)
  | Some k => get_default k JNull (context_data cm)
  end.

(** [ChatManager.clear_history] *)
Definition clear_history (cm : ChatManager) : ChatManager := with_history cm [].

(** [ChatManager.clear_context] *)
Definition clear_context (cm : ChatManager) : ChatManager := with_context cm [].

(** [ChatManager.reset] *)
Definition reset (stamp : string) (cm : ChatManager) : ChatManager :=
  with_session (clear_context (clear_history cm)) stamp.

(** The document [export_history] writes and [import_history] reads. *)
Record history_doc : Type := mkHistoryDoc {
  f_session_id : option string;
  f_messages : option (list message_doc);
  f_context : option dict
}.

Definition message_doc_of (m : ChatMessage) : message_doc :=
  {| d_role := Some (role m);
     d_content := Some (content m);
     d_timestamp := Some (timestamp m);
     d_metadata := Some (metadata m) |}.

(** [ChatManager.export_history]: the document handed to [json.dump]. *)
Definition export_history (cm : ChatManager) : history_doc :=
  {| f_session_id := Some (session_id cm);
     f_messages := Some (map message_doc_of (history cm));
     f_context := Some (context_data cm) |}.

(** The list comprehension of [import_history]: the first message that
    raises aborts it. *)
Fixpoint from_dicts (now : string) (docs : list message_doc) : pyres (list ChatMessage) :=
  match docs with
  | [] => Ok []
  | d :: rest =>
      match from_dict now d with
      | Raise e => Raise e
      | Ok m =>
          match from_dicts now rest with
          | Raise e => Raise e
          | Ok ms => Ok (m :: ms)
          end
      end
  end.

(** [ChatManager.import_history], from the document [json.load] returned.
    The three assignments run in order, so a raising message leaves the new
    session id behind.  The imported messages are stored as they are. *)
Definition import_history (now : string) (data : history_doc) (cm : ChatManager)
  : pyres unit * ChatManager :=
  let cm1 :=
    with_session cm (match f_session_id data with Some s => s | None => session_id cm end) in
  match from_dicts now (match f_messages data with Some ms => ms | None => [] end) with
  | Raise e => (Raise e, cm1)
  | Ok ms =>
      (Ok tt,
       with_context (with_history cm1 ms)
         (match f_context data with Some c => c | None => [] end))
  end.

(** [ChatManager.get_summary] *)
Definition get_summary (cm : ChatManager) : dict :=
  [("session_id", JStr (session_id cm));
   ("message_count", JInt (Z.of_nat (length (history cm))));
   ("user_messages",
    JInt (Z.of_nat (length (filter (fun m => String.eqb (role m) "user") (history cm)))));
   ("assistant_messages",
    JInt (Z.of_nat (length (filter (fun m => String.eqb (role m) "assistant") (history cm)))));
   ("context_keys", JList (map JStr (keys (context_data cm))))].

(** Every method of [ChatManager], as a request. *)
Inductive op : Type :=
| AddMessage (role content : string) (metadata : option dict)
| GetMessages (limit : option Z) (role_filter : option string)
| GetConversationHistory (limit : option Z)
| UpdateContext (key : string) (v : value)
| GetContext (key : option string)
| ClearHistory
| ClearContext
| Reset
| ExportHistory
| ImportHistory (data : history_doc)
| GetSummary.

(** The manager after a method ran; [now] and [stamp] are the two readings
    of the clock a method may take. *)
Definition run (now stamp : string) (o : op) (cm : ChatManager) : ChatManager :=
  match o with
  | AddMessage r c md => snd (add_message now cm r c md)
  | UpdateContext k v => update_context cm k v
  | ClearHistory => clear_history cm
  | ClearContext => clear_context cm
  | Reset => reset stamp cm
  | ImportHistory data => snd (import_history now data cm)
  | GetMessages _ _ | GetConversationHistory _ | GetContext _
  | ExportHistory | GetSummary => cm
  end.

Definition is_import (o : op) : bool :=
  match o with
  | ImportHistory _ => true
  | _ => false
  end.

(** A call of [add_message]: its arguments and the clock at that moment. *)
Record call : Type := mkCall {
  c_now : string;
  c_role : string;
  c_content : string;
  c_metadata : option dict
}.

Definition message_of (c : call) : ChatMessage :=
  ChatMessage_init (c_now c) (c_role c) (c_content c) None (c_metadata c).

(** A sequence of [add_message] calls on one manager. *)
Fixpoint add_messages (cm : ChatManager) (calls : list call) : ChatManager :=
  match calls with
  | [] => cm
  | c :: rest =>
      add_messages (snd (add_message (c_now c) cm (c_role c) (c_content c) (c_metadata c))) rest
  end.

(** The bound the store is meant to keep. *)
Definition bounded (cm : ChatManager) : Prop :=
  (Z.of_nat (length (history cm)) <= max_history cm)%Z.

End Chat.

(** ** The Python library and interpreter, as far as the bridge uses them *)

(** Faults the interpreter itself raises while a statement of the bridge
    runs.  Their wording belongs to the interpreter. *)
Inductive fault : Type :=
| NoAttribute (v : Json.value) (attr : string)
| Unhashable (v : Json.value)
| NotAMapping (callee : string) (v : Json.value)
| UnexpectedKeyword (callee : string) (keyword : string)
| MultipleValues (callee : string) (keyword : string)
| MissingArguments (callee : string) (names : list string).

Definition fault_class (f : fault) : exn_class :=
  match f with
  | NoAttribute _ _ => AttributeError
  | _ => TypeError
  end.

Class Python : Type := {
  (** [b.decode('utf-8')]; [None] is [UnicodeDecodeError] *)
  bytes_decode : bytes -> option string;
  (** [json.loads(s)]; [None] is [json.JSONDecodeError] *)
  json_loads : string -> option Json.value;
  (** [json.dumps(v)] *)
  json_dumps : Json.value -> string;
  (** [s.encode('utf-8')] *)
  str_encode : string -> bytes;
  (** [s.lower()] *)
  str_lower : string -> string;
  (** [repr(v)], used by [str] on floats, lists and dictionaries *)
  py_repr : Json.value -> string;
  (** [str(e)] of the exceptions the library and the interpreter raise *)
  fault_text : fault -> string;
  decode_error_text : bytes -> string;
  loads_error_text : string -> string
}.

Definition raise_fault `{Python} {A : Type} (f : fault) : pyres A :=
  Raise (Exn (fault_class f) (fault_text f)).

(** [str(v)], as an f-string formats a value. *)
Definition py_str `{Python} (v : Json.value) : string :=
  match v with
  | Json.JStr s => s
  | Json.JNull => "None"
  | Json.JBool true => "True"
  | Json.JBool false => "False"
  | Json.JInt n => Json.decimal n
  | _ => py_repr v
  end.

(** The outcome of [json.loads(b.decode('utf-8'))]. *)
Inductive decoded : Type :=
| NotText
| NotJson (text : string)
| Parsed (text : string) (v : Json.value).

Definition decode `{Python} (b : bytes) : decoded :=
  match bytes_decode b with
  | None => NotText
  | Some text =>
      match json_loads text with
      | None => NotJson text
      | Some v => Parsed text v
      end
  end.

(** [json.dumps(v).encode('utf-8')] *)
Definition encode `{Python} (v : Json.value) : bytes := str_encode (json_dumps v).

(** ** c4d_plugin.py *)

Module Plugin.
Import Json.

(** The object kinds of the host's SDK that [create_object] maps names to
    ([c4d.Ocube], ...): non-zero identifiers, hence truthy. *)
Inductive c4d_object : Type :=
| Ocube | Osphere | Ocylinder | Ocone | Oplane | Onull | Ocamera | Olight.

(** The host application: its state, the active document a command works
    on, and the SDK calls behind the operations of the catalog. *)
Class Host : Type := {
  C4D : Type;
  Document : Type;
  (** [documents.GetActiveDocument()] *)
  GetActiveDocument : C4D -> option Document;
  (** lines 305-316 of [create_object]: build the object, name it, place it,
      insert it in the document; [Some e] when one of the SDK calls raised *)
  insert_object :
    c4d_object -> value -> value -> value -> value ->
    option Document -> C4D -> option exn * C4D;
  (** the statements inside the [try] of every other operation of the
      catalog, by name: the dictionary they return, or the exception one
      of them raises, and the application as they leave it *)
  operation : string -> dict -> option Document -> C4D -> pyres value * C4D
}.

(** [class Cinema4DMCPServer]: the fields a command reads or writes. *)
Record server `{Host} : Type := mkServer {
  doc : option Document;
  app : C4D
}.

(** A method of the server with its signature: the parameters without a
    default, those with one, and the body run on the bound keywords. *)
Record handler `{Host} : Type := mkHandler {
  h_name : string;
  h_required : list string;
  h_optional : list string;
  h_body : dict -> server -> pyres value * server
}.

Definition mem (s : string) (l : list string) : bool :=
  existsb (String.eqb s) l.

(** [handler] called with the keywords of [params]: the interpreter binds
    them to the parameters before the body runs, and raises [TypeError] on
    a value that is no mapping, on the first keyword that cannot be bound,
    and on a parameter without default that got no value.  A keyword
    cannot be bound when the method has no parameter of that name, or
    when it is [self], which the bound method has given a value
    already. *)
Definition invoke `{Python} `{Host} (h : handler) (params : value) (srv : server)
  : pyres value * server :=
  match params with
  | JDict kwargs =>
      match filter (fun k => negb (mem k (h_required h ++ h_optional h))) (keys kwargs) with
      | k :: _ =>
          if String.eqb k "self" then (raise_fault (MultipleValues (h_name h) k), srv)
          else (raise_fault (UnexpectedKeyword (h_name h) k), srv)
      | [] =>
          match filter (fun k => negb (mem k (keys kwargs))) (h_required h) with
          | [] => h_body h kwargs srv
          | missing => (raise_fault (MissingArguments (h_name h) missing), srv)
          end
      end
  | _ => (raise_fault (NotAMapping (h_name h) params), srv)
  end.

(** [Cinema4DMCPServer.ping] *)
Definition ping `{Host} : handler :=
  {| h_name := "ping";
     h_required := [];
     h_optional := [];
     h_body := fun _ srv => (Ok (JDict [("status", JStr "alive")]), srv) |}.

(** [type_map.get(...)] of [create_object] *)
Definition type_map (name : string) : option c4d_object :=
  if String.eqb name "cube" then Some Ocube
  else if String.eqb name "sphere" then Some Osphere
  else if String.eqb name "cylinder" then Some Ocylinder
  else if String.eqb name "cone" then Some Ocone
  else if String.eqb name "plane" then Some Oplane
  else if String.eqb name "null" then Some Onull
  else if String.eqb name "camera" then Some Ocamera
  else if String.eqb name "light" then Some Olight
  else None.

(** [Cinema4DMCPServer.create_object]: its own [try] turns every exception
    into an [{"error": ...}] result, so the method never raises. *)
Definition create_object_body `{Python} `{Host} (kwargs : dict) (srv : server)
  : pyres value * server :=
  let object_type := get_default "object_type" JNull kwargs in
  let name := get_default "name" JNull kwargs in
  match object_type with
  | JStr s =>
      match type_map (str_lower s) with
      | None => (Ok (JDict [("error", JStr ("Unknown object type: " +++ s))]), srv)
      | Some obj_type =>
          let '(raised, app') :=
            insert_object obj_type name
              (get_default "position" JNull kwargs)
              (get_default "rotation" JNull kwargs)
              (get_default "scale" JNull kwargs)
              (doc srv) (app srv) in
          let srv' := {| doc := doc srv; app := app' |} in
          match raised with
          | Some e => (Ok (JDict [("error", JStr (str_of_exn e))]), srv')
          | None =>
              (Ok (JDict [("name", name); ("type", object_type); ("success", JBool true)]),
               srv')
          end
      end
  | _ =>
      (Ok (JDict [("error", JStr (fault_text (NoAttribute object_type "lower")))]), srv)
  end.

Definition create_object `{Python} `{Host} : handler :=
  {| h_name := "create_object";
     h_required := ["object_type"; "name"];
     h_optional := ["position"; "rotation"; "scale"];
     h_body := create_object_body |}.

(** A method of the catalog: the statements of the host inside its
    [try], and its [except Exception as e: return {"error": str(e)}]. *)
Definition catalog `{Host} (name : string) (required optional : list string) : handler :=
  {| h_name := name;
     h_required := required;
     h_optional := optional;
     h_body := fun kwargs srv =>
       let '(r, app') := operation name kwargs (doc srv) (app srv) in
       (Ok match r with
           | Ok result => result
           | Raise e => JDict [("error", JStr (str_of_exn e))]
           end,
        {| doc := doc srv; app := app' |}) |}.

(** The [handlers] dictionary of [execute_command], with the signature of
    each method as the source declares it. *)
Definition handlers `{Python} `{Host} : list (string * handler) :=
  [("ping", ping);
   ("get_scene_info", catalog "get_scene_info" [] ["include_hierarchy"]);
   ("get_object_info", catalog "get_object_info" ["name"] []);
   ("create_object", create_object);
   ("modify_object",
    catalog "modify_object" ["name"] ["position"; "rotation"; "scale"; "properties"]);
   ("delete_object", catalog "delete_object" ["name"] []);
   ("create_material",
    catalog "create_material" ["name"]
      ["color"; "reflectance"; "roughness"; "metallic"; "opacity"]);
   ("apply_material", catalog "apply_material" ["object_name"; "material_name"] []);
   ("get_viewport_screenshot",
    catalog "get_viewport_screenshot" [] ["width"; "height"; "filepath"]);
   ("render_frame",
    catalog "render_frame" [] ["width"; "height"; "renderer"; "samples"; "filepath"]);
   ("set_animation_frame", catalog "set_animation_frame" ["frame"] []);
   ("create_keyframe",
    catalog "create_keyframe" ["object_name"; "parameter"; "value"; "frame"] []);
   ("execute_code", catalog "execute_code" ["code"] []);
   ("export_scene", catalog "export_scene" ["filepath"] ["format"]);
   ("import_file", catalog "import_file" ["filepath"] ["merge"]);
   ("get_chat_status", catalog "get_chat_status" [] []);
   ("process_chat",
    catalog "process_chat" ["message"] ["include_scene_context"; "history"])].

Fixpoint assoc {A : Type} (key : string) (table : list (string * A)) : option A :=
  match table with
  | [] => None
  | (k, a) :: rest => if String.eqb k key then Some a else assoc key rest
  end.

(** [handlers.get(cmd_type)]: hashing a list or a dictionary raises; a key
    that is no string is in no entry. *)
Definition handlers_get `{Python} `{Host} (cmd_type : value) : pyres (option handler) :=
  match cmd_type with
  | JStr name => Ok (assoc name handlers)
  | JList _ | JDict _ => raise_fault (Unhashable cmd_type)
  | _ => Ok None
  end.

(** [command.get(key, default)] on whatever [json.loads] returned: only a
    dictionary has [get]. *)
Definition command_get `{Python} (command : value) (key : string) (default : value)
  : pyres value :=
  match command with
  | JDict d => Ok (get_default key default d)
  | _ => raise_fault (NoAttribute command "get")
  end.

Definition success (result : value) : value :=
  JDict [("status", JStr "success"); ("result", result)].

Definition failure (message : string) : value :=
  JDict [("status", JStr "error"); ("message", JStr message)].

(** The server once [execute_command] resolved the active document. *)
Definition refresh `{Host} (srv : server) : server :=
  {| doc := GetActiveDocument (app srv); app := app srv |}.

(** The statements of [execute_command] inside its outer [try]: what they
    return, or the exception that reaches the outer [except]. *)
Definition execute_command_try `{Python} `{Host} (srv : server) (command : value)
  : pyres value * server :=
  match command_get command "type" JNull with
  | Raise e => (Raise e, srv)
  | Ok cmd_type =>
      match command_get command "params" (JDict []) with
      | Raise e => (Raise e, srv)
      | Ok params =>
          let srv := refresh srv in
          match handlers_get cmd_type with
          | Raise e => (Raise e, srv)
          | Ok (Some h) =>
              match invoke h params srv with
              | (Ok result, srv') => (Ok (success result), srv')
              | (Raise e, srv') => (Ok (failure (str_of_exn e)), srv')
              end
          | Ok None => (Ok (failure ("Unknown command type: " +++ py_str cmd_type)), srv)
          end
      end
  end.

(** [Cinema4DMCPServer.execute_command] *)
Definition execute_command `{Python} `{Host} (srv : server) (command : value)
  : value * server :=
  match execute_command_try srv command with
  | (Ok response, srv') => (response, srv')
  | (Raise e, srv') => (failure (str_of_exn e), srv')
  end.

(** What one pass of the loop of [_handle_client] meets: the [running] flag
    as another thread left it, the answer of [client.recv(8192)], and
    whether [client.sendall] goes through should the pass reach it. *)
Inductive recv_result : Type :=
| Received (data : bytes)
| RecvRaised (e : exn).

Record turn : Type := mkTurn {
  running : bool;
  recv : recv_result;
  send_ok : bool
}.

(** What the handler does on its socket, in order. *)
Inductive event : Type :=
| ERecv (data : bytes)
| ERecvRaised (e : exn)
| ECommand (command : value)
| ESend (payload : bytes) (delivered : bool)
| EClose.

(** How the loop was left; [Blocked] is a handler still inside [recv]
    because the peer sent nothing more. *)
Inductive leave : Type :=
| Blocked (buffer : bytes)
| NotRunning
| PeerClosed
| ReceiveFailed (e : exn)
| Undecodable (buffer : bytes).

(** The [while self.running:] loop of [_handle_client]. *)
Fixpoint handle_loop `{Python} `{Host} (script : list turn) (buffer : bytes) (srv : server)
  : list event * server * leave :=
  match script with
  | [] => ([], srv, Blocked buffer)
  | t :: rest =>
      if negb (running t) then ([], srv, NotRunning)
      else
        match recv t with
        | RecvRaised e => ([ERecvRaised e], srv, ReceiveFailed e)
        | Received [] => ([ERecv []], srv, PeerClosed)
        | Received data =>
            let buffer := buffer ++ data in
            match decode buffer with
            | NotText => ([ERecv data], srv, Undecodable buffer)
            | NotJson _ =>
                let '(events, srv', how) := handle_loop rest buffer srv in
                (ERecv data :: events, srv', how)
            | Parsed _ command =>
                let '(response, srv1) := execute_command srv command in
                let '(events, srv', how) := handle_loop rest [] srv1 in
                (ERecv data :: ECommand command :: ESend (encode response) (send_ok t) :: events,
                 srv', how)
            end
        end
  end.

(** What [finally] adds to the trace. *)
Definition closing (how : leave) : list event :=
  match how with
  | Blocked _ => []
  | _ => [EClose]
  end.

(** [Cinema4DMCPServer._handle_client]: the loop, then the [finally] that
    closes the client socket once the loop is left. *)
Definition handle_client `{Python} `{Host} (script : list turn) (srv : server)
  : list event * server * leave :=
  let '(events, srv', how) := handle_loop script [] srv in
  (events ++ closing how, srv', how).

(** The commands decoded, the payloads handed to [sendall], and the
    payloads that went through, in the order of the trace. *)
Fixpoint commands_of (events : list event) : list value :=
  match events with
  | [] => []
  | ECommand c :: rest => c :: commands_of rest
  | _ :: rest => commands_of rest
  end.

Fixpoint sends_of (events : list event) : list bytes :=
  match events with
  | [] => []
  | ESend p _ :: rest => p :: sends_of rest
  | _ :: rest => sends_of rest
  end.

Fixpoint written (events : list event) : list bytes :=
  match events with
  | [] => []
  | ESend p true :: rest => p :: written rest
  | _ :: rest => written rest
  end.

(** The responses of a list of commands executed one after the other. *)
Fixpoint responses `{Python} `{Host} (srv : server) (commands : list value) : list value :=
  match commands with
  | [] => []
  | c :: rest =>
      let '(response, srv') := execute_command srv c in
      response :: responses srv' rest
  end.

(** A connection on which every [sendall] goes through. *)
Definition healthy (script : list turn) : Prop :=
  Forall (fun t => send_ok t = true) script.

(** A trace in which the socket carries strict request/response exchanges:
    between two reads there is either nothing, or one decoded command
    followed at once by the delivery of its response, computed on the
    server as the previous commands left it. *)
Inductive exchanges `{Python} `{Host} : server -> list event -> Prop :=
| ex_nil : forall srv, exchanges srv []
| ex_close : forall srv, exchanges srv [EClose]
| ex_recv : forall srv data events,
    exchanges srv events -> exchanges srv (ERecv data :: events)
| ex_recv_raised : forall srv e events,
    exchanges srv events -> exchanges srv (ERecvRaised e :: events)
| ex_exchange : forall srv command events,
    exchanges (snd (execute_command srv command)) events ->
    exchanges srv
      (ECommand command :: ESend (encode (fst (execute_command srv command))) true :: events).

(** A turn in which [recv] hands over [data] while the server runs. *)
Definition delivers (t : turn) (data : bytes) : Prop :=
  running t = true /\ recv t = Received data /\ data <> [].

(** The turn in which the peer sends [data] and takes the answer. *)
Definition chunk (data : bytes) : turn :=
  {| running := true; recv := Received data; send_ok := true |}.

(** The same, with a peer that is gone when the answer is written. *)
Definition chunk_unanswered (data : bytes) : turn :=
  {| running := true; recv := Received data; send_ok := false |}.

(** A command as it arrives whole: the turn, the bytes received, the
    document they are. *)
Definition arrival : Type := turn * bytes * value.

Definition arrives `{Python} (a : arrival) : Prop :=
  let '(t, data, command) := a in
  delivers t data /\ exists text, decode data = Parsed text command.

(** The trace of a handler that answers each arrival before it reads the
    next, and the server at the end. *)
Fixpoint answered `{Python} `{Host} (srv : server) (arrivals : list arrival)
  : list event * server :=
  match arrivals with
  | [] => ([], srv)
  | (t, data, command) :: rest =>
      let '(response, srv1) := execute_command srv command in
      let '(events, srv') := answered srv1 rest in
      (ERecv data :: ECommand command :: ESend (encode response) (send_ok t) :: events, srv')
  end.

(** The command of the scenario: [create_object] with its two required
    parameters. *)
Definition create_object_command (object_type : string) (name : value) : value :=
  JDict [("type", JStr "create_object");
         ("params", JDict [("object_type", JStr object_type); ("name", name)])].

Definition is_read (e : event) : bool :=
  match e with
  | ERecv _ => true
  | _ => false
  end.

(** Some read follows a write that failed. *)
Fixpoint reads_after_failed_send (events : list event) : bool :=
  match events with
  | [] => false
  | ESend _ false :: rest => existsb is_read rest || reads_after_failed_send rest
  | _ :: rest => reads_after_failed_send rest
  end.

(** The framing rule without a condition on the bytes: whenever the buffer
    does not decode, it is kept and the loop reads on. *)
Definition reads_on_whenever_undecoded `{Python} `{Host} : Prop :=
  forall t rest buffer srv data,
    delivers t data ->
    (forall text command, decode (buffer ++ data) <> Parsed text command) ->
    handle_loop (t :: rest) buffer srv
    = let '(events, srv', how) := handle_loop rest (buffer ++ data) srv in
      (ERecv data :: events, srv', how).

(** A handler that stops at a write that fails: no read ever follows
    one. *)
Definition never_reads_after_failed_send `{Python} `{Host} : Prop :=
  forall script srv,
    reads_after_failed_send (fst (fst (handle_client script srv))) = false.

End Plugin.

(** ** cinema4d_mcp/server.py *)

Module Client.
Import Json.

Definition socket : Type := nat.

(** What a call on a socket can raise: [socket.timeout], one of the
    connection errors ([ConnectionError], [BrokenPipeError],
    [ConnectionResetError]), or another [OSError]. *)
Inductive sock_error : Type :=
| TimedOut
| ConnectionLost (text : string)
| OtherError (text : string).

Definition exn_of (e : sock_error) : exn :=
  match e with
  | TimedOut => Exn SocketTimeout "timed out"
  | ConnectionLost text => Exn ConnectionError text
  | OtherError text => Exn PlainException text
  end.

Inductive recv_answer : Type :=
| Chunk (data : bytes)
| RecvFails (e : sock_error).

Inductive send_answer : Type :=
| Accepted
| SendFails (e : sock_error).

(** What the client did, in order. *)
Inductive action : Type :=
| Opened (s : socket)
| Refused
| Closed (s : socket)
| Sent (s : socket) (payload : bytes)
| Decoding (data : bytes).

(** The network as the client meets it: the answers its next calls of
    [connect], [sendall] and [recv] get.  When a list runs out the peer is
    silent: nobody listens, writes are taken, reads time out. *)
Record net : Type := mkNet {
  connects : list bool;
  sends : list send_answer;
  recvs : list recv_answer;
  next_socket : socket;
  journal : list action
}.

Definition record (a : list action) (w : net) : net :=
  {| connects := connects w; sends := sends w; recvs := recvs w;
     next_socket := next_socket w; journal := journal w ++ a |}.

(** [class Cinema4DConnection]; the timeout is in seconds. *)
Record Cinema4DConnection : Type := mkConnection {
  host : string;
  port : Z;
  sock : option socket;
  timeout : Z
}.

Definition with_sock (c : Cinema4DConnection) (s : option socket) : Cinema4DConnection :=
  {| host := host c; port := port c; sock := s; timeout := timeout c |}.

(** [Cinema4DConnection.connect] *)
Definition connect (c : Cinema4DConnection) (w : net) : bool * Cinema4DConnection * net :=
  match sock c with
  | Some _ => (true, c, w)
  | None =>
      match connects w with
      | true :: rest =>
          (true, with_sock c (Some (next_socket w)),
           {| connects := rest; sends := sends w; recvs := recvs w;
              next_socket := S (next_socket w);
              journal := journal w ++ [Opened (next_socket w)] |})
      | false :: rest =>
          (false, with_sock c None,
           {| connects := rest; sends := sends w; recvs := recvs w;
              next_socket := next_socket w;
              journal := journal w ++ [Refused] |})
      | [] => (false, with_sock c None, record [Refused] w)
      end
  end.

(** [Cinema4DConnection.disconnect] *)
Definition disconnect (c : Cinema4DConnection) (w : net) : Cinema4DConnection * net :=
  match sock c with
  | Some s => (with_sock c None, record [Closed s] w)
  | None => (c, w)
  end.

(** How the [while True:] loop of [receive_full_response] is left. *)
Inductive loop_end : Type :=
| Return (data : bytes)
| Break (chunks : list bytes)
| Propagate (e : exn).

(** The loop of [receive_full_response], on the answers [recv] will get.
    It gives back the answers left unread and the byte strings it tried to
    decode, in order. *)
Fixpoint receive_loop `{Python} (answers : list recv_answer) (chunks : list bytes)
  : loop_end * list recv_answer * list bytes :=
  match answers with
  | [] => (Break chunks, [], [])
  | RecvFails TimedOut :: rest => (Break chunks, rest, [])
  | RecvFails e :: rest => (Propagate (exn_of e), rest, [])
  | Chunk [] :: rest =>
      match chunks with
      | [] =>
          (Propagate (Exn PlainException "Connection closed before receiving any data"),
           rest, [])
      | _ => (Break chunks, rest, [])
      end
  | Chunk chunk :: rest =>
      let chunks := chunks ++ [chunk] in
      let data := concat chunks in
      match decode data with
      | Parsed _ _ => (Return data, rest, [data])
      | NotJson _ =>
          let '(how, rest', tried) := receive_loop rest chunks in
          (how, rest', data :: tried)
      | NotText => (Propagate (Exn UnicodeDecodeError (decode_error_text data)), rest, [data])
      end
  end.

Definition incomplete : exn := Exn PlainException "Incomplete JSON response received".

Definition no_data : exn := Exn PlainException "No data received".

(** The statements after the loop. *)
Definition receive_finish `{Python} (chunks : list bytes) : pyres bytes * list bytes :=
  match chunks with
  | [] => (Raise no_data, [])
  | _ =>
      let data := concat chunks in
      match decode data with
      | Parsed _ _ => (Ok data, [data])
      | NotJson _ => (Raise incomplete, [data])
      | NotText => (Raise (Exn UnicodeDecodeError (decode_error_text data)), [data])
      end
  end.

(** [Cinema4DConnection.receive_full_response] *)
Definition receive_full_response `{Python} (answers : list recv_answer)
  : pyres bytes * list recv_answer * list bytes :=
  let '(how, rest, tried) := receive_loop answers [] in
  match how with
  | Return data => (Ok data, rest, tried)
  | Propagate e => (Raise e, rest, tried)
  | Break chunks =>
      let '(r, last) := receive_finish chunks in
      (r, rest, tried ++ last)
  end.

(** [response.get(key, default)] on the decoded response. *)
Definition response_get `{Python} (response : value) (key : string) (default : value)
  : pyres value :=
  match response with
  | JDict d => Ok (get_default key default d)
  | _ => raise_fault (NoAttribute response "get")
  end.

Definition value_is_error (v : value) : bool :=
  match v with
  | JStr s => String.eqb s "error"
  | _ => false
  end.

(** What [send_command] does with the bytes [receive_full_response] gave
    it: [json.loads], then the reading of [status], [message], [result]. *)
Definition interpret `{Python} (response_data : bytes) : pyres value :=
  match decode response_data with
  | NotText => Raise (Exn UnicodeDecodeError (decode_error_text response_data))
  | NotJson text => Raise (Exn JSONDecodeError (loads_error_text text))
  | Parsed _ response =>
      match response_get response "status" JNull with
      | Raise e => Raise e
      | Ok status =>
          if value_is_error status then
            match response_get response "message" (JStr "Unknown error from Cinema 4D") with
            | Raise e => Raise e
            | Ok message => Raise (Exn PlainException (py_str message))
            end
          else response_get response "result" (JDict [])
      end
  end.

(** The command document: [params or {}]. *)
Definition command_of (command_type : string) (params : option dict) : value :=
  JDict [("type", JStr command_type);
         ("params", JDict (match params with Some d => d | None => [] end))].

(** The [try] block of [send_command], on a connection that holds the
    socket [s]. *)
Definition send_command_try `{Python} (s : socket) (command_type : string)
    (params : option dict) (w : net) : pyres value * net :=
  let payload := encode (command_of command_type params) in
  let '(answer, later) :=
    match sends w with
    | [] => (Accepted, [])
    | a :: rest => (a, rest)
    end in
  match answer with
  | SendFails e =>
      (Raise (exn_of e),
       {| connects := connects w; sends := later; recvs := recvs w;
          next_socket := next_socket w; journal := journal w |})
  | Accepted =>
      let '(received, unread, tried) := receive_full_response (recvs w) in
      let w' :=
        {| connects := connects w; sends := later; recvs := unread;
           next_socket := next_socket w;
           journal := journal w ++ Sent s payload :: map Decoding tried |} in
      match received with
      | Raise e => (Raise e, w')
      | Ok response_data => (interpret response_data, record [Decoding response_data] w')
      end
  end.

(** The [except] clause of [send_command] an exception lands in. *)
Inductive clause : Type :=
| TimeoutClause
| ConnectionClause
| DecodeClause
| GenericClause.

Definition except_clause (e : exn) : clause :=
  match exn_cls e with
  | SocketTimeout => TimeoutClause
  | ConnectionError => ConnectionClause
  | JSONDecodeError => DecodeClause
  | _ => GenericClause
  end.

(** [Cinema4DConnection.send_command] *)
Definition send_command `{Python} (c : Cinema4DConnection) (command_type : string)
    (params : option dict) (w : net) : pyres value * Cinema4DConnection * net :=
  let '(connected, c, w) :=
    match sock c with
    | Some _ => (true, c, w)
    | None => connect c w
    end in
  match connected, sock c with
  | true, Some s =>
      match send_command_try s command_type params w with
      | (Ok result, w') => (Ok result, c, w')
      | (Raise e, w') =>
          match except_clause e with
          | TimeoutClause =>
              (Raise (Exn PlainException
                        "Timeout waiting for Cinema 4D response - operation may be too complex"),
               with_sock c None, w')
          | ConnectionClause =>
              (Raise (Exn PlainException ("Connection to Cinema 4D lost: " +++ str_of_exn e)),
               with_sock c None, w')
          | DecodeClause =>
              (Raise (Exn PlainException ("Invalid response from Cinema 4D: " +++ str_of_exn e)),
               c, w')
          | GenericClause =>
              (Raise (Exn PlainException
                        ("Communication error with Cinema 4D: " +++ str_of_exn e)),
               with_sock c None, w')
          end
      end
  | _, _ => (Raise (Exn ConnectionError "Not connected to Cinema 4D"), c, w)
  end.

Definition could_not_connect : exn :=
  Exn PlainException
    "Could not connect to Cinema 4D. Make sure the Cinema 4D plugin is running.".

(** The connection [get_cinema4d_connection] creates. *)
Definition new_connection : Cinema4DConnection :=
  {| host := "localhost"; port := 9877; sock := None; timeout := 30 |}.

(** The second half of [get_cinema4d_connection], reached with the global
    reference cleared. *)
Definition create_connection (w : net)
  : pyres Cinema4DConnection * option Cinema4DConnection * net :=
  match connect new_connection w with
  | (true, c, w') => (Ok c, Some c, w')
  | (false, _, w') => (Raise could_not_connect, None, w')
  end.

(** [get_cinema4d_connection], on the global [_c4d_connection]: what it
    returns or raises, the global afterwards, the network afterwards. *)
Definition get_cinema4d_connection `{Python} (cached : option Cinema4DConnection) (w : net)
  : pyres Cinema4DConnection * option Cinema4DConnection * net :=
  match cached with
  | Some c =>
      match send_command c "ping" None w with
      | (Ok _, c', w') => (Ok c', Some c', w')
      | (Raise _, c', w') =>
          let '(_, w'') := disconnect c' w' in
          create_connection w''
      end
  | None => create_connection w
  end.

(** The byte strings the loop of [receive_full_response] tries to decode
    while the chunks [datas] come in after [chunks]: one per chunk, each
    the concatenation of all that was received so far. *)
Fixpoint accumulations (chunks datas : list bytes) : list bytes :=
  match datas with
  | [] => []
  | d :: rest => concat (chunks ++ [d]) :: accumulations (chunks ++ [d]) rest
  end.

(** The network once a command went out on [s] and the answer was read:
    one answer of [sendall] used, [unread] left to receive. *)
Definition after_exchange (w : net) (s : socket) (payload : bytes)
    (unread : list recv_answer) (tried : list bytes) : net :=
  {| connects := connects w; sends := tl (sends w); recvs := unread;
     next_socket := next_socket w;
     journal := journal w ++ Sent s payload :: map Decoding tried |}.

(** The network once [connect] opened a socket. *)
Definition after_connect (w : net) : net :=
  {| connects := tl (connects w); sends := sends w; recvs := recvs w;
     next_socket := S (next_socket w);
     journal := journal w ++ [Opened (next_socket w)] |}.

(** [sendall] goes through. *)
Definition accepts (w : net) : Prop := hd Accepted (sends w) = Accepted.

End Client.

(** ** A reference codec

    An executable reading of the library calls of [Python], used to run the
    bridge on concrete byte strings.  A Python [str] is held as its UTF-8
    bytes.  [json.loads] follows the grammar of the [json] module (strict
    mode); a float keeps its literal.  [json.dumps] writes with the default
    separators and [ensure_ascii]. *)

Module RefCodec.
Import Json.

Definition quote : ascii := "034"%char.
Definition backslash : ascii := "092"%char.

Definition code (c : ascii) : N := N_of_ascii c.

Definition between (lo hi n : N) : bool := ((lo <=? n) && (n <=? hi))%N.

(** Well-formed UTF-8 (RFC 3629): no overlong form, no surrogate, nothing
    above U+10FFFF. *)
Fixpoint utf8_valid (l : list N) : bool :=
  match l with
  | [] => true
  | a :: r1 =>
      if (a <=? 127)%N then utf8_valid r1
      else
        match r1 with
        | [] => false
        | b :: r2 =>
            if between 194 223 a then between 128 191 b && utf8_valid r2
            else
              match r2 with
              | [] => false
              | c :: r3 =>
                  if between 224 239 a then
                    (if (a =? 224)%N then between 160 191 b
                     else if (a =? 237)%N then between 128 159 b
                     else between 128 191 b)
                    && between 128 191 c && utf8_valid r3
                  else
                    match r3 with
                    | [] => false
                    | d :: r4 =>
                        between 240 244 a
                        && (if (a =? 240)%N then between 144 191 b
                            else if (a =? 244)%N then between 128 143 b
                            else between 128 191 b)
                        && between 128 191 c && between 128 191 d && utf8_valid r4
                    end
              end
        end
  end.

Definition decode_utf8 (b : bytes) : option string :=
  if utf8_valid (map Byte.to_N b) then Some (string_of_list_byte b) else None.

Definition encode_utf8 (s : string) : bytes := list_byte_of_string s.

Definition lower_char (c : ascii) : ascii :=
  if between 65 90 (code c) then ascii_of_N (code c + 32) else c.

(** [str.lower] on the ASCII letters; other characters are left alone. *)
Fixpoint lower (s : string) : string :=
  match s with
  | EmptyString => EmptyString
  | String c r => String (lower_char c) (lower r)
  end.

Definition hex_digit (n : N) : ascii :=
  if (n <? 10)%N then ascii_of_N (48 + n) else ascii_of_N (87 + n).

(** [\uXXXX] *)
Definition u_escape (n : N) : string :=
  String backslash (String "u"
    (String (hex_digit (n / 4096 mod 16)) (String (hex_digit (n / 256 mod 16))
      (String (hex_digit (n / 16 mod 16)) (String (hex_digit (n mod 16)) EmptyString))))).

(** A code point as [ensure_ascii] writes it: a surrogate pair above the
    basic plane. *)
Definition escape_point (n : N) : string :=
  if (n <? 65536)%N then u_escape n
  else
    let m := (n - 65536)%N in
    u_escape (55296 + m / 1024) +++ u_escape (56320 + m mod 1024).

(** The body of a string literal of [json.dumps]. *)
Fixpoint escape (l : list N) : string :=
  match l with
  | [] => EmptyString
  | a :: r1 =>
      if (a =? 34)%N then String backslash (String quote (escape r1))
      else if (a =? 92)%N then String backslash (String backslash (escape r1))
      else if (a =? 10)%N then String backslash (String "n" (escape r1))
      else if (a =? 13)%N then String backslash (String "r" (escape r1))
      else if (a =? 9)%N then String backslash (String "t" (escape r1))
      else if (a =? 8)%N then String backslash (String "b" (escape r1))
      else if (a =? 12)%N then String backslash (String "f" (escape r1))
      else if between 32 126 a then String (ascii_of_N a) (escape r1)
      else if (a <? 128)%N then u_escape a +++ escape r1
      else
        match r1 with
        | [] => u_escape a
        | b :: r2 =>
            if (a <? 224)%N then
              escape_point ((a mod 32) * 64 + b mod 64) +++ escape r2
            else
              match r2 with
              | [] => u_escape a
              | c :: r3 =>
                  if (a <? 240)%N then
                    escape_point ((a mod 16) * 4096 + (b mod 64) * 64 + c mod 64)
                    +++ escape r3
                  else
                    match r3 with
                    | [] => u_escape a
                    | d :: r4 =>
                        escape_point
                          ((a mod 8) * 262144 + (b mod 64) * 4096 + (c mod 64) * 64 + d mod 64)
                        +++ escape r4
                    end
              end
        end
  end.

Definition codes (s : string) : list N := map code (list_ascii_of_string s).

Definition literal (s : string) : string :=
  String quote (escape (codes s)) +++ String quote EmptyString.

(** [json.dumps] *)
Fixpoint dumps (v : value) : string :=
  match v with
  | JNull => "null"
  | JBool true => "true"
  | JBool false => "false"
  | JInt n => decimal n
  | JFloat lexeme => lexeme
  | JStr s => literal s
  | JList items =>
      "[" +++
      (fix join (l : list value) : string :=
         match l with
         | [] => ""
         | [x] => dumps x
         | x :: r => dumps x +++ ", " +++ join r
         end) items
      +++ "]"
  | JDict members =>
      "{" +++
      (fix join (l : list (string * value)) : string :=
         match l with
         | [] => ""
         | [(k, x)] => literal k +++ ": " +++ dumps x
         | (k, x) :: r => literal k +++ ": " +++ dumps x +++ ", " +++ join r
         end) members
      +++ "}"
  end.

(** [json.loads]: the scanner of the [json] module *)

Definition is_ws (c : ascii) : bool :=
  let n := code c in ((n =? 32) || (n =? 9) || (n =? 10) || (n =? 13))%N.

Fixpoint skip_ws (s : string) : string :=
  match s with
  | String c r => if is_ws c then skip_ws r else s
  | EmptyString => s
  end.

Definition is_digit (c : ascii) : bool := between 48 57 (code c).

Fixpoint take_digits (s : string) : string * string :=
  match s with
  | String c r =>
      if is_digit c then let '(ds, rest) := take_digits r in (String c ds, rest)
      else (EmptyString, s)
  | EmptyString => (EmptyString, s)
  end.

Fixpoint strip_prefix (p s : string) : option string :=
  match p, s with
  | EmptyString, _ => Some s
  | String a p', String b s' => if Ascii.eqb a b then strip_prefix p' s' else None
  | _, _ => None
  end.

Definition digits_value (ds : string) : Z :=
  fold_left (fun acc c => (acc * 10 + Z.of_N (code c - 48))%Z) (list_ascii_of_string ds) 0%Z.

(** The integer part of a number: [0], or a non-zero digit and the digits
    after it. *)
Definition take_integer (s : string) : option (string * string) :=
  match s with
  | String c r =>
      if (code c =? 48)%N then Some ("0", r)
      else if is_digit c then Some (take_digits s)
      else None
  | EmptyString => None
  end.

(** [(\.\d+)?] *)
Definition take_fraction (s : string) : string * string :=
  match s with
  | String "." r =>
      match take_digits r with
      | (EmptyString, _) => (EmptyString, s)
      | (ds, rest) => (String "." ds, rest)
      end
  | _ => (EmptyString, s)
  end.

(** [([eE][-+]?\d+)?] *)
Definition take_exponent (s : string) : string * string :=
  match s with
  | String e r =>
      if (Ascii.eqb e "e" || Ascii.eqb e "E")%bool then
        let '(sign, r') :=
          match r with
          | String g r1 =>
              if (Ascii.eqb g "+" || Ascii.eqb g "-")%bool
              then (String g EmptyString, r1) else (EmptyString, r)
          | EmptyString => (EmptyString, r)
          end in
        match take_digits r' with
        | (EmptyString, _) => (EmptyString, s)
        | (ds, rest) => (String e (sign +++ ds), rest)
        end
      else (EmptyString, s)
  | EmptyString => (EmptyString, s)
  end.

Definition parse_number (s : string) : option (value * string) :=
  let '(negative, s1) :=
    match s with
    | String "-" r => (true, r)
    | _ => (false, s)
    end in
  match take_integer s1 with
  | None => None
  | Some (int_part, s2) =>
      let '(frac, s3) := take_fraction s2 in
      let '(exp, s4) := take_exponent s3 in
      match frac, exp with
      | EmptyString, EmptyString =>
          Some (JInt (if negative then - digits_value int_part else digits_value int_part), s4)
      | _, _ => Some (JFloat ((if negative then "-" else "") +++ int_part +++ frac +++ exp), s4)
      end
  end.

Definition hex_value (c : ascii) : option N :=
  let n := code c in
  if between 48 57 n then Some (n - 48)%N
  else if between 97 102 n then Some (n - 87)%N
  else if between 65 70 n then Some (n - 55)%N
  else None.

(** Four hexadecimal digits. *)
Definition take_hex4 (s : string) : option (N * string) :=
  match s with
  | String a (String b (String c (String d r))) =>
      match hex_value a, hex_value b, hex_value c, hex_value d with
      | Some x, Some y, Some z, Some t => Some ((x * 4096 + y * 256 + z * 16 + t)%N, r)
      | _, _, _, _ => None
      end
  | _ => None
  end.

(** The UTF-8 bytes of a code point (a lone surrogate gets the three bytes
    of its value). *)
Definition utf8_of_point (n : N) : string :=
  if (n <? 128)%N then String (ascii_of_N n) EmptyString
  else if (n <? 2048)%N then
    String (ascii_of_N (192 + n / 64)) (String (ascii_of_N (128 + n mod 64)) EmptyString)
  else if (n <? 65536)%N then
    String (ascii_of_N (224 + n / 4096))
      (String (ascii_of_N (128 + n / 64 mod 64))
         (String (ascii_of_N (128 + n mod 64)) EmptyString))
  else
    String (ascii_of_N (240 + n / 262144))
      (String (ascii_of_N (128 + n / 4096 mod 64))
         (String (ascii_of_N (128 + n / 64 mod 64))
            (String (ascii_of_N (128 + n mod 64)) EmptyString))).

(** A [\u] escape, the four digits already read as [hi]: a high surrogate
    followed by an escaped low one makes one code point. *)
Definition take_point (hi : N) (s : string) : N * string :=
  if between 55296 56319 hi then
    match s with
    | String b (String u r) =>
        if (Ascii.eqb b backslash && Ascii.eqb u "u")%bool then
          match take_hex4 r with
          | Some (lo, r') =>
              if between 56320 57343 lo
              then ((65536 + (hi - 55296) * 1024 + (lo - 56320))%N, r')
              else (hi, s)
          | None => (hi, s)
          end
        else (hi, s)
    | _ => (hi, s)
    end
  else (hi, s).

Definition simple_escape (c : ascii) : option ascii :=
  if Ascii.eqb c quote then Some quote
  else if Ascii.eqb c backslash then Some backslash
  else if Ascii.eqb c "/" then Some "/"%char
  else if Ascii.eqb c "b" then Some "008"%char
  else if Ascii.eqb c "f" then Some "012"%char
  else if Ascii.eqb c "n" then Some "010"%char
  else if Ascii.eqb c "r" then Some "013"%char
  else if Ascii.eqb c "t" then Some "009"%char
  else None.

(** A string literal after its opening quote. *)
Fixpoint parse_string (fuel : nat) (s : string) : option (string * string) :=
  match fuel with
  | O => None
  | S fuel =>
      match s with
      | EmptyString => None
      | String c r =>
          if Ascii.eqb c quote then Some (EmptyString, r)
          else if Ascii.eqb c backslash then
            match r with
            | EmptyString => None
            | String e r1 =>
                if Ascii.eqb e "u" then
                  match take_hex4 r1 with
                  | None => None
                  | Some (hi, r2) =>
                      let '(point, r3) := take_point hi r2 in
                      match parse_string fuel r3 with
                      | Some (body, rest) => Some (utf8_of_point point +++ body, rest)
                      | None => None
                      end
                  end
                else
                  match simple_escape e with
                  | None => None
                  | Some x =>
                      match parse_string fuel r1 with
                      | Some (body, rest) => Some (String x body, rest)
                      | None => None
                      end
                  end
            end
          else if (code c <? 32)%N then None
          else
            match parse_string fuel r with
            | Some (body, rest) => Some (String c body, rest)
            | None => None
            end
      end
  end.

Definition parse_literal (s : string) : option (value * string) :=
  match strip_prefix "null" s with
  | Some r => Some (JNull, r)
  | None =>
  match strip_prefix "true" s with
  | Some r => Some (JBool true, r)
  | None =>
  match strip_prefix "false" s with
  | Some r => Some (JBool false, r)
  | None =>
  match parse_number s with
  | Some x => Some x
  | None =>
  match strip_prefix "NaN" s with
  | Some r => Some (JFloat "NaN", r)
  | None =>
  match strip_prefix "Infinity" s with
  | Some r => Some (JFloat "Infinity", r)
  | None =>
  match strip_prefix "-Infinity" s with
  | Some r => Some (JFloat "-Infinity", r)
  | None => None
  end end end end end end end.

(** One value at the head of [s]; the items of an array after the first
    was found to be there; the members of an object likewise. *)
Fixpoint parse_value (fuel : nat) (s : string) : option (value * string) :=
  match fuel with
  | O => None
  | S fuel =>
      match s with
      | EmptyString => None
      | String c r =>
          if Ascii.eqb c quote then
            match parse_string (S (String.length r)) r with
            | Some (str, rest) => Some (JStr str, rest)
            | None => None
            end
          else if Ascii.eqb c "[" then
            match skip_ws r with
            | String "]" rest => Some (JList [], rest)
            | r' => parse_items fuel r' []
            end
          else if Ascii.eqb c "{" then
            match skip_ws r with
            | String "}" rest => Some (JDict [], rest)
            | r' => parse_members fuel r' []
            end
          else parse_literal s
      end
  end
with parse_items (fuel : nat) (s : string) (seen : list value) : option (value * string) :=
  match fuel with
  | O => None
  | S fuel =>
      match parse_value fuel s with
      | None => None
      | Some (v, r) =>
          match skip_ws r with
          | String "," r' => parse_items fuel (skip_ws r') (seen ++ [v])
          | String "]" rest => Some (JList (seen ++ [v]), rest)
          | _ => None
          end
      end
  end
with parse_members (fuel : nat) (s : string) (seen : dict) : option (value * string) :=
  match fuel with
  | O => None
  | S fuel =>
      match s with
      | String q r =>
          if Ascii.eqb q quote then
            match parse_string (S (String.length r)) r with
            | None => None
            | Some (key, r1) =>
                match skip_ws r1 with
                | String ":" r2 =>
                    match parse_value fuel (skip_ws r2) with
                    | None => None
                    | Some (v, r3) =>
                        match skip_ws r3 with
                        | String "," r4 => parse_members fuel (skip_ws r4) (set key v seen)
                        | String "}" rest => Some (JDict (set key v seen), rest)
                        | _ => None
                        end
                    end
                | _ => None
                end
            end
          else None
      | EmptyString => None
      end
  end.

Definition loads (s : string) : option value :=
  match parse_value (2 * String.length s + 2) (skip_ws s) with
  | Some (v, rest) =>
      match skip_ws rest with
      | EmptyString => Some v
      | _ => None
      end
  | None => None
  end.

(** [repr] of a value, for the messages that print one. *)
Fixpoint repr (v : value) : string :=
  match v with
  | JNull => "None"
  | JBool true => "True"
  | JBool false => "False"
  | JInt n => decimal n
  | JFloat lexeme => lexeme
  | JStr s => "'" +++ s +++ "'"
  | JList items =>
      "[" +++
      (fix join (l : list value) : string :=
         match l with
         | [] => ""
         | [x] => repr x
         | x :: r => repr x +++ ", " +++ join r
         end) items
      +++ "]"
  | JDict members =>
      "{" +++
      (fix join (l : list (string * value)) : string :=
         match l with
         | [] => ""
         | [(k, x)] => "'" +++ k +++ "': " +++ repr x
         | (k, x) :: r => "'" +++ k +++ "': " +++ repr x +++ ", " +++ join r
         end) members
      +++ "}"
  end.

(** Three names and more: ['a', 'b', and 'c']. *)
Fixpoint quoted_tail (names : list string) : string :=
  match names with
  | [] => ""
  | [a] => "and '" +++ a +++ "'"
  | a :: rest => "'" +++ a +++ "', " +++ quoted_tail rest
  end.

Definition quoted_names (names : list string) : string :=
  match names with
  | [] => ""
  | [a] => "'" +++ a +++ "'"
  | [a; b] => "'" +++ a +++ "' and '" +++ b +++ "'"
  | _ => quoted_tail names
  end.

(** The name CPython gives a method of the server in the messages of a
    call that cannot be bound, and the longer one it gives it when the
    argument after [**] is no mapping, the plugin being the module
    [c4d_plugin]. *)
Definition qualified (callee : string) : string := "Cinema4DMCPServer." +++ callee.

Definition with_module (callee : string) : string := "c4d_plugin." +++ qualified callee.

(** The wording of CPython 3.11. *)
Definition wording (f : fault) : string :=
  match f with
  | NoAttribute v attr =>
      "'" +++ type_name v +++ "' object has no attribute '" +++ attr +++ "'"
  | Unhashable v => "unhashable type: '" +++ type_name v +++ "'"
  | NotAMapping callee v =>
      with_module callee +++ "() argument after ** must be a mapping, not " +++ type_name v
  | UnexpectedKeyword callee k =>
      qualified callee +++ "() got an unexpected keyword argument '" +++ k +++ "'"
  | MultipleValues callee k =>
      qualified callee +++ "() got multiple values for argument '" +++ k +++ "'"
  | MissingArguments callee names =>
      qualified callee +++ "() missing " +++ decimal (Z.of_nat (length names))
      +++ " required positional argument" +++ (match names with [_] => "" | _ => "s" end)
      +++ ": " +++ quoted_names names
  end.

#[export] Instance python : Python := {|
  bytes_decode := decode_utf8;
  json_loads := loads;
  json_dumps := dumps;
  str_encode := encode_utf8;
  str_lower := lower;
  py_repr := repr;
  fault_text := wording;
  decode_error_text := fun _ => "'utf-8' codec can't decode bytes";
  loads_error_text := fun _ => "Expecting value"
|}.

End RefCodec.

(** ** A reference host

    A scene that only remembers the objects inserted in it; every other
    operation of the catalog reports how many there are. *)

Module RefHost.
Import Json Plugin.

Definition scene : Type := list (c4d_object * value).

#[export] Instance host : Host := {|
  C4D := scene;
  Document := unit;
  GetActiveDocument := fun _ => Some tt;
  insert_object := fun kind name _ _ _ _ app => (None, app ++ [(kind, name)]);
  operation :=
    fun _ _ _ app => (Ok (JDict [("object_count", JInt (Z.of_nat (length app)))]), app)
|}.

Definition empty : server := {| doc := None; app := ([] : scene) |}.

End RefHost.

(** ** Inputs of the runs

    The concrete calls, byte strings and networks on which the functions
    above are run further down, with the reference codec and host. *)

Module Scenarios.
Import Json Chat Plugin.

#[local] Existing Instance RefCodec.python.
#[local] Existing Instance RefHost.host.

Definition three_calls : list call :=
  [mkCall "t1" "user" "one" None; mkCall "t2" "assistant" "two" None;
   mkCall "t3" "user" "three" None].

Definition two_messages : history_doc :=
  {| f_session_id := None;
     f_messages :=
       Some [mkMessageDoc (Some "user") (Some "one") (Some "t1") None;
             mkMessageDoc (Some "assistant") (Some "two") (Some "t2") None];
     f_context := None |}.

(** The bytes a client writes for three commands. *)
Definition ping_bytes : bytes := encode (Client.command_of "ping" None).

Definition bogus_bytes : bytes := encode (create_object_command "bogus" (JStr "X")).

Definition frobnicate : dict := [("type", JStr "frobnicate"); ("params", JDict [])].

Definition ping_with_keyword : dict :=
  [("type", JStr "ping"); ("params", JDict [("x", JInt 1)])].

Definition alive : value := success (JDict [("status", JStr "alive")]).

Definition two_commands : list turn := [chunk ping_bytes; chunk bogus_bytes].

(** A command whose text is not ASCII, as a client that writes UTF-8
    sends it: [create_object] for a cube named Caf\u00e9.  The letter takes
    two bytes, [0xc3 0xa9]; the command is cut between them. *)
Definition quoted (s : string) : string :=
  String RefCodec.quote (s +++ String RefCodec.quote EmptyString).

Definition cafe : string := "Caf" +++ String "195"%char (String "169"%char EmptyString).

Definition cafe_text : string :=
  "{" +++ quoted "type" +++ ": " +++ quoted "create_object" +++ ", "
  +++ quoted "params" +++ ": {" +++ quoted "object_type" +++ ": " +++ quoted "cube"
  +++ ", " +++ quoted "name" +++ ": " +++ quoted cafe +++ "}}".

Definition cafe_bytes : bytes := str_encode cafe_text.

Definition cafe_head : bytes := firstn (length cafe_bytes - 4) cafe_bytes.

Definition cafe_tail : bytes := skipn (length cafe_bytes - 4) cafe_bytes.

Definition alive_head : bytes := firstn 10 (encode alive).

Definition alive_tail : bytes := skipn 10 (encode alive).

(** A connection that holds socket [0], and a network on which [1] is the
    next socket to be opened. *)
Definition held : Client.Cinema4DConnection :=
  Client.with_sock Client.new_connection (Some 0).

Definition network (connects : list bool) (recvs : list Client.recv_answer) : Client.net :=
  {| Client.connects := connects; Client.sends := []; Client.recvs := recvs;
     Client.next_socket := 1; Client.journal := [] |}.

End Scenarios.

(** ** c4d_plugin.py: starting and stopping the server *)

Module Listener.

(** The socket and thread calls of the [try] block of [start], in order:
    the calls taken to be able to raise ([print] and [gui.MessageDialog]
    are taken to return). *)
Inductive step : Type :=
| CreateSocket
| SetOption
| Bind
| Listen
| StartThread.

(** What [start] and [stop] do to the outside, in order. *)
Inductive effect : Type :=
| SocketCreated
| OptionSet
| Bound (host : string) (port : Z)
| Listening (backlog : Z)
| ThreadStarted
| SocketClosed
| ThreadJoined
| Printed (text : string)
| MessageDialog (text : string).

(** [class Cinema4DMCPServer]: the fields [start] and [stop] use.  The
    thread is held with whether it was started; a started thread lives
    until the server stops. *)
Record Cinema4DMCPServer : Type := mkServer {
  host : string;
  port : Z;
  running : bool;
  socket : option unit;
  server_thread : option bool
}.

(** [Cinema4DMCPServer.__init__] *)
Definition init (host : string) (port : Z) : Cinema4DMCPServer :=
  {| host := host; port := port; running := false; socket := None; server_thread := None |}.

(** [Cinema4DMCPServer.stop]: an exception of [close] or [join] is
    swallowed, and both references are cleared whatever happens. *)
Definition stop (s : Cinema4DMCPServer) : Cinema4DMCPServer * list effect :=
  ({| host := host s; port := port s; running := false; socket := None;
      server_thread := None |},
   match socket s with Some _ => [SocketClosed] | None => [] end
   ++ match server_thread s with Some true => [ThreadJoined] | _ => [] end
   ++ [Printed "Cinema 4D MCP server stopped"]).

(** The [try] block of [start] up to the call that raises, if one does:
    the server as the assignments made so far left it, what was done, and
    the message of the exception. *)
Definition attempt (fault : option (step * string)) (s : Cinema4DMCPServer)
  : Cinema4DMCPServer * list effect * option string :=
  let opened :=
    {| host := host s; port := port s; running := running s; socket := Some tt;
       server_thread := server_thread s |} in
  let threaded (started : bool) :=
    {| host := host s; port := port s; running := running s; socket := Some tt;
       server_thread := Some started |} in
  match fault with
  | Some (CreateSocket, text) => (s, [], Some text)
  | Some (SetOption, text) => (opened, [SocketCreated], Some text)
  | Some (Bind, text) => (opened, [SocketCreated; OptionSet], Some text)
  | Some (Listen, text) =>
      (opened, [SocketCreated; OptionSet; Bound (host s) (port s)], Some text)
  | Some (StartThread, text) =>
      (threaded false,
       [SocketCreated; OptionSet; Bound (host s) (port s); Listening 1], Some text)
  | None =>
      (threaded true,
       [SocketCreated; OptionSet; Bound (host s) (port s); Listening 1; ThreadStarted],
       None)
  end.

(** [Cinema4DMCPServer.start]; [fault] is the call of the [try] block that
    raises, with the message of its exception, if any does. *)
Definition start (fault : option (step * string)) (s : Cinema4DMCPServer)
  : Cinema4DMCPServer * list effect :=
  if running s then (s, [Printed "Server is already running"])
  else
    let s0 :=
      {| host := host s; port := port s; running := true; socket := socket s;
         server_thread := server_thread s |} in
    match attempt fault s0 with
    | (s1, done, None) =>
        (s1,
         done
         ++ [Printed ("Cinema 4D MCP server started on " +++ host s +++ ":"
                      +++ Json.decimal (port s));
             MessageDialog ("Cinema 4D MCP server started on port " +++ Json.decimal (port s))])
    | (s1, done, Some text) =>
        let '(s2, undone) := stop s1 in
        (s2,
         done
         ++ [Printed ("Failed to start server: " +++ text);
             MessageDialog ("Failed to start server: " +++ text)]
         ++ undone)
    end.

(** A server that holds nothing. *)
Definition stopped (s : Cinema4DMCPServer) : Prop :=
  running s = false /\ socket s = None /\ server_thread s = None.

(** A server that listens. *)
Definition listening (s : Cinema4DMCPServer) : Prop :=
  running s = true /\ socket s = Some tt /\ server_thread s = Some true.

Definition count_closed (effects : list effect) : nat :=
  length (filter (fun e => match e with SocketClosed => true | _ => false end) effects).

Definition count_created (effects : list effect) : nat :=
  length (filter (fun e => match e with SocketCreated => true | _ => false end) effects).

(** A call of [start], with the call of its [try] block that raises if
    one does, or a call of [stop]. *)
Inductive request : Type :=
| Start (fault : option (step * string))
| Stop.

(** The calls made on one server, one after the other, with all they do. *)
Fixpoint calls (requests : list request) (s : Cinema4DMCPServer)
  : Cinema4DMCPServer * list effect :=
  match requests with
  | [] => (s, [])
  | r :: rest =>
      let '(s1, first) := match r with Start fault => start fault s | Stop => stop s end in
      let '(s2, others) := calls rest s1 in
      (s2, first ++ others)
  end.

(** The sockets a server holds. *)
Definition held (s : Cinema4DMCPServer) : nat :=
  match socket s with Some _ => 1 | None => 0 end.

(** [class Cinema4DMCPDialog]: its flag, whether its two buttons are
    enabled, and the two texts it shows. *)
Record Cinema4DMCPDialog : Type := mkDialog {
  server_running : bool;
  start_enabled : bool;
  stop_enabled : bool;
  status_text : string;
  port_text : string
}.

Definition ID_START_BTN : Z := 1001.

Definition ID_STOP_BTN : Z := 1002.

(** The dialog once [__init__] and [CreateLayout] ran. *)
Definition CreateLayout : Cinema4DMCPDialog :=
  {| server_running := false; start_enabled := true; stop_enabled := false;
     status_text := "Status: Not connected"; port_text := "9877" |}.

(** [Cinema4DMCPDialog.Command], on the global [_server_instance].  [int]
    is Python's [int] on the text of the port field; when it raises, the
    exception leaves [Command]. *)
Definition Command (int : string -> pyres Z) (fault : option (step * string)) (id : Z)
    (d : Cinema4DMCPDialog) (instance : option Cinema4DMCPServer)
  : pyres (Cinema4DMCPDialog * option Cinema4DMCPServer * list effect) :=
  if (id =? ID_START_BTN)%Z then
    match int (port_text d) with
    | Raise e => Raise e
    | Ok port =>
        let '(s, effects) := start fault (init "localhost" port) in
        Ok ({| server_running := true; start_enabled := false; stop_enabled := true;
               status_text := "Status: Connected on port " +++ Json.decimal port;
               port_text := port_text d |},
            Some s, effects)
    end
  else if (id =? ID_STOP_BTN)%Z then
    Ok ({| server_running := false; start_enabled := true; stop_enabled := false;
           status_text := "Status: Not connected"; port_text := port_text d |},
        None,
        match instance with
        | Some s => snd (stop s)
        | None => []
        end)
  else Ok (d, instance, []).

End Listener.

(** ** c4d_plugin.py: export_scene *)

Module PluginOps.
Import Json Plugin.

(** The export formats of the SDK that [export_scene] maps names to, and
    the two flags it saves with: non-zero identifiers, hence truthy. *)
Inductive c4d_format : Type :=
| FORMAT_C4DEXPORT
| FORMAT_FBX
| FORMAT_OBJ2EXPORT
| FORMAT_ABCEXPORT.

Inductive save_flags : Type :=
| SAVEDOCUMENTFLAGS_NONE
| SAVEDOCUMENTFLAGS_DONTADDTORECENTLIST.

(** [documents.SaveDocument(doc, filepath, flags, format)]: what it
    returns, or the exception it raises. *)
Class Documents `{Host} : Type := {
  SaveDocument :
    option Document -> value -> save_flags -> c4d_format -> C4D -> pyres bool * C4D
}.

(** [format_map.get(...)] of [export_scene] *)
Definition format_map (name : string) : option c4d_format :=
  if String.eqb name "c4d" then Some FORMAT_C4DEXPORT
  else if String.eqb name "fbx" then Some FORMAT_FBX
  else if String.eqb name "obj" then Some FORMAT_OBJ2EXPORT
  else if String.eqb name "alembic" then Some FORMAT_ABCEXPORT
  else None.

(** [Cinema4DMCPServer.export_scene]; [format] is [JStr "c4d"] when the
    command gives none.  The calls of [SaveDocument] it makes are given
    back with the result. *)
Definition export_scene `{Python} `{Host} `{!Documents} (filepath format : value)
    (srv : server) : value * server * list (save_flags * c4d_format) :=
  match format with
  | JStr s =>
      match format_map (str_lower s) with
      | None => (JDict [("error", JStr ("Unknown format: " +++ s))], srv, [])
      | Some export_format =>
          let flags :=
            if String.eqb s "c4d" then SAVEDOCUMENTFLAGS_NONE
            else SAVEDOCUMENTFLAGS_DONTADDTORECENTLIST in
          let '(saved, app') := SaveDocument (doc srv) filepath flags export_format (app srv) in
          (match saved with
           | Ok success =>
               JDict [("filepath", filepath); ("format", format); ("success", JBool success)]
           | Raise e => JDict [("error", JStr (str_of_exn e))]
           end,
           {| doc := doc srv; app := app' |}, [(flags, export_format)])
      end
  | _ => (JDict [("error", JStr (fault_text (NoAttribute format "lower")))], srv, [])
  end.

End PluginOps.

(** ** cinema4d_mcp/server.py: the tools *)

(** [json.dumps(v, indent=2)], which the tools use to print a result. *)
Class Pretty : Type := {
  json_dumps_indent : Json.value -> string
}.

Module Tools.
Import Json Client.

(** The two statements every tool starts with:
    [c4d = get_cinema4d_connection()] and [c4d.send_command(...)].  The
    global refers to the connection the command went through, as
    [send_command] left it. *)
Definition call_host `{Python} (cached : option Cinema4DConnection) (w : net)
    (command_type : string) (params : option dict)
  : pyres value * option Cinema4DConnection * net :=
  match get_cinema4d_connection cached w with
  | (Raise e, now_cached, w1) => (Raise e, now_cached, w1)
  | (Ok c, _, w1) =>
      let '(r, c', w2) := send_command c command_type params w1 in
      (r, Some c', w2)
  end.

(** What tells one tool from another: the command it sends, the string it
    makes of the result, and the words its error message starts with. *)
Record tool : Type := mkTool {
  t_command : string;
  t_params : option dict;
  t_report : value -> pyres string;
  t_failure : string
}.

(** The body shared by the tools that return a string: the [try] block,
    and the [except Exception as e] that returns [f"<failure>: {str(e)}"]. *)
Definition run_tool `{Python} (t : tool) (cached : option Cinema4DConnection) (w : net)
  : string * option Cinema4DConnection * net :=
  match call_host cached w (t_command t) (t_params t) with
  | (Ok result, now_cached, w') =>
      match t_report t result with
      | Ok text => (text, now_cached, w')
      | Raise e => (t_failure t +++ ": " +++ str_of_exn e, now_cached, w')
      end
  | (Raise e, now_cached, w') => (t_failure t +++ ": " +++ str_of_exn e, now_cached, w')
  end.

(** An optional list argument as it goes into the command: [None] or the
    list. *)
Definition optional_list (x : option (list value)) : value :=
  match x with
  | Some l => JList l
  | None => JNull
  end.

(** [get_scene_info] *)
Definition get_scene_info `{Pretty} (include_hierarchy : bool) : tool :=
  {| t_command := "get_scene_info";
     t_params := Some [("include_hierarchy", JBool include_hierarchy)];
     t_report := fun result => Ok (json_dumps_indent result);
     t_failure := "Error getting scene info" |}.

(** [get_object_info] *)
Definition get_object_info `{Pretty} (object_name : string) : tool :=
  {| t_command := "get_object_info";
     t_params := Some [("name", JStr object_name)];
     t_report := fun result => Ok (json_dumps_indent result);
     t_failure := "Error getting object info" |}.

(** [create_object] *)
Definition create_object `{Pretty} (object_type name : string)
    (position rotation scale : option (list value)) : tool :=
  {| t_command := "create_object";
     t_params :=
       Some [("object_type", JStr object_type); ("name", JStr name);
             ("position", optional_list position); ("rotation", optional_list rotation);
             ("scale", optional_list scale)];
     t_report := fun result =>
       Ok ("Successfully created " +++ object_type +++ " named '" +++ name +++ "': "
           +++ json_dumps_indent result);
     t_failure := "Error creating object" |}.

(** [modify_object] *)
Definition modify_object `{Pretty} (object_name : string)
    (position rotation scale : option (list value)) (properties : option dict) : tool :=
  {| t_command := "modify_object";
     t_params :=
       Some [("name", JStr object_name);
             ("position", optional_list position); ("rotation", optional_list rotation);
             ("scale", optional_list scale);
             ("properties", match properties with Some d => JDict d | None => JNull end)];
     t_report := fun result =>
       Ok ("Successfully modified '" +++ object_name +++ "': " +++ json_dumps_indent result);
     t_failure := "Error modifying object" |}.

(** [delete_object] *)
Definition delete_object (object_name : string) : tool :=
  {| t_command := "delete_object";
     t_params := Some [("name", JStr object_name)];
     t_report := fun _ => Ok ("Successfully deleted '" +++ object_name +++ "'");
     t_failure := "Error deleting object" |}.

(** [create_material]: [color or [1.0, 1.0, 1.0]] replaces a missing or an
    empty colour by white. *)
Definition create_material `{Pretty} (name : string) (color : option (list value))
    (reflectance roughness metallic opacity : value) : tool :=
  {| t_command := "create_material";
     t_params :=
       Some [("name", JStr name);
             ("color",
              match color with
              | Some (c :: l) => JList (c :: l)
              | _ => JList [JFloat "1.0"; JFloat "1.0"; JFloat "1.0"]
              end);
             ("reflectance", reflectance); ("roughness", roughness);
             ("metallic", metallic); ("opacity", opacity)];
     t_report := fun result =>
       Ok ("Successfully created material '" +++ name +++ "': " +++ json_dumps_indent result);
     t_failure := "Error creating material" |}.

(** [apply_material] *)
Definition apply_material (object_name material_name : string) : tool :=
  {| t_command := "apply_material";
     t_params := Some [("object_name", JStr object_name); ("material_name", JStr material_name)];
     t_report := fun _ =>
       Ok ("Successfully applied material '" +++ material_name +++ "' to '"
           +++ object_name +++ "'");
     t_failure := "Error applying material" |}.

(** [set_animation_frame] *)
Definition set_animation_frame (frame : Z) : tool :=
  {| t_command := "set_animation_frame";
     t_params := Some [("frame", JInt frame)];
     t_report := fun _ => Ok ("Set animation frame to " +++ decimal frame);
     t_failure := "Error setting animation frame" |}.

(** [create_keyframe] *)
Definition create_keyframe (object_name parameter : string) (v : value) (frame : Z) : tool :=
  {| t_command := "create_keyframe";
     t_params :=
       Some [("object_name", JStr object_name); ("parameter", JStr parameter);
             ("value", v); ("frame", JInt frame)];
     t_report := fun _ =>
       Ok ("Created keyframe for '" +++ object_name +++ "." +++ parameter
           +++ "' at frame " +++ decimal frame);
     t_failure := "Error creating keyframe" |}.

(** [execute_python]: [result.get('result', '')] raises on a result that
    is no dictionary. *)
Definition execute_python `{Python} (code : string) : tool :=
  {| t_command := "execute_code";
     t_params := Some [("code", JStr code)];
     t_report := fun result =>
       match response_get result "result" (JStr "") with
       | Ok v => Ok ("Code executed successfully: " +++ py_str v)
       | Raise e => Raise e
       end;
     t_failure := "Error executing code" |}.

(** [export_scene] *)
Definition export_scene (filepath format : string) : tool :=
  {| t_command := "export_scene";
     t_params := Some [("filepath", JStr filepath); ("format", JStr format)];
     t_report := fun _ => Ok ("Successfully exported scene to " +++ filepath);
     t_failure := "Error exporting scene" |}.

(** [import_file] *)
Definition import_file `{Pretty} (filepath : string) (merge : bool) : tool :=
  {| t_command := "import_file";
     t_params := Some [("filepath", JStr filepath); ("merge", JBool merge)];
     t_report := fun result =>
       Ok ("Successfully imported " +++ filepath +++ ": " +++ json_dumps_indent result);
     t_failure := "Error importing file" |}.

(** The keywords a tool sends. *)
Definition keywords (t : tool) : list string :=
  match t_params t with
  | Some d => keys d
  | None => []
  end.

(** The keywords fit the signature of a handler: each is a parameter, and
    each parameter without default is among them. *)
Definition fits `{Plugin.Host} (h : Plugin.handler) (sent : list string) : bool :=
  forallb (fun k => Plugin.mem k (Plugin.h_required h ++ Plugin.h_optional h)) sent
  && forallb (fun k => Plugin.mem k sent) (Plugin.h_required h).

(** The plugin has a handler under the command of the tool, and the
    keywords of the tool fit it. *)
Definition served `{Python} `{Plugin.Host} (t : tool) : bool :=
  match Plugin.assoc (t_command t) Plugin.handlers with
  | Some h => fits h (keywords t)
  | None => false
  end.

(** [server_lifespan], after the [yield]: the cached connection is
    disconnected and the global cleared. *)
Definition shutdown (cached : option Cinema4DConnection) (w : net)
  : option Cinema4DConnection * net :=
  match cached with
  | Some c => (None, snd (disconnect c w))
  | None => (None, w)
  end.

(** [server_lifespan], before the [yield]: a connection is tried, and a
    failure is only logged. *)
Definition startup `{Python} (cached : option Cinema4DConnection) (w : net)
  : option Cinema4DConnection * net :=
  let '(_, now_cached, w') := get_cinema4d_connection cached w in
  (now_cached, w').

End Tools.

(** ** c4d_plugin.py: the accept loop *)

Module Acceptor.

(** What [self.socket.accept()] and the start of the handler thread come
    to in one pass of the loop: a client with its address as [print]
    shows it, and the text of the exception when the thread cannot be
    started; a timeout; another exception. *)
Inductive accepted : Type :=
| Client (client : nat) (address : string) (start_fails : option string)
| AcceptTimeout
| AcceptRaises (text : string).

(** One pass of [while self.running:]: the flag as [stop] left it when the
    loop tests it, what [accept] comes to, and the flag when the [except]
    clause reads it. *)
Record pass : Type := mkPass {
  running_at_test : bool;
  accept : accepted;
  running_at_except : bool
}.

Inductive did : Type :=
| Printed (text : string)
| SetTimeout
| HandlerStarted (client : nat).

(** [Stopped] is a loop that was left; [Waiting] is a thread still inside
    [accept] because nothing more happens. *)
Inductive outcome : Type :=
| Waiting
| Stopped.

(** The [while self.running:] loop of [_server_loop]. *)
Fixpoint accept_loop (script : list pass) : list did * outcome :=
  match script with
  | [] => ([], Waiting)
  | p :: rest =>
      if negb (running_at_test p) then ([], Stopped)
      else
        let failed (before : list did) (text : string) :=
          let shown := before ++ [Printed ("Error accepting connection: " +++ text)] in
          if negb (running_at_except p) then (shown, Stopped)
          else let '(later, how) := accept_loop rest in (shown ++ later, how) in
        match accept p with
        | AcceptTimeout => accept_loop rest
        | AcceptRaises text => failed [] text
        | Client client address (Some text) =>
            failed [Printed ("Connected to client: " +++ address)] text
        | Client client address None =>
            let '(later, how) := accept_loop rest in
            (Printed ("Connected to client: " +++ address) :: HandlerStarted client :: later,
             how)
        end
  end.

(** [Cinema4DMCPServer._server_loop]; [settimeout], which stands before
    the loop and outside every [try], is taken to return. *)
Definition server_loop (script : list pass) : list did * outcome :=
  let '(done, how) := accept_loop script in
  (Printed "Server thread started" :: SetTimeout :: done
   ++ match how with
      | Stopped => [Printed "Server thread stopped"]
      | Waiting => []
      end,
   how).

(** The handler threads started, and the clients whose thread could be
    started, in order. *)
Fixpoint handlers_of (done : list did) : list nat :=
  match done with
  | [] => []
  | HandlerStarted client :: rest => client :: handlers_of rest
  | _ :: rest => handlers_of rest
  end.

Fixpoint clients_of (script : list pass) : list nat :=
  match script with
  | [] => []
  | p :: rest =>
      match accept p with
      | Client client _ None => client :: clients_of rest
      | _ => clients_of rest
      end
  end.

(** The server runs all along. *)
Definition keeps_running (script : list pass) : Prop :=
  Forall (fun p => running_at_test p = true /\ running_at_except p = true) script.

End Acceptor.

(** ** c4d_plugin.py: which answer process_chat gives *)

Module ChatTopics.

(** Python's [needle in text] on two strings. *)
Fixpoint contains (needle text : string) : bool :=
  String.prefix needle text
  || match text with
     | EmptyString => false
     | String _ rest => contains needle rest
     end.

(** The branches of the [if]/[elif] chain of [process_chat]. *)
Inductive branch : Type :=
| Greeting
| HowMany
| ListObjects
| Selected
| Cameras
| Lights
| Help
| Default.

(** The conditions of the chain, in order, on a message that is a
    string. *)
Definition process_chat_branch `{Python} (message : string) : branch :=
  let message_lower := str_lower message in
  if existsb (fun greeting => contains greeting message_lower) ["hello"; "hi"; "hey"]
  then Greeting
  else if contains "how many" message_lower && contains "object" message_lower
  then HowMany
  else if contains "what objects" message_lower || contains "list objects" message_lower
  then ListObjects
  else if contains "selected" message_lower then Selected
  else if contains "camera" message_lower then Cameras
  else if contains "light" message_lower then Lights
  else if contains "help" message_lower || contains "what can you do" message_lower
  then Help
  else Default.

End ChatTopics.

(** ** cinema4d_mcp/server.py: the chat tools *)

Module ChatTools.
Import Json Chat Client.

(** [get_chat_manager], on the global [_chat_manager]: the manager it
    returns, which the global refers to from then on.  [stamp] is the
    clock when a manager is created. *)
Definition get_chat_manager (stamp : string) (global : option ChatManager) : ChatManager :=
  match global with
  | Some cm => cm
  | None => ChatManager_init stamp 100
  end.

(** The parameters of the [process_chat] command [send_chat_message]
    sends, from the manager that holds the message of the user. *)
Definition chat_params (cm : ChatManager) (message : string) (include_scene_context : bool)
  : dict :=
  [("message", JStr message);
   ("include_scene_context", JBool include_scene_context);
   ("history", JList (map JDict (get_conversation_history cm (Some 10%Z))))].

(** How the first half of [send_chat_message] ends: in its [except]
    clause, with the text it returns, or with the result of the command,
    which the second half reads. *)
Inductive sent : Type :=
| Failed (text : string)
| Replied (result : value).

(** [send_chat_message] up to the result of the command (the statements
    before [if "error" in result]), and its [except] clause.  [now] is
    the clock when the message is added, [stamp] the clock should the
    manager be created.  The two globals are given back as the call
    leaves them. *)
Definition send_chat_message_request `{Python} (now stamp : string) (message : string)
    (include_scene_context : bool) (cached : option Cinema4DConnection)
    (global : option ChatManager) (w : net)
  : sent * option Cinema4DConnection * option ChatManager * net :=
  match get_cinema4d_connection cached w with
  | (Raise e, now_cached, w1) =>
      (Failed ("Error sending chat message: " +++ str_of_exn e), now_cached, global, w1)
  | (Ok c, _, w1) =>
      let chat_manager := snd (add_message now (get_chat_manager stamp global) "user" message None) in
      match send_command c "process_chat"
              (Some (chat_params chat_manager message include_scene_context)) w1 with
      | (Raise e, c', w2) =>
          (Failed ("Error sending chat message: " +++ str_of_exn e), Some c',
           Some chat_manager, w2)
      | (Ok result, c', w2) => (Replied result, Some c', Some chat_manager, w2)
      end
  end.

(** [clear_chat_history]; [reset] reads the clock again. *)
Definition clear_chat_history (stamp stamp' : string) (global : option ChatManager)
  : string * option ChatManager :=
  ("Chat history cleared. Starting new conversation session.",
   Some (reset stamp' (get_chat_manager stamp global))).

End ChatTools.

(** ** More inputs of the runs *)

Module MoreScenarios.
Import Json Chat.

#[local] Existing Instance RefCodec.python.
#[local] Existing Instance RefHost.host.

(** A manager that holds a question and its answer. *)
Definition talk : ChatManager :=
  {| history :=
       [mkChatMessage "user" "how many objects?" "2026-01-01T10:00:00" [];
        mkChatMessage "assistant" "There are currently 3 objects in the scene."
          "2026-01-01T10:00:01" [("object_count", JInt 3)]];
     max_history := 100;
     context_data := [("project", JStr "demo")];
     session_id := "20260101_100000" |}.

(** A file whose second message has no content. *)
Definition broken_file : history_doc :=
  {| f_session_id := Some "20250505_050505";
     f_messages :=
       Some [mkMessageDoc (Some "user") (Some "one") (Some "t1") None;
             mkMessageDoc (Some "assistant") None (Some "t2") None];
     f_context := Some [("k", JInt 1)] |}.

(** [int] on the text of the port field: a text of decimal digits is its
    number; a text with anything else in it is refused here with the
    [ValueError] Python raises on a word. *)
Fixpoint digits (text : string) (sofar : Z) : option Z :=
  match text with
  | EmptyString => Some sofar
  | String c rest =>
      let n := Z.of_nat (nat_of_ascii c) in
      if ((48 <=? n) && (n <=? 57))%Z then digits rest (10 * sofar + (n - 48))%Z
      else None
  end.

Definition int (text : string) : pyres Z :=
  match text with
  | EmptyString =>
      Raise (Exn PlainException "invalid literal for int() with base 10: ''")
  | _ =>
      match digits text 0 with
      | Some n => Ok n
      | None =>
          Raise (Exn PlainException
                   ("invalid literal for int() with base 10: '" +++ text +++ "'"))
      end
  end.

(** The ping command in two chunks. *)
Definition ping_head : bytes := firstn 8 Scenarios.ping_bytes.

Definition ping_tail : bytes := skipn 8 Scenarios.ping_bytes.

(** A ping, then a [create_object] for a type that does not exist, each
    arriving whole. *)
Definition two_arrivals : list Plugin.arrival :=
  [(Plugin.chunk Scenarios.ping_bytes, Scenarios.ping_bytes, Client.command_of "ping" None);
   (Plugin.chunk Scenarios.bogus_bytes, Scenarios.bogus_bytes,
    Plugin.create_object_command "bogus" (JStr "X"))].

(** The error response to a command the plugin does not know, and the
    network on which it is what the client receives. *)
Definition nope : value := Plugin.failure "Unknown command type: nope".

Definition nope_network : Client.net := Scenarios.network [] [Client.Chunk (encode nope)].

(** The networks on which a ping and a deletion are answered by the
    reference host. *)
Definition alive_network : Client.net :=
  Scenarios.network [] [Client.Chunk (encode Scenarios.alive)].

Definition deleted : value := Plugin.success (JDict [("object_count", JInt 0)]).

Definition deleted_network : Client.net :=
  Scenarios.network [true] [Client.Chunk (encode deleted)].

(** A server thread that sees a timeout, a client, an error of [accept]
    while it runs, and then [stop]. *)
Definition one_client : list Acceptor.pass :=
  [Acceptor.mkPass true Acceptor.AcceptTimeout true;
   Acceptor.mkPass true (Acceptor.Client 7 "('127.0.0.1', 50000)" None) true;
   Acceptor.mkPass true (Acceptor.AcceptRaises "Too many open files") true;
   Acceptor.mkPass false Acceptor.AcceptTimeout false;
   Acceptor.mkPass true (Acceptor.Client 8 "('127.0.0.1', 50001)" None) true].

(** A host on which the statements of every method of the catalog
    raise. *)
Definition dead_host : Plugin.Host := {|
  Plugin.C4D := unit;
  Plugin.Document := unit;
  Plugin.GetActiveDocument := fun _ => Some tt;
  Plugin.insert_object :=
    fun _ _ _ _ _ _ app => (Some (Exn PlainException "Object is dead"), app);
  Plugin.operation := fun _ _ _ app => (Raise (Exn PlainException "Object is dead"), app)
|}.

(** A host on which every document is saved. *)
#[export] Instance documents : PluginOps.Documents := {|
  PluginOps.SaveDocument := fun _ _ _ _ app => (Ok true, app)
|}.

End MoreScenarios.

(** * Properties *)

(** ** The conversation store *)

Module ChatFacts.
Import Json Chat Scenarios.

Lemma length_lastn {A : Type} (n : nat) (l : list A) :
  length (lastn n l) = Nat.min n (length l).
Proof. unfold lastn. rewrite length_skipn. lia. Qed.

Lemma lastn_all {A : Type} (n : nat) (l : list A) :
  length l <= n -> lastn n l = l.
Proof.
  intros Hle. unfold lastn.
  replace (length l - n) with 0 by lia. reflexivity.
Qed.

Lemma py_slice_from_last {A : Type} (n : Z) (l : list A) :
  (0 < n)%Z -> py_slice_from (- n) l = lastn (Z.to_nat n) l.
Proof.
  intros Hn. unfold py_slice_from, lastn.
  destruct (Z.ltb_spec (- n) 0) as [_ | Hge]; [ | lia ].
  f_equal. lia.
Qed.

(** Trimming twice keeps what trimming once at the end keeps. *)
Lemma lastn_app_lastn {A : Type} (n : nat) (a b : list A) :
  lastn n (lastn n a ++ b) = lastn n (a ++ b).
Proof.
  unfold lastn.
  rewrite !length_app, length_skipn.
  set (k := length a - n).
  replace (length a + length b - n) with ((length a + length b - n - k) + k) by lia.
  rewrite <- skipn_skipn.
  rewrite (skipn_app k a b).
  replace (k - length a) with 0 by lia. cbn [skipn].
  f_equal. lia.
Qed.

Lemma add_message_history (now : string) (cm : ChatManager) (r c : string)
    (md : option dict) :
  (0 < max_history cm)%Z ->
  history (snd (add_message now cm r c md))
  = lastn (Z.to_nat (max_history cm)) (history cm ++ [fst (add_message now cm r c md)]).
Proof.
  intros Hpos. unfold add_message. cbn [fst snd with_history history].
  destruct (Z.ltb_spec (max_history cm)
              (Z.of_nat (length (history cm ++ [ChatMessage_init now r c None md]))))
    as [Hlt | Hge].
  - apply py_slice_from_last. exact Hpos.
  - symmetry. apply lastn_all. lia.
Qed.

Lemma add_message_max_history (now : string) (cm : ChatManager) (r c : string)
    (md : option dict) :
  max_history (snd (add_message now cm r c md)) = max_history cm.
Proof. reflexivity. Qed.

Lemma add_message_bounded (now : string) (cm : ChatManager) (r c : string)
    (md : option dict) :
  (0 < max_history cm)%Z -> bounded (snd (add_message now cm r c md)).
Proof.
  intros Hpos. unfold bounded.
  rewrite add_message_history by exact Hpos.
  rewrite add_message_max_history, length_lastn. lia.
Qed.

Lemma add_messages_max_history (calls : list call) :
  forall cm, max_history (add_messages cm calls) = max_history cm.
Proof.
  induction calls as [ | c calls IH]; intros cm; cbn [add_messages].
  - reflexivity.
  - rewrite IH. apply add_message_max_history.
Qed.

Lemma add_messages_history (calls : list call) :
  forall cm,
    (0 < max_history cm)%Z -> bounded cm ->
    history (add_messages cm calls)
    = lastn (Z.to_nat (max_history cm)) (history cm ++ map message_of calls).
Proof.
  induction calls as [ | c calls IH]; intros cm Hpos Hb; cbn [add_messages map].
  - rewrite app_nil_r. symmetry. apply lastn_all. unfold bounded in Hb. lia.
  - rewrite IH.
    + rewrite add_message_max_history, add_message_history by exact Hpos.
      rewrite lastn_app_lastn.
      cbn [add_message fst]. fold (message_of c).
      rewrite <- app_assoc. reflexivity.
    + rewrite add_message_max_history. exact Hpos.
    + apply add_message_bounded. exact Hpos.
Qed.

Lemma run_max_history (now stamp : string) (o : op) (cm : ChatManager) :
  max_history (run now stamp o cm) = max_history cm.
Proof.
  destruct o; cbn [run]; try reflexivity.
  unfold import_history.
  destruct (from_dicts now _); reflexivity.
Qed.

Lemma run_bounded (now stamp : string) (o : op) (cm : ChatManager) :
  (0 < max_history cm)%Z -> is_import o = false -> bounded cm ->
  bounded (run now stamp o cm).
Proof.
  intros Hpos Hop Hb.
  destruct o; cbn [run]; try exact Hb; try discriminate Hop.
  - apply add_message_bounded. exact Hpos.
  - unfold bounded. cbn. lia.
  - unfold bounded. cbn. lia.
Qed.

(** C9, as amended.  For a manager with [max_history = N > 0]: after every
    [add_message] the history holds at most [N] messages, namely the last
    [N] of the previous history followed by the new message; after any
    sequence of [add_message] calls on a manager within the bound it holds
    the [N] most recent ones; and every method other than [import_history]
    keeps a manager within the bound. *)
Theorem history_bound (cm : ChatManager) :
  (0 < max_history cm)%Z ->
  (forall now r c md,
      bounded (snd (add_message now cm r c md))
      /\ history (snd (add_message now cm r c md))
         = lastn (Z.to_nat (max_history cm)) (history cm ++ [fst (add_message now cm r c md)]))
  /\ (forall calls,
         bounded cm ->
         bounded (add_messages cm calls)
         /\ history (add_messages cm calls)
            = lastn (Z.to_nat (max_history cm)) (history cm ++ map message_of calls))
  /\ (forall now stamp o,
         is_import o = false -> bounded cm -> bounded (run now stamp o cm)).
Proof.
  intros Hpos. repeat split.
  - apply add_message_bounded. exact Hpos.
  - apply add_message_history. exact Hpos.
  - unfold bounded.
    rewrite add_messages_history, add_messages_max_history, length_lastn by assumption.
    lia.
  - apply add_messages_history; assumption.
  - intros now stamp o Hop Hb. apply run_bounded; assumption.
Qed.

Lemma history_bound_witness :
  history (add_messages (ChatManager_init "s" 2) three_calls)
  = [message_of (mkCall "t2" "assistant" "two" None);
     message_of (mkCall "t3" "user" "three" None)].
Proof.
  exact (proj2 (proj1 (proj2 (history_bound (ChatManager_init "s" 2) eq_refl))
                  three_calls ltac:(unfold bounded; cbn; lia))).
Defined.

(** C9, as stated, fails on [import_history]: a manager with
    [max_history = 1] and an empty history holds two messages after it
    imported a file of two. *)
Lemma import_history_exceeds_bound :
  (0 < max_history (ChatManager_init "s" 1))%Z
  /\ bounded (ChatManager_init "s" 1)
  /\ length (history (run "t" "s" (ImportHistory two_messages) (ChatManager_init "s" 1))) = 2
  /\ ~ bounded (run "t" "s" (ImportHistory two_messages) (ChatManager_init "s" 1)).
Proof.
  repeat split.
  - unfold bounded. cbn. lia.
  - unfold bounded. cbn. lia.
Qed.

(** With [max_history = 0] the slice [history[-0:]] is the whole list:
    nothing is ever dropped. *)
Example add_message_zero_bound :
  length (history (add_messages (ChatManager_init "s" 0) three_calls)) = 3.
Proof. reflexivity. Qed.

End ChatFacts.

(** ** The handler loop and the dispatcher of the plugin *)

Module PluginFacts.
Import Json Plugin.

Section Loop.
Context `{Python} `{Host}.

Lemma handle_client_closing (script : list turn) (srv : server) :
  handle_client script srv
  = let '(events, srv', how) := handle_loop script [] srv in
    (events ++ closing how, srv', how).
Proof.
  unfold handle_client.
  destruct (handle_loop script [] srv) as [[events srv'] how].
  destruct how; cbn [closing]; rewrite ?app_nil_r; reflexivity.
Qed.

(** One pass of the loop on a chunk of bytes. *)
Lemma handle_loop_step (t : turn) (rest : list turn) (buffer : bytes) (srv : server)
    (data : bytes) :
  delivers t data ->
  handle_loop (t :: rest) buffer srv
  = match decode (buffer ++ data) with
    | NotText => ([ERecv data], srv, Undecodable (buffer ++ data))
    | NotJson _ =>
        let '(events, srv', how) := handle_loop rest (buffer ++ data) srv in
        (ERecv data :: events, srv', how)
    | Parsed _ command =>
        let '(response, srv1) := execute_command srv command in
        let '(events, srv', how) := handle_loop rest [] srv1 in
        (ERecv data :: ECommand command :: ESend (encode response) (send_ok t) :: events,
         srv', how)
    end.
Proof.
  intros (Hrun & Hrecv & Hdata).
  cbn [handle_loop]. rewrite Hrun, Hrecv. cbn [negb].
  destruct data as [ | b data]; [ congruence | reflexivity ].
Qed.

(** A loop that read a whole script and waits for more goes on with
    whatever comes next. *)
Lemma handle_loop_app (pre more : list turn) :
  forall buffer srv events srv' buffer',
    handle_loop pre buffer srv = (events, srv', Blocked buffer') ->
    handle_loop (pre ++ more) buffer srv
    = let '(events2, srv2, how) := handle_loop more buffer' srv' in
      (events ++ events2, srv2, how).
Proof.
  induction pre as [ | t pre IH]; intros buffer srv events srv' buffer' Hpre.
  - cbn in Hpre. injection Hpre as <- <- <-.
    change ([] ++ more) with more.
    destruct (handle_loop more buffer srv) as [[e s] h]. reflexivity.
  - change ((t :: pre) ++ more) with (t :: (pre ++ more)).
    cbn [handle_loop] in Hpre |- *.
    destruct (negb (running t)); [ discriminate | ].
    destruct (recv t) as [data | e]; [ | discriminate ].
    destruct data as [ | b data]; [ discriminate | ].
    destruct (decode (buffer ++ b :: data)) as [ | text | text command].
    + discriminate.
    + destruct (handle_loop pre (buffer ++ b :: data) srv) as [[e1 s1] h1] eqn:Hrec.
      injection Hpre as <- <- ->.
      rewrite (IH _ _ _ _ _ Hrec).
      destruct (handle_loop more buffer' s1) as [[e2 s2] h2]. reflexivity.
    + destruct (execute_command srv command) as [response srv1].
      destruct (handle_loop pre [] srv1) as [[e1 s1] h1] eqn:Hrec.
      injection Hpre as <- <- ->.
      rewrite (IH _ _ _ _ _ Hrec).
      destruct (handle_loop more buffer' s1) as [[e2 s2] h2]. reflexivity.
Qed.

(** On a healthy connection the loop produces exchanges only, whether or
    not the socket gets closed at the end. *)
Lemma handle_loop_exchanges (script : list turn) :
  healthy script ->
  forall buffer srv,
    exchanges srv (fst (fst (handle_loop script buffer srv)))
    /\ exchanges srv (fst (fst (handle_loop script buffer srv)) ++ [EClose]).
Proof.
  induction 1 as [ | t rest Hok Hrest IH]; intros buffer srv.
  - cbn. split; constructor.
  - cbn [handle_loop].
    destruct (negb (running t)).
    { cbn. split; constructor. }
    destruct (recv t) as [data | e].
    2:{ cbn. split; repeat constructor. }
    destruct data as [ | b data].
    { cbn. split; repeat constructor. }
    destruct (decode (buffer ++ b :: data)) as [ | text | text command].
    + cbn. split; repeat constructor.
    + specialize (IH (buffer ++ b :: data) srv).
      destruct (handle_loop rest (buffer ++ b :: data) srv) as [[e1 s1] h1].
      cbn [fst] in *. destruct IH as [IH1 IH2].
      split; [ | rewrite <- app_comm_cons ]; constructor; assumption.
    + pose proof (IH [] (snd (execute_command srv command))) as IH'.
      destruct (execute_command srv command) as [response srv1] eqn:Hexec.
      cbn [snd] in IH'.
      destruct (handle_loop rest [] srv1) as [[e1 s1] h1].
      cbn [fst] in *. destruct IH' as [IH1 IH2].
      rewrite Hok.
      replace response with (fst (execute_command srv command)) by (rewrite Hexec; reflexivity).
      split; [ | rewrite <- !app_comm_cons ]; constructor; constructor;
        rewrite Hexec; cbn [snd]; assumption.
Qed.

(** In a trace of exchanges what went over the socket is the responses, in
    the order of the commands, one for each. *)
Lemma exchanges_written (srv : server) (events : list event) :
  exchanges srv events ->
  written events = map encode (responses srv (commands_of events))
  /\ sends_of events = written events.
Proof.
  induction 1 as [ srv | srv | srv data events Hx IH | srv e events Hx IH
                 | srv command events Hx IH ]; cbn [written sends_of commands_of responses map].
  - split; reflexivity.
  - split; reflexivity.
  - exact IH.
  - exact IH.
  - destruct (execute_command srv command) as [response srv1].
    cbn [fst snd map] in *. destruct IH as [IH1 IH2].
    split; f_equal; assumption.
Qed.

Lemma assoc_not_in {A : Type} (key : string) (table : list (string * A)) :
  ~ In key (map fst table) -> assoc key table = None.
Proof.
  induction table as [ | [k a] table IH]; intros Hnot; cbn [assoc].
  - reflexivity.
  - destruct (String.eqb_spec k key) as [-> | Hne].
    + exfalso. apply Hnot. left. reflexivity.
    + apply IH. intros Hin. apply Hnot. right. exact Hin.
Qed.

(** Commands that arrive whole are answered one by one, and the loop goes
    on with what comes next on the server they left. *)
Lemma arrivals_answered (arrivals : list arrival) :
  Forall arrives arrivals ->
  forall rest srv,
    handle_loop (map (fun a => fst (fst a)) arrivals ++ rest) [] srv
    = let '(events, srv', how) := handle_loop rest [] (snd (answered srv arrivals)) in
      (fst (answered srv arrivals) ++ events, srv', how).
Proof.
  induction 1 as [ | [[t data] command] arrivals [Ht [text Hdec]] Hrest IH]; intros rest srv.
  - cbn [map answered fst snd]. rewrite !app_nil_l.
    destruct (handle_loop rest [] srv) as [[events srv'] how]. reflexivity.
  - cbn [map fst answered].
    change ((t :: map (fun a => fst (fst a)) arrivals) ++ rest)
      with (t :: (map (fun a => fst (fst a)) arrivals ++ rest)).
    rewrite (handle_loop_step t _ [] srv _ Ht), app_nil_l, Hdec.
    destruct (execute_command srv command) as [response srv1].
    rewrite IH.
    destruct (answered srv1 arrivals) as [events1 srv2]. cbn [fst snd].
    destruct (handle_loop rest [] srv2) as [[events srv'] how]. reflexivity.
Qed.

Lemma commands_of_answered (arrivals : list arrival) :
  forall srv, commands_of (fst (answered srv arrivals)) = map snd arrivals.
Proof.
  induction arrivals as [ | [[t data] command] arrivals IH]; intros srv; cbn [answered].
  - reflexivity.
  - destruct (execute_command srv command) as [response srv1].
    specialize (IH srv1). destruct (answered srv1 arrivals) as [events srv'].
    cbn [fst snd commands_of map] in *. rewrite IH. reflexivity.
Qed.

Lemma length_responses (commands : list value) :
  forall srv, length (responses srv commands) = length commands.
Proof.
  induction commands as [ | c commands IH]; intros srv; cbn [responses length].
  - reflexivity.
  - destruct (execute_command srv c) as [response srv1]. cbn [length].
    rewrite IH. reflexivity.
Qed.

(** C1.  On a connection whose writes go through, the trace of the handler
    is made of reads and of exchanges only: every decoded command is
    followed at once, before the next read, by the delivery of its own
    response.  Hence what is written on the socket is the list of the
    responses of the decoded commands, in their order, one for each.
    And the commands that are received are the ones decoded: when the
    script is a sequence of commands, each arriving whole, the commands
    decoded are these commands, in their order, what is written is the
    list of their responses, one for each, each computed on the server
    as the commands before it left it, and the handler then waits for
    more with the socket open. *)
Theorem one_response_per_command (script : list turn) (srv : server) :
  healthy script ->
  exchanges srv (fst (fst (handle_client script srv)))
  /\ written (fst (fst (handle_client script srv)))
     = map encode (responses srv (commands_of (fst (fst (handle_client script srv)))))
  /\ length (written (fst (fst (handle_client script srv))))
     = length (commands_of (fst (fst (handle_client script srv))))
  /\ (forall arrivals,
         Forall arrives arrivals ->
         script = map (fun a => fst (fst a)) arrivals ->
         commands_of (fst (fst (handle_client script srv))) = map snd arrivals
         /\ written (fst (fst (handle_client script srv)))
            = map encode (responses srv (map snd arrivals))
         /\ length (written (fst (fst (handle_client script srv)))) = length arrivals
         /\ handle_client script srv
            = (fst (answered srv arrivals), snd (answered srv arrivals), Blocked [])).
Proof.
  intros Hhealthy.
  assert (Hx : exchanges srv (fst (fst (handle_client script srv)))).
  { rewrite handle_client_closing.
    destruct (handle_loop_exchanges script Hhealthy [] srv) as [Hopen Hclosed].
    destruct (handle_loop script [] srv) as [[events srv'] how].
    cbn [fst] in *.
    destruct how; cbn [closing]; rewrite ?app_nil_r; assumption. }
  destruct (exchanges_written _ _ Hx) as [Hw _].
  split; [ exact Hx | ]. split; [ exact Hw | ].
  split; [ rewrite Hw, length_map; apply length_responses | ].
  intros arrivals Harrives Hscript.
  assert (Hclient : handle_client script srv
                    = (fst (answered srv arrivals), snd (answered srv arrivals), Blocked [])).
  { rewrite handle_client_closing. subst script.
    pose proof (arrivals_answered arrivals Harrives [] srv) as Hloop.
    rewrite app_nil_r in Hloop. cbn [handle_loop] in Hloop. rewrite Hloop.
    cbn [fst snd closing]. rewrite !app_nil_r. reflexivity. }
  assert (Hcommands : commands_of (fst (fst (handle_client script srv))) = map snd arrivals).
  { rewrite Hclient. cbn [fst]. apply commands_of_answered. }
  split; [ exact Hcommands | ]. split; [ rewrite Hw, Hcommands; reflexivity | ].
  split; [ | exact Hclient ].
  rewrite Hw, Hcommands, length_map, length_responses, length_map. reflexivity.
Qed.

(** The dispatcher on a command whose name is in no entry of the table. *)
Lemma execute_unknown (name : string) (members : dict) (srv : server) :
  ~ In name (map fst handlers) ->
  get "type" members = Some (JStr name) ->
  execute_command srv (JDict members)
  = (failure ("Unknown command type: " +++ name), refresh srv).
Proof.
  intros Hnot Htype.
  unfold execute_command, execute_command_try, command_get, get_default.
  rewrite Htype. cbn [handlers_get].
  rewrite (assoc_not_in _ _ Hnot). reflexivity.
Qed.

(** C2.  A command whose name is not in the dispatch table gets the error
    response naming it; the loop then goes on with the rest of the script
    on an empty buffer, the socket still open, and the next command that
    arrives is dispatched and answered as any other. *)
Theorem unknown_command_answered (name : string) (members : dict) (srv : server) :
  ~ In name (map fst handlers) ->
  get "type" members = Some (JStr name) ->
  execute_command srv (JDict members)
  = (failure ("Unknown command type: " +++ name), refresh srv)
  /\ (forall t rest buffer data text,
         delivers t data ->
         decode (buffer ++ data) = Parsed text (JDict members) ->
         handle_loop (t :: rest) buffer srv
         = let '(events, srv', how) := handle_loop rest [] (refresh srv) in
           (ERecv data :: ECommand (JDict members)
              :: ESend (encode (failure ("Unknown command type: " +++ name))) (send_ok t)
              :: events,
            srv', how))
  /\ (forall t rest buffer data text t' data' text' command',
         delivers t data ->
         decode (buffer ++ data) = Parsed text (JDict members) ->
         delivers t' data' ->
         decode data' = Parsed text' command' ->
         handle_loop (t :: t' :: rest) buffer srv
         = let '(response', srv1) := execute_command (refresh srv) command' in
           let '(events, srv', how) := handle_loop rest [] srv1 in
           (ERecv data :: ECommand (JDict members)
              :: ESend (encode (failure ("Unknown command type: " +++ name))) (send_ok t)
              :: ERecv data' :: ECommand command'
              :: ESend (encode response') (send_ok t')
              :: events,
            srv', how)).
Proof.
  intros Hnot Htype.
  pose proof (execute_unknown name members srv Hnot Htype) as Hexec.
  split; [ exact Hexec | ]. split.
  - intros t rest buffer data text Ht Hdec.
    rewrite (handle_loop_step t rest buffer srv _ Ht), Hdec, Hexec. reflexivity.
  - intros t rest buffer data text t' data' text' command' Ht Hdec Ht' Hdec'.
    rewrite (handle_loop_step t (t' :: rest) buffer srv _ Ht), Hdec, Hexec.
    rewrite (handle_loop_step t' rest [] (refresh srv) _ Ht').
    rewrite !app_nil_l, Hdec'.
    destruct (execute_command (refresh srv) command') as [response' srv1].
    destruct (handle_loop rest [] srv1) as [[events srv'] how]. reflexivity.
Qed.

(** The dispatcher on a registered handler that raises. *)
Lemma execute_raising (name : string) (members : dict) (h : handler)
    (srv srv1 : server) (e : exn) :
  get "type" members = Some (JStr name) ->
  assoc name handlers = Some h ->
  invoke h (get_default "params" (JDict []) members) (refresh srv) = (Raise e, srv1) ->
  execute_command_try srv (JDict members) = (Ok (failure (str_of_exn e)), srv1).
Proof.
  intros Htype Hassoc Hinvoke.
  unfold execute_command_try, command_get.
  unfold get_default at 1. rewrite Htype. cbn [handlers_get].
  rewrite Hassoc. fold (refresh srv). rewrite Hinvoke. reflexivity.
Qed.

(** C3.  When a registered handler raises, the inner [except] of the
    dispatcher turns the exception into the error response that carries
    its message: nothing reaches the outer [except], let alone the caller.
    The loop then goes on with the rest of the script, the socket still
    open, and the next command is dispatched and answered as any other. *)
Theorem handler_exception_answered (name : string) (members : dict) (h : handler)
    (srv srv1 : server) (e : exn) :
  get "type" members = Some (JStr name) ->
  assoc name handlers = Some h ->
  invoke h (get_default "params" (JDict []) members) (refresh srv) = (Raise e, srv1) ->
  execute_command_try srv (JDict members) = (Ok (failure (str_of_exn e)), srv1)
  /\ execute_command srv (JDict members) = (failure (str_of_exn e), srv1)
  /\ (forall t rest buffer data text,
         delivers t data ->
         decode (buffer ++ data) = Parsed text (JDict members) ->
         handle_loop (t :: rest) buffer srv
         = let '(events, srv', how) := handle_loop rest [] srv1 in
           (ERecv data :: ECommand (JDict members)
              :: ESend (encode (failure (str_of_exn e))) (send_ok t) :: events,
            srv', how))
  /\ (forall t rest buffer data text t' data' text' command',
         delivers t data ->
         decode (buffer ++ data) = Parsed text (JDict members) ->
         delivers t' data' ->
         decode data' = Parsed text' command' ->
         handle_loop (t :: t' :: rest) buffer srv
         = let '(response', srv2) := execute_command srv1 command' in
           let '(events, srv', how) := handle_loop rest [] srv2 in
           (ERecv data :: ECommand (JDict members)
              :: ESend (encode (failure (str_of_exn e))) (send_ok t)
              :: ERecv data' :: ECommand command'
              :: ESend (encode response') (send_ok t')
              :: events,
            srv', how)).
Proof.
  intros Htype Hassoc Hinvoke.
  pose proof (execute_raising name members h srv srv1 e Htype Hassoc Hinvoke) as Htry.
  assert (Hexec : execute_command srv (JDict members) = (failure (str_of_exn e), srv1)).
  { unfold execute_command. rewrite Htry. reflexivity. }
  split; [ exact Htry | ]. split; [ exact Hexec | ]. split.
  - intros t rest buffer data text Ht Hdec.
    rewrite (handle_loop_step t rest buffer srv _ Ht), Hdec, Hexec. reflexivity.
  - intros t rest buffer data text t' data' text' command' Ht Hdec Ht' Hdec'.
    rewrite (handle_loop_step t (t' :: rest) buffer srv _ Ht), Hdec, Hexec.
    rewrite (handle_loop_step t' rest [] srv1 _ Ht').
    rewrite !app_nil_l, Hdec'.
    destruct (execute_command srv1 command') as [response' srv2].
    destruct (handle_loop rest [] srv2) as [[events srv'] how]. reflexivity.
Qed.

(** Framing.  Each chunk received is appended to the buffer and the
    whole buffer is decoded.  When the buffer is text that is no JSON
    document, nothing is dispatched and the loop reads on with the buffer
    kept; when it is a JSON document, that document is the one command of
    this pass and the loop reads on with an empty buffer; when it is not
    UTF-8 text, the loop is left at once with the rest unread. *)
Theorem framing (t : turn) (rest : list turn) (buffer : bytes) (srv : server)
    (data : bytes) :
  delivers t data ->
  (forall text,
      decode (buffer ++ data) = NotJson text ->
      handle_loop (t :: rest) buffer srv
      = let '(events, srv', how) := handle_loop rest (buffer ++ data) srv in
        (ERecv data :: events, srv', how))
  /\ (forall text command,
         decode (buffer ++ data) = Parsed text command ->
         handle_loop (t :: rest) buffer srv
         = let '(response, srv1) := execute_command srv command in
           let '(events, srv', how) := handle_loop rest [] srv1 in
           (ERecv data :: ECommand command :: ESend (encode response) (send_ok t) :: events,
            srv', how))
  /\ (decode (buffer ++ data) = NotText ->
      handle_loop (t :: rest) buffer srv = ([ERecv data], srv, Undecodable (buffer ++ data))).
Proof.
  intros Ht. repeat split.
  - intros text Hdec. rewrite (handle_loop_step t rest buffer srv _ Ht), Hdec. reflexivity.
  - intros text command Hdec.
    rewrite (handle_loop_step t rest buffer srv _ Ht), Hdec. reflexivity.
  - intros Hdec. rewrite (handle_loop_step t rest buffer srv _ Ht), Hdec. reflexivity.
Qed.

(** A command that arrives in pieces is put together: while the bytes
    gathered so far are text but no document the loop only reads, and the
    chunk that completes the document triggers the one dispatch. *)
Lemma chunks_reassembled (ts : list turn) (datas : list bytes) :
  Forall2 delivers ts datas ->
  forall buffer srv t data rest text command,
    (forall k, k < length datas ->
               exists partial, decode (buffer ++ concat (firstn (S k) datas)) = NotJson partial) ->
    delivers t data ->
    decode (buffer ++ concat datas ++ data) = Parsed text command ->
    handle_loop (ts ++ t :: rest) buffer srv
    = let '(response, srv1) := execute_command srv command in
      let '(events, srv', how) := handle_loop rest [] srv1 in
      (map ERecv datas
         ++ ERecv data :: ECommand command :: ESend (encode response) (send_ok t) :: events,
       srv', how).
Proof.
  induction 1 as [ | t0 d0 ts datas Ht0 Hrest IH];
    intros buffer srv t data rest text command Hpartial Ht Hdec.
  - change ([] ++ t :: rest) with (t :: rest).
    change (concat [] ++ data) with data in Hdec.
    rewrite (handle_loop_step t rest buffer srv _ Ht), Hdec. reflexivity.
  - change ((t0 :: ts) ++ t :: rest) with (t0 :: (ts ++ t :: rest)).
    rewrite (handle_loop_step t0 (ts ++ t :: rest) buffer srv _ Ht0).
    destruct (Hpartial 0 ltac:(cbn; lia)) as [partial Hfirst].
    cbn [firstn concat] in Hfirst. rewrite app_nil_r in Hfirst. rewrite Hfirst.
    rewrite (IH (buffer ++ d0) srv t data rest text command).
    + destruct (execute_command srv command) as [response srv1].
      destruct (handle_loop rest [] srv1) as [[events srv'] how]. reflexivity.
    + intros k Hk. destruct (Hpartial (S k) ltac:(cbn; lia)) as [p Hp].
      exists p. rewrite <- Hp. cbn [firstn concat]. rewrite <- !app_assoc. reflexivity.
    + exact Ht.
    + rewrite <- Hdec. cbn [concat]. rewrite <- !app_assoc. reflexivity.
Qed.

(** Commands that arrive whole, one per read, are answered one by one;
    the handler then waits on an empty buffer. *)
Lemma whole_commands_answered (arrivals : list arrival) :
  Forall arrives arrivals ->
  forall srv,
    handle_loop (map (fun a => fst (fst a)) arrivals) [] srv
    = (fst (answered srv arrivals), snd (answered srv arrivals), Blocked []).
Proof.
  induction 1 as [ | [[t data] command] arrivals [Ht [text Hdec]] Hrest IH]; intros srv.
  - reflexivity.
  - cbn [map fst answered].
    rewrite (handle_loop_step t _ [] srv _ Ht), app_nil_l, Hdec.
    destruct (execute_command srv command) as [response srv1].
    rewrite IH.
    destruct (answered srv1 arrivals) as [events srv']. reflexivity.
Qed.

(** The ways out of the loop.  Once the loop has read a script and waits,
    a receive that returns no byte, or that raises, ends the loop with
    the rest unread and the client socket is closed.  A response whose
    write fails is dropped: the loop goes on with the rest of the script
    as it does after a write that went through. *)
Theorem leaving_the_loop (pre : list turn) (t : turn) (rest : list turn)
    (srv srv' : server) (events : list event) (buffer : bytes) :
  handle_loop pre [] srv = (events, srv', Blocked buffer) ->
  running t = true ->
  (recv t = Received [] ->
   handle_client (pre ++ t :: rest) srv = (events ++ [ERecv []; EClose], srv', PeerClosed))
  /\ (forall e,
         recv t = RecvRaised e ->
         handle_client (pre ++ t :: rest) srv
         = (events ++ [ERecvRaised e; EClose], srv', ReceiveFailed e))
  /\ (forall data text command,
         recv t = Received data -> data <> [] ->
         decode (buffer ++ data) = Parsed text command ->
         send_ok t = false ->
         handle_client (pre ++ t :: rest) srv
         = let '(response, srv1) := execute_command srv' command in
           let '(events2, srv2, how) := handle_loop rest [] srv1 in
           (events ++ ERecv data :: ECommand command :: ESend (encode response) false
              :: events2 ++ closing how,
            srv2, how)).
Proof.
  intros Hpre Hrun.
  pose proof (handle_loop_app pre (t :: rest) _ _ _ _ _ Hpre) as Happ.
  repeat split.
  - intros Hrecv. rewrite handle_client_closing, Happ.
    cbn [handle_loop]. rewrite Hrun, Hrecv. cbn [negb closing].
    rewrite <- app_assoc. reflexivity.
  - intros e Hrecv. rewrite handle_client_closing, Happ.
    cbn [handle_loop]. rewrite Hrun, Hrecv. cbn [negb closing].
    rewrite <- app_assoc. reflexivity.
  - intros data text command Hrecv Hdata Hdec Hsend.
    rewrite handle_client_closing, Happ.
    rewrite (handle_loop_step t rest buffer srv' data) by (repeat split; assumption).
    rewrite Hdec, Hsend.
    destruct (execute_command srv' command) as [response srv1].
    destruct (handle_loop rest [] srv1) as [[events2 srv2] how].
    rewrite <- app_assoc. reflexivity.
Qed.

(** C8.  [create_object] asked for an object type its map does not know
    returns the dictionary that carries the error, and the dispatcher
    wraps what the handler returned in the success envelope. *)
Theorem create_object_unknown_type (object_type : string) (name : value) (srv : server) :
  type_map (str_lower object_type) = None ->
  execute_command srv (create_object_command object_type name)
  = (success (JDict [("error", JStr ("Unknown object type: " +++ object_type))]),
     refresh srv).
Proof.
  intros Hmap.
  unfold execute_command, execute_command_try, create_object_command.
  cbn [command_get get_default get String.eqb Ascii.eqb Bool.eqb handlers_get handlers assoc].
  cbn [invoke create_object h_required h_optional h_body keys map fst app filter mem
         existsb negb String.eqb Ascii.eqb Bool.eqb orb].
  unfold create_object_body.
  cbn [get_default get String.eqb Ascii.eqb Bool.eqb].
  rewrite Hmap. reflexivity.
Qed.

End Loop.

End PluginFacts.

(** ** The plugin at work on the reference codec and host *)

Module PluginRuns.
Import Json Plugin PluginFacts Scenarios.

#[local] Existing Instance RefCodec.python.
#[local] Existing Instance RefHost.host.

Lemma two_arrive : Forall arrives MoreScenarios.two_arrivals.
Proof.
  constructor; [ | constructor; [ | constructor ] ].
  - split.
    + repeat split. intros Hnil. vm_compute in Hnil. discriminate Hnil.
    + eexists. vm_compute. reflexivity.
  - split.
    + repeat split. intros Hnil. vm_compute in Hnil. discriminate Hnil.
    + eexists. vm_compute. reflexivity.
Qed.

Lemma one_response_per_command_witness :
  exchanges RefHost.empty (fst (fst (handle_client two_commands RefHost.empty)))
  /\ commands_of (fst (fst (handle_client two_commands RefHost.empty)))
     = [Client.command_of "ping" None; create_object_command "bogus" (JStr "X")]
  /\ written (fst (fst (handle_client two_commands RefHost.empty)))
     = map encode
         (responses RefHost.empty
            [Client.command_of "ping" None; create_object_command "bogus" (JStr "X")])
  /\ length (written (fst (fst (handle_client two_commands RefHost.empty)))) = 2
  /\ snd (handle_client two_commands RefHost.empty) = Blocked [].
Proof.
  destruct (one_response_per_command two_commands RefHost.empty) as (Hx & _ & _ & Hall).
  { repeat constructor. }
  destruct (Hall MoreScenarios.two_arrivals two_arrive eq_refl)
    as (Hcommands & Hwritten & Hlength & Hclient).
  split; [ exact Hx | ]. split; [ exact Hcommands | ]. split; [ exact Hwritten | ].
  split; [ exact Hlength | ]. rewrite Hclient. reflexivity.
Defined.

(** The two commands, each answered before the next is read. *)
Example two_commands_trace :
  handle_client two_commands RefHost.empty
  = ([ERecv ping_bytes;
      ECommand (Client.command_of "ping" None);
      ESend (encode alive) true;
      ERecv bogus_bytes;
      ECommand (create_object_command "bogus" (JStr "X"));
      ESend (encode (success (JDict [("error", JStr "Unknown object type: bogus")]))) true],
     refresh RefHost.empty, Blocked []).
Proof. vm_compute. reflexivity. Qed.

Lemma frobnicate_not_registered : ~ In "frobnicate" (map fst handlers).
Proof.
  cbn [handlers map fst]. intros Hin.
  repeat (destruct Hin as [Hin | Hin]; [ discriminate Hin | ]).
  exact Hin.
Defined.

Lemma unknown_command_answered_witness :
  execute_command RefHost.empty (JDict frobnicate)
  = (failure "Unknown command type: frobnicate", refresh RefHost.empty).
Proof.
  exact (proj1 (unknown_command_answered "frobnicate" frobnicate RefHost.empty
                  frobnicate_not_registered eq_refl)).
Defined.

(** An unknown command, then a ping on the same connection. *)
Example unknown_then_ping_trace :
  handle_client [chunk (encode (JDict frobnicate)); chunk ping_bytes] RefHost.empty
  = ([ERecv (encode (JDict frobnicate));
      ECommand (JDict frobnicate);
      ESend (encode (failure "Unknown command type: frobnicate")) true;
      ERecv ping_bytes;
      ECommand (Client.command_of "ping" None);
      ESend (encode alive) true],
     refresh RefHost.empty, Blocked []).
Proof. vm_compute. reflexivity. Qed.

Lemma handler_exception_answered_witness :
  execute_command RefHost.empty (JDict ping_with_keyword)
  = (failure "Cinema4DMCPServer.ping() got an unexpected keyword argument 'x'", refresh RefHost.empty).
Proof.
  exact (proj1 (proj2
           (handler_exception_answered "ping" ping_with_keyword ping
              RefHost.empty (refresh RefHost.empty)
              (Exn TypeError "Cinema4DMCPServer.ping() got an unexpected keyword argument 'x'")
              eq_refl eq_refl eq_refl))).
Defined.

(** A ping that raises, then a ping that does not. *)
Example raising_then_ping_trace :
  handle_client [chunk (encode (JDict ping_with_keyword)); chunk ping_bytes] RefHost.empty
  = ([ERecv (encode (JDict ping_with_keyword));
      ECommand (JDict ping_with_keyword);
      ESend (encode (failure "Cinema4DMCPServer.ping() got an unexpected keyword argument 'x'")) true;
      ERecv ping_bytes;
      ECommand (Client.command_of "ping" None);
      ESend (encode alive) true],
     refresh RefHost.empty, Blocked []).
Proof. vm_compute. reflexivity. Qed.

Lemma ping_delivered : delivers (chunk ping_bytes) ping_bytes.
Proof.
  repeat split. intros Hnil. vm_compute in Hnil. discriminate Hnil.
Defined.

Lemma framing_witness :
  handle_loop [chunk ping_bytes] [] RefHost.empty
  = let '(response, srv1) :=
      execute_command RefHost.empty (Client.command_of "ping" None) in
    let '(events, srv', how) := handle_loop [] [] srv1 in
    (ERecv ping_bytes :: ECommand (Client.command_of "ping" None)
       :: ESend (encode response) (send_ok (chunk ping_bytes)) :: events,
     srv', how).
Proof.
  refine (proj1 (proj2 (framing (chunk ping_bytes) [] [] RefHost.empty ping_bytes
                          ping_delivered))
            (json_dumps (Client.command_of "ping" None))
            (Client.command_of "ping" None) _).
  vm_compute. reflexivity.
Defined.

(** Bytes that are not UTF-8 are not kept for a next read: on the byte
    [0xff] the loop is left, the socket closed, and the command that
    follows is never read. *)
Lemma undecodable_bytes_end_the_loop :
  decode [xff] = NotText
  /\ handle_client [chunk [xff]; chunk ping_bytes] RefHost.empty
     = ([ERecv [xff]; EClose], RefHost.empty, Undecodable [xff])
  /\ ~ reads_on_whenever_undecoded.
Proof.
  split; [ reflexivity | ]. split; [ vm_compute; reflexivity | ].
  intros Hall.
  specialize (Hall (chunk [xff]) [chunk ping_bytes] [] RefHost.empty [xff]).
  assert (Hd : delivers (chunk [xff]) [xff]) by (repeat split; discriminate).
  assert (Hn : forall text command, decode ([] ++ [xff]) <> Parsed text command)
    by (intros text command; vm_compute; discriminate).
  specialize (Hall Hd Hn).
  vm_compute in Hall. discriminate Hall.
Qed.

(** C4.  The handler at an input on which its framing breaks: the command
    for a cube named Caf\u00e9 is one JSON document, and sent in one chunk
    it is dispatched; sent in two chunks that cut the last letter in two,
    the first chunk is not UTF-8 on its own, the buffer is not kept for
    the next read, the loop is left and the socket closed, and the command
    is never dispatched. *)
Lemma split_character_ends_the_loop :
  decode cafe_bytes = Parsed cafe_text (create_object_command "cube" (JStr cafe))
  /\ cafe_head ++ cafe_tail = cafe_bytes
  /\ decode cafe_head = NotText
  /\ handle_client [chunk cafe_bytes] RefHost.empty
     = ([ERecv cafe_bytes;
         ECommand (create_object_command "cube" (JStr cafe));
         ESend (encode (success (JDict [("name", JStr cafe); ("type", JStr "cube");
                                        ("success", JBool true)]))) true],
        {| doc := Some tt; app := [(Ocube, JStr cafe)] |}, Blocked [])
  /\ handle_client [chunk cafe_head; chunk cafe_tail] RefHost.empty
     = ([ERecv cafe_head; EClose], RefHost.empty, Undecodable cafe_head).
Proof. repeat split; vm_compute; reflexivity. Qed.

(** Text that is no JSON document is kept, whatever it is: the loop waits
    for more. *)
Example malformed_text_is_kept :
  handle_client [chunk (RefCodec.encode_utf8 "}{"); chunk ping_bytes] RefHost.empty
  = ([ERecv (RefCodec.encode_utf8 "}{"); ERecv ping_bytes], RefHost.empty,
     Blocked (RefCodec.encode_utf8 "}{" ++ ping_bytes)).
Proof. vm_compute. reflexivity. Qed.

Lemma leaving_the_loop_witness :
  handle_client ([] ++ chunk_unanswered ping_bytes :: [chunk ping_bytes]) RefHost.empty
  = let '(response, srv1) :=
      execute_command RefHost.empty (Client.command_of "ping" None) in
    let '(events2, srv2, how) := handle_loop [chunk ping_bytes] [] srv1 in
    ([] ++ ERecv ping_bytes :: ECommand (Client.command_of "ping" None)
        :: ESend (encode response) false :: events2 ++ closing how,
     srv2, how).
Proof.
  refine (proj2 (proj2 (leaving_the_loop [] (chunk_unanswered ping_bytes) [chunk ping_bytes]
                          RefHost.empty RefHost.empty [] [] eq_refl eq_refl))
            ping_bytes _ (Client.command_of "ping" None) eq_refl _ _ eq_refl).
  - intros Hnil. vm_compute in Hnil. discriminate Hnil.
  - vm_compute. reflexivity.
Defined.

(** C7.  The handler at a write that fails: [sendall] stands in its own
    [try] whose [except] only prints, and nothing leaves the loop there.
    The response to the first ping is lost, and the handler reads the
    second ping, answers it, and waits for more with the socket open: it
    does read on after a write that failed. *)
Lemma failed_send_keeps_reading :
  handle_client [chunk_unanswered ping_bytes; chunk ping_bytes] RefHost.empty
  = ([ERecv ping_bytes;
      ECommand (Client.command_of "ping" None);
      ESend (encode alive) false;
      ERecv ping_bytes;
      ECommand (Client.command_of "ping" None);
      ESend (encode alive) true],
     refresh RefHost.empty, Blocked [])
  /\ ~ never_reads_after_failed_send.
Proof.
  split; [ vm_compute; reflexivity | ].
  intros Hall.
  specialize (Hall [chunk_unanswered ping_bytes; chunk ping_bytes] RefHost.empty).
  vm_compute in Hall. discriminate Hall.
Qed.

Lemma create_object_unknown_type_witness :
  execute_command RefHost.empty (create_object_command "bogus" (JStr "X"))
  = (success (JDict [("error", JStr "Unknown object type: bogus")]), refresh RefHost.empty).
Proof.
  exact (create_object_unknown_type "bogus" (JStr "X") RefHost.empty eq_refl).
Defined.

(** The scenario on the wire: the bytes of the command in, the bytes of
    the response out, and nothing inserted in the scene. *)
Example bogus_object_trace :
  handle_client [chunk bogus_bytes] RefHost.empty
  = ([ERecv bogus_bytes;
      ECommand (create_object_command "bogus" (JStr "X"));
      ESend (encode (success (JDict [("error", JStr "Unknown object type: bogus")]))) true],
     refresh RefHost.empty, Blocked [])
  /\ decode (encode (success (JDict [("error", JStr "Unknown object type: bogus")])))
     = Parsed (json_dumps (success (JDict [("error", JStr "Unknown object type: bogus")])))
         (JDict [("status", JStr "success");
                 ("result", JDict [("error", JStr "Unknown object type: bogus")])]).
Proof. split; vm_compute; reflexivity. Qed.

(** A known type, for comparison: the object is inserted. *)
Example cube_object_run :
  execute_command RefHost.empty (create_object_command "Cube" (JStr "X"))
  = (success (JDict [("name", JStr "X"); ("type", JStr "Cube"); ("success", JBool true)]),
     {| doc := Some tt; app := [(Ocube, JStr "X")] |}).
Proof. reflexivity. Qed.

End PluginRuns.

(** ** The connection of the client *)

Module ClientFacts.
Import Json Client.

Section Receive.
Context `{Python}.

Lemma receive_loop_returns (answers : list recv_answer) :
  forall chunks data rest tried,
    receive_loop answers chunks = (Return data, rest, tried) ->
    exists text v, decode data = Parsed text v.
Proof.
  induction answers as [ | a answers IH]; intros chunks data rest tried Hloop;
    cbn [receive_loop] in Hloop; cbv zeta in Hloop.
  - discriminate.
  - destruct a as [chunk | e].
    + destruct chunk as [ | b chunk].
      * destruct chunks; discriminate.
      * destruct (decode (concat (chunks ++ [b :: chunk]))) as [ | text | text v] eqn:Hdec.
        -- discriminate.
        -- destruct (receive_loop answers (chunks ++ [b :: chunk])) as [[how rest'] tried']
             eqn:Hrec.
           injection Hloop as -> <- <-.
           exact (IH _ _ _ _ Hrec).
        -- injection Hloop as <- <- <-. exists text, v. exact Hdec.
    + destruct e; discriminate.
Qed.

Lemma receive_loop_propagates (answers : list recv_answer) :
  forall chunks e rest tried,
    receive_loop answers chunks = (Propagate e, rest, tried) ->
    exn_cls e <> JSONDecodeError.
Proof.
  induction answers as [ | a answers IH]; intros chunks e rest tried Hloop;
    cbn [receive_loop] in Hloop; cbv zeta in Hloop.
  - discriminate.
  - destruct a as [chunk | err].
    + destruct chunk as [ | b chunk].
      * destruct chunks; [ | discriminate ].
        injection Hloop as <- <- <-. discriminate.
      * destruct (decode (concat (chunks ++ [b :: chunk]))) as [ | text | text v] eqn:Hdec.
        -- injection Hloop as <- <- <-. discriminate.
        -- destruct (receive_loop answers (chunks ++ [b :: chunk])) as [[how rest'] tried']
             eqn:Hrec.
           injection Hloop as -> <- <-.
           exact (IH _ _ _ _ Hrec).
        -- discriminate.
    + destruct err; [ discriminate | | ]; injection Hloop as <- <- <-; discriminate.
Qed.

Lemma receive_finish_returns (chunks : list bytes) (data : bytes) (tried : list bytes) :
  receive_finish chunks = (Ok data, tried) ->
  exists text v, decode data = Parsed text v.
Proof.
  unfold receive_finish. destruct chunks as [ | c chunks]; [ discriminate | ].
  destruct (decode (concat (c :: chunks))) as [ | text | text v] eqn:Hdec;
    [ discriminate | discriminate | ].
  intros Hok. injection Hok as <- <-. exists text, v. exact Hdec.
Qed.

Lemma receive_finish_raises (chunks : list bytes) (e : exn) (tried : list bytes) :
  receive_finish chunks = (Raise e, tried) -> exn_cls e <> JSONDecodeError.
Proof.
  unfold receive_finish. destruct chunks as [ | c chunks].
  - intros Hr. injection Hr as <- <-. discriminate.
  - destruct (decode (concat (c :: chunks))) as [ | text | text v];
      intros Hr; try discriminate Hr; injection Hr as <- <-; discriminate.
Qed.

Lemma receive_full_response_returns (answers : list recv_answer) (data : bytes)
    (rest : list recv_answer) (tried : list bytes) :
  receive_full_response answers = (Ok data, rest, tried) ->
  exists text v, decode data = Parsed text v.
Proof.
  unfold receive_full_response.
  destruct (receive_loop answers []) as [[how rest'] tried'] eqn:Hloop.
  destruct how as [d | chunks | e].
  - intros Hok. injection Hok as <- <- <-. exact (receive_loop_returns _ _ _ _ _ Hloop).
  - destruct (receive_finish chunks) as [r last] eqn:Hfin.
    intros Hok. injection Hok as -> <- <-. exact (receive_finish_returns _ _ _ Hfin).
  - discriminate.
Qed.

Lemma receive_full_response_raises (answers : list recv_answer) (e : exn)
    (rest : list recv_answer) (tried : list bytes) :
  receive_full_response answers = (Raise e, rest, tried) ->
  exn_cls e <> JSONDecodeError.
Proof.
  unfold receive_full_response.
  destruct (receive_loop answers []) as [[how rest'] tried'] eqn:Hloop.
  destruct how as [d | chunks | e'].
  - discriminate.
  - destruct (receive_finish chunks) as [r last] eqn:Hfin.
    intros Hr. injection Hr as -> <- <-. exact (receive_finish_raises _ _ _ Hfin).
  - intros Hr. injection Hr as <- <- <-. exact (receive_loop_propagates _ _ _ _ _ Hloop).
Qed.

(** Bytes that parse are never an invalid response. *)
Lemma interpret_raises (data : bytes) (text : string) (v : value) (e : exn) :
  decode data = Parsed text v ->
  interpret data = Raise e -> exn_cls e <> JSONDecodeError.
Proof.
  intros Hdec. unfold interpret. rewrite Hdec.
  unfold response_get, raise_fault.
  destruct v; try (intros Hr; injection Hr as <-; discriminate).
  destruct (value_is_error (get_default "status" JNull members)).
  - intros Hr; injection Hr as <-; discriminate.
  - discriminate.
Qed.

Lemma send_command_try_raises (s : socket) (command_type : string) (params : option dict)
    (w w' : net) (e : exn) :
  send_command_try s command_type params w = (Raise e, w') ->
  exn_cls e <> JSONDecodeError.
Proof.
  unfold send_command_try.
  destruct (match sends w with [] => (Accepted, []) | a :: rest => (a, rest) end)
    as [answer later].
  destruct answer as [ | err].
  - destruct (receive_full_response (recvs w)) as [[received unread] tried] eqn:Hrecv.
    destruct received as [data | e'].
    + intros Hr. injection Hr as Hint _.
      destruct (receive_full_response_returns _ _ _ _ Hrecv) as (text & v & Hdec).
      exact (interpret_raises _ _ _ _ Hdec Hint).
    + intros Hr. injection Hr as <- _.
      exact (receive_full_response_raises _ _ _ _ Hrecv).
  - intros Hr. injection Hr as <- _. destruct err; discriminate.
Qed.

(** While what was gathered is text but no document, the loop reads the
    next chunk; it tries one decode per chunk. *)
Lemma receive_loop_chunks (datas : list bytes) :
  forall chunks more,
    Forall (fun d => d <> []) datas ->
    Forall (fun b => exists partial, decode b = NotJson partial) (accumulations chunks datas) ->
    receive_loop (map Chunk datas ++ more) chunks
    = let '(how, rest, tried) := receive_loop more (chunks ++ datas) in
      (how, rest, accumulations chunks datas ++ tried).
Proof.
  induction datas as [ | d datas IH]; intros chunks more Hne Hacc.
  - cbn [map accumulations]. rewrite app_nil_r.
    change ([] ++ more) with more.
    destruct (receive_loop more chunks) as [[how rest] tried]. reflexivity.
  - inversion Hne as [ | d' datas' Hd Hrest]; subst.
    cbn [accumulations] in Hacc.
    inversion Hacc as [ | b bs [partial Hpartial] Hothers]; subst.
    change (map Chunk (d :: datas) ++ more) with (Chunk d :: (map Chunk datas ++ more)).
    cbn [receive_loop].
    destruct d as [ | b d]; [ congruence | ]. cbv zeta.
    rewrite Hpartial.
    rewrite (IH (chunks ++ [b :: d]) more Hrest Hothers).
    rewrite <- app_assoc. cbn [app].
    destruct (receive_loop more (chunks ++ (b :: d) :: datas)) as [[how rest] tried].
    reflexivity.
Qed.

Lemma accumulations_last (datas : list bytes) :
  forall chunks,
    datas <> [] ->
    exists before, accumulations chunks datas = before ++ [concat (chunks ++ datas)].
Proof.
  induction datas as [ | d datas IH]; intros chunks Hne; [ congruence | ].
  destruct datas as [ | d' datas].
  - exists []. reflexivity.
  - destruct (IH (chunks ++ [d]) ltac:(discriminate)) as [before Hbefore].
    exists (concat (chunks ++ [d]) :: before).
    cbn [accumulations] in *. rewrite Hbefore.
    rewrite <- app_assoc. reflexivity.
Qed.

Lemma send_command_connected (c : Cinema4DConnection) (s : socket) (command_type : string)
    (params : option dict) (w : net) :
  sock c = Some s ->
  send_command c command_type params w
  = match send_command_try s command_type params w with
    | (Ok result, w') => (Ok result, c, w')
    | (Raise e, w') =>
        match except_clause e with
        | TimeoutClause =>
            (Raise (Exn PlainException
                      "Timeout waiting for Cinema 4D response - operation may be too complex"),
             with_sock c None, w')
        | ConnectionClause =>
            (Raise (Exn PlainException ("Connection to Cinema 4D lost: " +++ str_of_exn e)),
             with_sock c None, w')
        | DecodeClause =>
            (Raise (Exn PlainException ("Invalid response from Cinema 4D: " +++ str_of_exn e)),
             c, w')
        | GenericClause =>
            (Raise (Exn PlainException ("Communication error with Cinema 4D: " +++ str_of_exn e)),
             with_sock c None, w')
        end
    end.
Proof.
  intros Hsock. unfold send_command. rewrite Hsock. rewrite Hsock. reflexivity.
Qed.

Lemma send_command_try_accepted (s : socket) (command_type : string)
    (params : option dict) (w : net) :
  accepts w ->
  send_command_try s command_type params w
  = let '(received, unread, tried) := receive_full_response (recvs w) in
    let w' := after_exchange w s (encode (command_of command_type params)) unread tried in
    match received with
    | Raise e => (Raise e, w')
    | Ok response_data => (interpret response_data, record [Decoding response_data] w')
    end.
Proof.
  unfold accepts, send_command_try, after_exchange.
  destruct (sends w) as [ | a later]; cbn [hd tl].
  - intros _. reflexivity.
  - intros ->. reflexivity.
Qed.

(** C5.  A timeout of [recv] leaves the loop of [receive_full_response]
    without a decode of its own; with chunks gathered, the statements after
    the loop decode their concatenation once, return it when it is a
    document and raise the incomplete-response error when it is not.  From
    a fresh call: after chunks none of which completed a document the
    timeout ends in that error, with one decode per chunk and one last
    decode; a timeout before any byte ends in the no-data error, which
    [send_command] wraps after clearing the socket of the connection, so
    that the next call connects again. *)
Theorem timeout_during_receive (datas : list bytes) (rest : list recv_answer) :
  Forall (fun d => d <> []) datas ->
  Forall (fun b => exists partial, decode b = NotJson partial) (accumulations [] datas) ->
  (forall chunks,
      chunks <> [] ->
      receive_loop (RecvFails TimedOut :: rest) chunks = (Break chunks, rest, [])
      /\ receive_finish chunks
         = (match decode (concat chunks) with
            | Parsed _ _ => Ok (concat chunks)
            | NotJson _ => Raise incomplete
            | NotText => Raise (Exn UnicodeDecodeError (decode_error_text (concat chunks)))
            end, [concat chunks]))
  /\ (datas <> [] ->
      receive_full_response (map Chunk datas ++ RecvFails TimedOut :: rest)
      = (Raise incomplete, rest, accumulations [] datas ++ [concat datas]))
  /\ receive_full_response (RecvFails TimedOut :: rest) = (Raise no_data, rest, [])
  /\ (forall c s command_type params w,
         sock c = Some s -> accepts w -> recvs w = RecvFails TimedOut :: rest ->
         send_command c command_type params w
         = (Raise (Exn PlainException "Communication error with Cinema 4D: No data received"),
            with_sock c None,
            after_exchange w s (encode (command_of command_type params)) rest []))
  /\ (forall c command_type params w more,
         connects w = true :: more ->
         send_command (with_sock c None) command_type params w
         = send_command (with_sock c (Some (next_socket w))) command_type params
             (after_connect w)).
Proof.
  intros Hne Hacc. split; [ | split; [ | split; [ | split ] ] ].
  - intros chunks Hchunks. split; [ reflexivity | ].
    unfold receive_finish. destruct chunks as [ | c chunks]; [ congruence | ].
    destruct (decode (concat (c :: chunks))); reflexivity.
  - intros Hdatas. unfold receive_full_response.
    rewrite (receive_loop_chunks datas [] (RecvFails TimedOut :: rest) Hne Hacc).
    cbn [receive_loop app]. rewrite app_nil_r.
    destruct (accumulations_last datas [] Hdatas) as [before Hlast].
    rewrite Hlast in Hacc. apply Forall_app in Hacc. destruct Hacc as [_ Hfinal].
    inversion Hfinal as [ | b bs [partial Hpartial] _]; subst.
    cbn [app] in Hpartial.
    unfold receive_finish. destruct datas as [ | d datas]; [ congruence | ].
    rewrite Hpartial. reflexivity.
  - reflexivity.
  - intros c s command_type params w Hsock Haccepts Hrecvs.
    rewrite (send_command_connected c s _ _ _ Hsock).
    rewrite (send_command_try_accepted s _ _ _ Haccepts), Hrecvs.
    reflexivity.
  - intros c command_type params w more Hconnects.
    unfold send_command at 1. cbn [with_sock sock connect].
    rewrite Hconnects. cbn [with_sock sock host port timeout].
    unfold send_command, after_connect. cbn [with_sock sock host port timeout].
    rewrite Hconnects. reflexivity.
Qed.

(** C10.  Whatever [receive_full_response] returns parses as one JSON
    document; hence no exception of the [try] block of [send_command] is a
    [json.JSONDecodeError], and the error of that clause is never raised. *)
Theorem returned_bytes_parse :
  (forall answers data rest tried,
      receive_full_response answers = (Ok data, rest, tried) ->
      exists text v, decode data = Parsed text v)
  /\ (forall s command_type params w e w',
         send_command_try s command_type params w = (Raise e, w') ->
         except_clause e <> DecodeClause)
  /\ (forall c command_type params w text,
         fst (fst (send_command c command_type params w))
         <> Raise (Exn PlainException ("Invalid response from Cinema 4D: " +++ text))).
Proof.
  split; [ exact receive_full_response_returns | ].
  assert (Hclause : forall s command_type params w e w',
             send_command_try s command_type params w = (Raise e, w') ->
             except_clause e <> DecodeClause).
  { intros s command_type params w e w' Htry Hc.
    apply (send_command_try_raises _ _ _ _ _ _ Htry).
    unfold except_clause in Hc. destruct (exn_cls e); try discriminate Hc. reflexivity. }
  split; [ exact Hclause | ].
  intros c command_type params w text.
  unfold send_command.
  destruct (match sock c with Some _ => (true, c, w) | None => connect c w end)
    as [[connected c1] w1].
  destruct connected; [ | cbn; discriminate ].
  destruct (sock c1) as [s | ]; [ | cbn; discriminate ].
  destruct (send_command_try s command_type params w1) as [[result | e] w'] eqn:Htry.
  - cbn. discriminate.
  - pose proof (Hclause _ _ _ _ _ _ Htry) as Hnot.
    destruct (except_clause e); cbn [fst]; try congruence;
      intros Heq; injection Heq as Heq; cbn in Heq; discriminate Heq.
Qed.

Lemma send_command_ok_sock (c : Cinema4DConnection) (command_type : string)
    (params : option dict) (w : net) (r : value) (c' : Cinema4DConnection) (w' : net) :
  send_command c command_type params w = (Ok r, c', w') -> sock c' <> None.
Proof.
  unfold send_command.
  destruct (match sock c with Some _ => (true, c, w) | None => connect c w end)
    as [[connected c1] w1].
  destruct connected; [ | discriminate ].
  destruct (sock c1) as [s | ] eqn:Hsock; [ | discriminate ].
  destruct (send_command_try s command_type params w1) as [[result | e] w2].
  - intros Hok. injection Hok as _ <- _. rewrite Hsock. discriminate.
  - destruct (except_clause e); discriminate.
Qed.

Lemma create_connection_post (w : net) :
  match create_connection w with
  | (Ok c, now_cached, _) => now_cached = Some c /\ sock c <> None
  | (Raise e, now_cached, _) => now_cached = None /\ e = could_not_connect
  end.
Proof.
  unfold create_connection, connect, new_connection. cbn [sock].
  destruct (connects w) as [ | [ | ] more]; cbn [with_sock sock].
  - split; reflexivity.
  - split; [ reflexivity | discriminate ].
  - split; reflexivity.
Qed.

(** The acquisition, case by case.  With a connection cached,
    [get_cinema4d_connection] sends it a ping: when the ping is answered that connection is returned and stays
    cached; when the ping raises, [disconnect] is run on it, which leaves
    it without a socket, and the function goes on as with nothing cached.
    Whatever made the ping raise, a host that accepts the connect gets the
    caller a connection on a fresh socket.
    With nothing cached a new connection is created and connected: it is
    cached and returned when the connect succeeds; when it fails the
    function raises its error and nothing stays cached.  Whatever the
    case, a returned connection holds a socket and is the cached one.  In
    particular, when the host closed the socket of the cached connection
    and listens again, the acquisition returns a connection on a fresh
    socket. *)
Theorem acquire_connection (cached : option Cinema4DConnection) (w : net) :
  (forall c r c' w',
      cached = Some c ->
      send_command c "ping" None w = (Ok r, c', w') ->
      get_cinema4d_connection cached w = (Ok c', Some c', w'))
  /\ (forall c e c' w',
         cached = Some c ->
         send_command c "ping" None w = (Raise e, c', w') ->
         sock (fst (disconnect c' w')) = None
         /\ get_cinema4d_connection cached w = create_connection (snd (disconnect c' w')))
  /\ (forall c e c' w' more,
         cached = Some c ->
         send_command c "ping" None w = (Raise e, c', w') ->
         connects w' = true :: more ->
         get_cinema4d_connection cached w
         = (Ok (with_sock new_connection (Some (next_socket w'))),
            Some (with_sock new_connection (Some (next_socket w'))),
            after_connect (snd (disconnect c' w'))))
  /\ (cached = None -> get_cinema4d_connection cached w = create_connection w)
  /\ (forall w0 more,
         connects w0 = true :: more ->
         create_connection w0
         = (Ok (with_sock new_connection (Some (next_socket w0))),
            Some (with_sock new_connection (Some (next_socket w0))),
            after_connect w0))
  /\ (forall w0,
         hd false (connects w0) = false ->
         fst (create_connection w0) = (Raise could_not_connect, None))
  /\ match get_cinema4d_connection cached w with
     | (Ok c, now_cached, _) => now_cached = Some c /\ sock c <> None
     | (Raise e, now_cached, _) => now_cached = None /\ e = could_not_connect
     end
  /\ (forall c s rest more,
         cached = Some c -> sock c = Some s ->
         accepts w -> recvs w = Chunk [] :: rest -> connects w = true :: more ->
         get_cinema4d_connection cached w
         = (Ok (with_sock new_connection (Some (next_socket w))),
            Some (with_sock new_connection (Some (next_socket w))),
            after_connect (after_exchange w s (encode (command_of "ping" None)) rest []))).
Proof.
  split; [ | split; [ | split; [ | split; [ | split; [ | split; [ | split ] ] ] ] ] ].
  - intros c r c' w' -> Hping. cbn [get_cinema4d_connection]. rewrite Hping. reflexivity.
  - intros c e c' w' -> Hping. split.
    + unfold disconnect. destruct (sock c') eqn:Hsock; cbn [fst with_sock sock]; auto.
    + cbn [get_cinema4d_connection]. rewrite Hping.
      destruct (disconnect c' w') as [c'' w'']. reflexivity.
  - intros c e c' w' more -> Hping Hconnects.
    cbn [get_cinema4d_connection]. rewrite Hping.
    unfold disconnect.
    destruct (sock c'); cbn [snd];
      unfold create_connection, connect, new_connection, after_connect, record;
      cbn [sock connects next_socket]; rewrite Hconnects; reflexivity.
  - intros ->. reflexivity.
  - intros w0 more Hconnects.
    unfold create_connection, connect, new_connection, after_connect. cbn [sock].
    rewrite Hconnects. reflexivity.
  - intros w0 Hhd.
    unfold create_connection, connect, new_connection. cbn [sock].
    destruct (connects w0) as [ | [ | ] more]; cbn [hd] in Hhd;
      [ reflexivity | discriminate | reflexivity ].
  - destruct cached as [c | ]; cbn [get_cinema4d_connection].
    + destruct (send_command c "ping" None w) as [[[r | e] c'] w'] eqn:Hping.
      * split; [ reflexivity | ]. exact (send_command_ok_sock _ _ _ _ _ _ _ Hping).
      * destruct (disconnect c' w') as [c'' w'']. apply create_connection_post.
    + apply create_connection_post.
  - intros c s rest more -> Hsock Haccepts Hrecvs Hconnects.
    cbn [get_cinema4d_connection].
    rewrite (send_command_connected c s _ _ _ Hsock).
    rewrite (send_command_try_accepted s _ _ _ Haccepts), Hrecvs.
    cbn [receive_full_response receive_loop except_clause exn_cls].
    unfold disconnect. cbn [with_sock sock].
    unfold create_connection, connect, new_connection, after_connect, after_exchange.
    cbn [sock connects]. rewrite Hconnects. reflexivity.
Qed.

End Receive.

End ClientFacts.

(** ** The client at work on the reference codec *)

Module ClientRuns.
Import Json Client ClientFacts Scenarios.

#[local] Existing Instance RefCodec.python.

Lemma timeout_during_receive_witness :
  receive_full_response (map Chunk [alive_head] ++ RecvFails TimedOut :: [])
  = (Raise incomplete, [], accumulations [] [alive_head] ++ [concat [alive_head]]).
Proof.
  refine (proj1 (proj2 (timeout_during_receive [alive_head] [] _ _)) _).
  - constructor; [ | constructor ]. intros Hnil. vm_compute in Hnil. discriminate Hnil.
  - constructor; [ | constructor ].
    eexists. vm_compute. reflexivity.
  - discriminate.
Defined.

(** A response that arrives in two chunks is returned whole. *)
Example response_in_two_chunks :
  send_command held "ping" None (network [] [Chunk alive_head; Chunk alive_tail])
  = (Ok (JDict [("status", JStr "alive")]), held,
     {| connects := []; sends := []; recvs := []; next_socket := 1;
        journal := [Sent 0 (encode (command_of "ping" None));
                    Decoding alive_head;
                    Decoding (encode alive);
                    Decoding (encode alive)] |}).
Proof. vm_compute. reflexivity. Qed.

(** A timeout before any byte: the error is raised, the connection loses
    its socket, and the next call opens socket [1]. *)
Example timeout_then_reconnect :
  send_command held "ping" None (network [true] [RecvFails TimedOut; Chunk (encode alive)])
  = (Raise (Exn PlainException "Communication error with Cinema 4D: No data received"),
     with_sock held None,
     {| connects := [true]; sends := []; recvs := [Chunk (encode alive)]; next_socket := 1;
        journal := [Sent 0 (encode (command_of "ping" None))] |})
  /\ send_command (with_sock held None) "ping" None
       {| connects := [true]; sends := []; recvs := [Chunk (encode alive)]; next_socket := 1;
          journal := [Sent 0 (encode (command_of "ping" None))] |}
     = (Ok (JDict [("status", JStr "alive")]), with_sock held (Some 1),
        {| connects := []; sends := []; recvs := []; next_socket := 2;
           journal := [Sent 0 (encode (command_of "ping" None));
                       Opened 1;
                       Sent 1 (encode (command_of "ping" None));
                       Decoding (encode alive);
                       Decoding (encode alive)] |}).
Proof. split; vm_compute; reflexivity. Qed.

(** The host closed the socket of the cached connection and listens
    again: the acquisition pings, finds the socket closed, and returns a
    connection on socket [1]. *)
Example dropped_socket_reacquired :
  get_cinema4d_connection (Some held) (network [true] [Chunk []])
  = (Ok (with_sock new_connection (Some 1)),
     Some (with_sock new_connection (Some 1)),
     {| connects := []; sends := []; recvs := []; next_socket := 2;
        journal := [Sent 0 (encode (command_of "ping" None)); Opened 1] |}).
Proof. vm_compute. reflexivity. Qed.

Lemma acquire_connection_witness :
  get_cinema4d_connection (Some held) (network [true] [Chunk []])
  = (Ok (with_sock new_connection (Some 1)),
     Some (with_sock new_connection (Some 1)),
     after_connect
       (after_exchange (network [true] [Chunk []]) 0 (encode (command_of "ping" None)) [] [])).
Proof.
  destruct (acquire_connection (Some held) (network [true] [Chunk []]))
    as (_ & _ & _ & _ & _ & _ & _ & Hdropped).
  exact (Hdropped held 0 [] [] eq_refl eq_refl eq_refl eq_refl eq_refl).
Defined.

Lemma returned_bytes_parse_witness :
  exists text v, decode (encode alive) = Parsed text v.
Proof.
  refine (proj1 returned_bytes_parse [Chunk alive_head; Chunk alive_tail]
            (encode alive) [] [alive_head; encode alive] _).
  vm_compute. reflexivity.
Defined.

(** Nobody listens: the acquisition raises and nothing stays cached. *)
Example nothing_listens :
  get_cinema4d_connection (Some held) (network [false] [Chunk []])
  = (Raise could_not_connect, None,
     {| connects := []; sends := []; recvs := []; next_socket := 1;
        journal := [Sent 0 (encode (command_of "ping" None)); Refused] |}).
Proof. vm_compute. reflexivity. Qed.

(** An error response of the host is raised to the caller, and the
    connection loses its socket on the way. *)
Example error_response_raised :
  send_command held "nope" None
    (network [] [Chunk (encode (Plugin.failure "Unknown command type: nope"))])
  = (Raise (Exn PlainException
              "Communication error with Cinema 4D: Unknown command type: nope"),
     with_sock held None,
     {| connects := []; sends := []; recvs := []; next_socket := 1;
        journal := [Sent 0 (encode (command_of "nope" None));
                    Decoding (encode (Plugin.failure "Unknown command type: nope"));
                    Decoding (encode (Plugin.failure "Unknown command type: nope"))] |}).
Proof. vm_compute. reflexivity. Qed.

End ClientRuns.

(** * Further properties *)

(** ** The conversation store: files, limits, context *)

Module ChatStoreFacts.
Import Json Chat MoreScenarios.

Lemma from_dict_exported (now : string) (m : ChatMessage) :
  timestamp m <> "" -> from_dict now (message_doc_of m) = Ok m.
Proof.
  intros Hts. destruct m as [r c ts md]. cbn in *.
  unfold ChatMessage_init, str_or. cbn.
  destruct ts as [ | a ts]; [ congruence | reflexivity ].
Qed.

Lemma from_dicts_exported (now : string) (ms : list ChatMessage) :
  Forall (fun m => timestamp m <> "") ms ->
  from_dicts now (map message_doc_of ms) = Ok ms.
Proof.
  induction 1 as [ | m ms Hm Hms IH]; cbn [map from_dicts].
  - reflexivity.
  - rewrite (from_dict_exported now m Hm), IH. reflexivity.
Qed.

(** What was exported comes back on import: the messages, the context
    and the session id of the exporting manager replace those of the
    importing one, whose [max_history] stays. *)
Theorem export_import_round_trip (now : string) (cm other : ChatManager) :
  Forall (fun m => timestamp m <> "") (history cm) ->
  import_history now (export_history cm) other
  = (Ok tt,
     {| history := history cm;
        max_history := max_history other;
        context_data := context_data cm;
        session_id := session_id cm |}).
Proof.
  intros Hts. unfold import_history, export_history. cbn.
  rewrite (from_dicts_exported now (history cm) Hts). reflexivity.
Qed.

Lemma export_import_round_trip_witness :
  import_history "now" (export_history talk) (ChatManager_init "s" 5)
  = (Ok tt,
     {| history := history talk;
        max_history := 5;
        context_data := context_data talk;
        session_id := session_id talk |}).
Proof.
  apply (export_import_round_trip "now" talk (ChatManager_init "s" 5)).
  repeat constructor; discriminate.
Defined.

Lemma py_slice_from_drop {A : Type} (n : Z) (l : list A) :
  (0 <= n)%Z -> py_slice_from n l = skipn (Z.to_nat n) l.
Proof.
  intros Hn. unfold py_slice_from.
  destruct (Z.ltb_spec n 0) as [Hlt | _]; [ lia | ].
  destruct (Z.le_gt_cases n (Z.of_nat (length l))) as [Hle | Hgt].
  - f_equal. lia.
  - rewrite !skipn_all2 by lia. reflexivity.
Qed.

Lemma in_skipn {A : Type} (n : nat) (l : list A) (x : A) :
  In x (skipn n l) -> In x l.
Proof.
  intros Hin. rewrite <- (firstn_skipn n l). apply in_or_app. right. exact Hin.
Qed.

(** [get_messages] with a limit: a positive limit keeps the most recent
    messages of the role asked for, at most that many; a limit of zero is
    no limit; a negative limit drops that many of the oldest instead. *)
Theorem get_messages_limit (cm : ChatManager) (role_filter : option string) :
  (forall l,
      (0 < l)%Z ->
      get_messages cm (Some l) role_filter
      = lastn (Z.to_nat l) (get_messages cm None role_filter)
      /\ (Z.of_nat (length (get_messages cm (Some l) role_filter)) <= l)%Z)
  /\ get_messages cm (Some 0%Z) role_filter = get_messages cm None role_filter
  /\ (forall l,
         (l < 0)%Z ->
         get_messages cm (Some l) role_filter
         = skipn (Z.to_nat (- l)) (get_messages cm None role_filter))
  /\ (forall r limit,
         role_filter = Some r -> r <> "" ->
         Forall (fun m => role m = r) (get_messages cm limit role_filter))
  /\ (forall limit m, In m (get_messages cm limit role_filter) -> In m (history cm)).
Proof.
  set (all := get_messages cm None role_filter).
  assert (Hpos : forall l, (0 < l)%Z ->
                           get_messages cm (Some l) role_filter = lastn (Z.to_nat l) all).
  { intros l Hl. unfold all, get_messages.
    destruct (Z.eqb_spec l 0) as [-> | _]; [ lia | ].
    apply ChatFacts.py_slice_from_last. exact Hl. }
  assert (Hneg : forall l, (l < 0)%Z ->
                           get_messages cm (Some l) role_filter
                           = skipn (Z.to_nat (- l)) all).
  { intros l Hl. unfold all, get_messages.
    destruct (Z.eqb_spec l 0) as [-> | _]; [ lia | ].
    apply py_slice_from_drop. lia. }
  assert (Hsub : forall limit m, In m (get_messages cm limit role_filter) -> In m all).
  { intros [l | ] m Hin; [ | exact Hin ].
    destruct (Z.lt_trichotomy l 0) as [Hl | [-> | Hl]].
    - rewrite (Hneg l Hl) in Hin. exact (in_skipn _ _ _ Hin).
    - exact Hin.
    - rewrite (Hpos l Hl) in Hin. unfold lastn in Hin. exact (in_skipn _ _ _ Hin). }
  split; [ | split; [ | split; [ | split ] ] ].
  - intros l Hl. split; [ exact (Hpos l Hl) | ].
    rewrite (Hpos l Hl), ChatFacts.length_lastn. lia.
  - reflexivity.
  - exact Hneg.
  - intros r limit -> Hr. apply Forall_forall. intros m Hin.
    apply Hsub in Hin. unfold all, get_messages in Hin.
    destruct r as [ | a r]; [ congruence | ].
    apply filter_In in Hin. destruct Hin as [_ Heq].
    apply String.eqb_eq. exact Heq.
  - intros limit m Hin. apply Hsub in Hin. unfold all, get_messages in Hin.
    destruct role_filter as [[ | a r] | ]; try exact Hin.
    apply filter_In in Hin. exact (proj1 Hin).
Qed.

Example get_messages_limit_run :
  map content (get_messages talk (Some 1%Z) None)
  = ["There are currently 3 objects in the scene."]
  /\ map content (get_messages talk (Some 0%Z) (Some "user")) = ["how many objects?"]
  /\ map content (get_messages talk (Some (-1)%Z) None)
     = ["There are currently 3 objects in the scene."].
Proof. repeat split. Qed.

Lemma get_set_same (key : string) (v : value) (d : dict) :
  get key (set key v d) = Some v.
Proof.
  induction d as [ | [k w] d IH]; cbn [set get].
  - rewrite String.eqb_refl. reflexivity.
  - destruct (String.eqb_spec k key) as [-> | Hne]; cbn [get].
    + rewrite String.eqb_refl. reflexivity.
    + destruct (String.eqb_spec k key); [ congruence | exact IH ].
Qed.

Lemma get_set_other (key other : string) (v : value) (d : dict) :
  other <> key -> get other (set key v d) = get other d.
Proof.
  intros Hne.
  induction d as [ | [k w] d IH]; cbn [set get].
  - destruct (String.eqb_spec key other); [ congruence | reflexivity ].
  - destruct (String.eqb_spec k key) as [-> | Hk]; cbn [get].
    + destruct (String.eqb_spec key other); [ congruence | reflexivity ].
    + rewrite IH. reflexivity.
Qed.

(** The context is a dictionary: what [update_context] stored under a key
    is what [get_context] gives back for it, the other keys keep their
    values, and the messages are not touched.  A key that was never
    stored gives [None].  The empty key is no key: [get_context] answers
    it with the whole context, even after a value was stored under it. *)
Theorem context_lookup (cm : ChatManager) (key : string) (v : value) :
  (key <> "" -> get_context (update_context cm key v) (Some key) = v)
  /\ (forall other,
         other <> key -> other <> "" ->
         get_context (update_context cm key v) (Some other) = get_context cm (Some other))
  /\ history (update_context cm key v) = history cm
  /\ (key <> "" -> get key (context_data cm) = None -> get_context cm (Some key) = JNull)
  /\ get_context (update_context cm "" v) (Some "")
     = JDict (context_data (update_context cm "" v))
  /\ get_context (clear_context (update_context cm key v)) None = JDict [].
Proof.
  split; [ | split; [ | split; [ | split; [ | split ] ] ] ].
  - intros Hkey. destruct key as [ | a key]; [ congruence | ].
    cbn [get_context update_context with_context context_data]. unfold get_default.
    rewrite get_set_same. reflexivity.
  - intros other Hne Hother. destruct other as [ | a other]; [ congruence | ].
    cbn [get_context update_context with_context context_data]. unfold get_default.
    rewrite (get_set_other key (String a other) v _ Hne). reflexivity.
  - reflexivity.
  - intros Hkey Hnone. destruct key as [ | a key]; [ congruence | ].
    cbn [get_context]. unfold get_default. rewrite Hnone. reflexivity.
  - reflexivity.
  - reflexivity.
Qed.

Lemma add_message_unbounded (now : string) (cm : ChatManager) (r c : string)
    (md : option dict) :
  max_history cm = 0%Z ->
  history (snd (add_message now cm r c md))
  = history cm ++ [ChatMessage_init now r c None md].
Proof.
  intros Hzero. unfold add_message. cbn [snd with_history history]. rewrite Hzero.
  destruct (Z.ltb_spec 0 (Z.of_nat (length (history cm ++ [ChatMessage_init now r c None md]))))
    as [_ | _]; [ | reflexivity ].
  rewrite py_slice_from_drop by lia. reflexivity.
Qed.

Lemma add_message_forgets (now : string) (cm : ChatManager) (r c : string)
    (md : option dict) :
  (max_history cm < 0)%Z -> history cm = [] ->
  history (snd (add_message now cm r c md)) = [].
Proof.
  intros Hneg Hempty. unfold add_message. cbn [snd with_history history].
  rewrite Hempty. cbn [app length].
  destruct (Z.ltb_spec (max_history cm) (Z.of_nat 1)) as [_ | Hge]; [ | lia ].
  rewrite py_slice_from_drop by lia.
  apply skipn_all2. cbn [length]. lia.
Qed.

(** A bound that is not positive does not bound: with [max_history = 0]
    nothing is ever dropped, and with a negative [max_history] a manager
    that starts empty drops every message it is given. *)
Theorem history_without_positive_bound (calls : list call) :
  (forall cm,
      max_history cm = 0%Z ->
      history (add_messages cm calls) = history cm ++ map message_of calls)
  /\ (forall cm,
         (max_history cm < 0)%Z -> history cm = [] ->
         history (add_messages cm calls) = []).
Proof.
  split.
  - induction calls as [ | c calls IH]; intros cm Hzero; cbn [add_messages map].
    + rewrite app_nil_r. reflexivity.
    + rewrite IH by exact Hzero.
      rewrite (add_message_unbounded _ _ _ _ _ Hzero), <- app_assoc. reflexivity.
  - induction calls as [ | c calls IH]; intros cm Hneg Hempty; cbn [add_messages].
    + exact Hempty.
    + apply IH; [ exact Hneg | ].
      apply add_message_forgets; assumption.
Qed.

Lemma from_dicts_raises (now : string) (docs : list message_doc) :
  Exists (fun d => d_role d = None \/ d_content d = None) docs ->
  exists e, from_dicts now docs = Raise e /\ exn_cls e = KeyError.
Proof.
  induction docs as [ | d docs IH]; intros Hex.
  - inversion Hex.
  - cbn [from_dicts]. unfold from_dict.
    destruct (d_role d) as [r | ] eqn:Hr.
    + destruct (d_content d) as [c | ] eqn:Hc.
      * assert (Hrest : Exists (fun d => d_role d = None \/ d_content d = None) docs).
        { inversion Hex as [d' l [H | H] | d' l H]; subst; [ congruence | congruence | exact H ]. }
        destruct (IH Hrest) as (e & -> & He). exists e. split; [ reflexivity | exact He ].
      * eexists. split; reflexivity.
    + eexists. split; reflexivity.
Qed.

(** An import that fails is half done: when a message of the file lacks
    its role or its content, [import_history] raises [KeyError] with the
    messages and the context of the manager as they were, but with the
    session id of the file already in place. *)
Theorem failed_import_keeps_history (now : string) (data : history_doc)
    (docs : list message_doc) (cm : ChatManager) :
  f_messages data = Some docs ->
  Exists (fun d => d_role d = None \/ d_content d = None) docs ->
  exists e,
    fst (import_history now data cm) = Raise e
    /\ exn_cls e = KeyError
    /\ history (snd (import_history now data cm)) = history cm
    /\ context_data (snd (import_history now data cm)) = context_data cm
    /\ session_id (snd (import_history now data cm))
       = match f_session_id data with Some s => s | None => session_id cm end.
Proof.
  intros Hdocs Hex.
  destruct (from_dicts_raises now docs Hex) as (e & Hraise & He).
  exists e. unfold import_history. rewrite Hdocs, Hraise. cbn.
  repeat split; assumption.
Qed.

Lemma failed_import_keeps_history_witness :
  exists e,
    fst (import_history "now" broken_file talk) = Raise e
    /\ exn_cls e = KeyError
    /\ history (snd (import_history "now" broken_file talk)) = history talk
    /\ context_data (snd (import_history "now" broken_file talk)) = context_data talk
    /\ session_id (snd (import_history "now" broken_file talk)) = "20250505_050505".
Proof.
  refine (failed_import_keeps_history "now" broken_file _ talk eq_refl _).
  apply Exists_cons_tl. apply Exists_cons_hd. right. reflexivity.
Defined.

End ChatStoreFacts.

(** ** Starting and stopping the plugin's server *)

Module ListenerFacts.
Import Listener.

Lemma count_created_app (a b : list effect) :
  count_created (a ++ b) = count_created a + count_created b.
Proof. unfold count_created. rewrite filter_app, length_app. reflexivity. Qed.

Lemma count_closed_app (a b : list effect) :
  count_closed (a ++ b) = count_closed a + count_closed b.
Proof. unfold count_closed. rewrite filter_app, length_app. reflexivity. Qed.

Lemma stop_stopped (s : Cinema4DMCPServer) :
  stopped (fst (stop s))
  /\ count_created (snd (stop s)) + held s = count_closed (snd (stop s)).
Proof.
  split; [ repeat split | ].
  unfold stop, held. cbn [snd].
  destruct (socket s) as [ [] | ], (server_thread s) as [ [ | ] | ]; reflexivity.
Qed.

Lemma start_balanced (fault : option (step * string)) (s : Cinema4DMCPServer) :
  stopped s \/ listening s ->
  (stopped (fst (start fault s)) \/ listening (fst (start fault s)))
  /\ count_created (snd (start fault s)) + held s
     = count_closed (snd (start fault s)) + held (fst (start fault s)).
Proof.
  intros [(Hrun & Hsock & Hthread) | (Hrun & Hsock & Hthread)].
  - destruct s as [h p r so th]. cbn in Hrun, Hsock, Hthread. subst.
    destruct fault as [ [ [ | | | | ] text] | ]; cbn;
      (split; [ first [ left; repeat split; reflexivity | right; repeat split; reflexivity ]
              | reflexivity ]).
  - unfold start. rewrite Hrun. cbn [fst snd]. split.
    + right. repeat split; assumption.
    + reflexivity.
Qed.

(** No socket is lost: whatever calls of [start] and [stop] are made on a
    new server, and whichever of them fail, the server ends stopped and
    holding nothing, or listening on one socket with its thread started;
    every socket it created is closed but the one it listens on; and its
    host and port are the ones it was made with. *)
Theorem sockets_are_balanced (requests : list request) (h : string) (p : Z) :
  let s := fst (calls requests (init h p)) in
  let effects := snd (calls requests (init h p)) in
  (stopped s \/ listening s)
  /\ count_created effects = count_closed effects + held s
  /\ host s = h /\ port s = p.
Proof.
  cbv zeta.
  assert (Hall : forall s,
             stopped s \/ listening s ->
             (stopped (fst (calls requests s)) \/ listening (fst (calls requests s)))
             /\ count_created (snd (calls requests s)) + held s
                = count_closed (snd (calls requests s)) + held (fst (calls requests s))
             /\ host (fst (calls requests s)) = host s
             /\ port (fst (calls requests s)) = port s).
  { induction requests as [ | r rest IH]; intros s Hs.
    - cbn. split; [ exact Hs | split; [ lia | split; reflexivity ] ].
    - cbn [calls].
      assert (Hfirst :
                let one := match r with Start fault => start fault s | Stop => stop s end in
                (stopped (fst one) \/ listening (fst one))
                /\ count_created (snd one) + held s = count_closed (snd one) + held (fst one)
                /\ host (fst one) = host s /\ port (fst one) = port s).
      { cbv zeta. destruct r as [fault | ].
        - destruct (start_balanced fault s Hs) as (Hstate & Hcount).
          split; [ exact Hstate | split; [ exact Hcount | ] ].
          unfold start. destruct (running s); [ split; reflexivity | ].
          destruct fault as [ [ [ | | | | ] text] | ]; split; reflexivity.
        - destruct (stop_stopped s) as (Hstate & Hcount).
          split; [ left; exact Hstate | split; [ | split; reflexivity ] ].
          replace (held (fst (stop s))) with 0 by reflexivity. lia. }
      cbv zeta in Hfirst.
      destruct (match r with Start fault => start fault s | Stop => stop s end) as [s1 first].
      cbn [fst snd] in Hfirst. destruct Hfirst as (Hstate & Hcount & Hhost & Hport).
      specialize (IH s1 Hstate).
      destruct (calls rest s1) as [s2 others]. cbn [fst snd] in *.
      destruct IH as (Hstate2 & Hcount2 & Hhost2 & Hport2).
      rewrite count_created_app, count_closed_app.
      split; [ exact Hstate2 | split; [ lia | split; congruence ] ]. }
  destruct (Hall (init h p)) as (Hstate & Hcount & Hhost & Hport).
  { left. repeat split. }
  split; [ exact Hstate | split; [ | split; [ exact Hhost | exact Hport ] ] ].
  replace (held (init h p)) with 0 in Hcount by reflexivity. lia.
Qed.

Lemma failed_start_parts (s : Cinema4DMCPServer) (failing : step) (text : string) :
  stopped s ->
  fst (start (Some (failing, text)) s) = s
  /\ In (MessageDialog ("Failed to start server: " +++ text))
       (snd (start (Some (failing, text)) s)).
Proof.
  intros (Hrun & Hsock & Hthread).
  destruct s as [h p r so th]. cbn in Hrun, Hsock, Hthread. subst.
  destruct failing; cbn; repeat split; auto 10.
Qed.

(** A start that fails undoes itself: on a stopped server, whichever call
    of [start] raises, the server is afterwards what it was before, the
    failure was shown with the text of the exception, every socket that
    was created has been closed, and a later start that meets no failure
    makes the server listen. *)
Theorem failed_start_is_undone (s : Cinema4DMCPServer) (failing : step) (text : string) :
  stopped s ->
  fst (start (Some (failing, text)) s) = s
  /\ In (MessageDialog ("Failed to start server: " +++ text))
       (snd (start (Some (failing, text)) s))
  /\ count_created (snd (start (Some (failing, text)) s))
     = count_closed (snd (start (Some (failing, text)) s))
  /\ last (snd (start (Some (failing, text)) s)) (Printed "")
     = Printed "Cinema 4D MCP server stopped"
  /\ listening (fst (start None (fst (start (Some (failing, text)) s)))).
Proof.
  intros (Hrun & Hsock & Hthread).
  destruct s as [h p r so th]. cbn in Hrun, Hsock, Hthread. subst.
  destruct failing; cbn; repeat split; auto 10.
Qed.

Lemma failed_start_is_undone_witness :
  fst (start (Some (Bind, "Address already in use")) (init "localhost" 9877))
  = init "localhost" 9877
  /\ snd (start (Some (Bind, "Address already in use")) (init "localhost" 9877))
     = [SocketCreated; OptionSet;
        Printed "Failed to start server: Address already in use";
        MessageDialog "Failed to start server: Address already in use";
        SocketClosed; Printed "Cinema 4D MCP server stopped"].
Proof.
  split.
  - refine (proj1 (failed_start_is_undone (init "localhost" 9877) Bind
                     "Address already in use" _)).
    repeat split.
  - reflexivity.
Defined.

(** The dialog does not look at what [start] did: after the start button,
    it says it is connected on the port of its field and enables the stop
    button only, also when the start failed and the server it made is
    stopped and holds no socket. *)
Theorem dialog_connected_after_failed_start (int : string -> pyres Z)
    (failing : step) (text : string) (d : Cinema4DMCPDialog)
    (instance : option Cinema4DMCPServer) (p : Z) :
  int (port_text d) = Ok p ->
  exists d' s effects,
    Command int (Some (failing, text)) ID_START_BTN d instance = Ok (d', Some s, effects)
    /\ server_running d' = true
    /\ status_text d' = "Status: Connected on port " +++ Json.decimal p
    /\ start_enabled d' = false /\ stop_enabled d' = true
    /\ stopped s /\ port s = p
    /\ In (MessageDialog ("Failed to start server: " +++ text)) effects.
Proof.
  intros Hint. unfold Command. cbn [Z.eqb ID_START_BTN Pos.eqb]. rewrite Hint.
  destruct (failed_start_parts (init "localhost" p) failing text) as (Hsame & Hin).
  { repeat split. }
  destruct (start (Some (failing, text)) (init "localhost" p)) as [s effects].
  cbn [fst snd] in Hsame, Hin. subst s.
  eexists _, _, _. repeat split. exact Hin.
Qed.

Lemma dialog_connected_after_failed_start_witness :
  exists d' s effects,
    Command MoreScenarios.int (Some (Bind, "Address already in use")) ID_START_BTN
      CreateLayout None
    = Ok (d', Some s, effects)
    /\ server_running d' = true
    /\ status_text d' = "Status: Connected on port " +++ Json.decimal 9877
    /\ start_enabled d' = false /\ stop_enabled d' = true
    /\ stopped s /\ port s = 9877%Z
    /\ In (MessageDialog ("Failed to start server: " +++ "Address already in use")) effects.
Proof.
  refine (dialog_connected_after_failed_start MoreScenarios.int Bind
            "Address already in use" CreateLayout None 9877 _).
  vm_compute. reflexivity.
Defined.

(** The two buttons on a host whose port is free: the server listens
    after the first and holds nothing after the second. *)
Example connect_then_disconnect :
  exists d s effects,
    Command MoreScenarios.int None ID_START_BTN CreateLayout None = Ok (d, Some s, effects)
    /\ listening s
    /\ Command MoreScenarios.int None ID_STOP_BTN d (Some s)
       = Ok (CreateLayout, None,
             [SocketClosed; ThreadJoined; Printed "Cinema 4D MCP server stopped"]).
Proof. eexists _, _, _. repeat split. Qed.

End ListenerFacts.

(** ** The dispatcher *)

Module DispatchFacts.
Import Json Plugin.

Section Dispatch.
Context `{Python} `{Host}.

Lemma filter_none {A : Type} (f : A -> bool) (l : list A) :
  filter (fun x => negb (f x)) l = [] <-> forallb f l = true.
Proof.
  induction l as [ | a l IH]; cbn [filter forallb].
  - split; reflexivity.
  - destruct (f a); cbn [negb andb].
    + exact IH.
    + split; discriminate.
Qed.

(** Keywords that fit the signature reach the body as they are. *)
Lemma invoke_fits (h : handler) (kwargs : dict) (srv : server) :
  Tools.fits h (keys kwargs) = true ->
  invoke h (JDict kwargs) srv = h_body h kwargs srv.
Proof.
  unfold Tools.fits. intros Hfits. apply andb_prop in Hfits. destruct Hfits as [Hknown Hgiven].
  unfold invoke.
  rewrite (proj2 (filter_none (fun k => mem k (h_required h ++ h_optional h)) _) Hknown).
  rewrite (proj2 (filter_none (fun k => mem k (keys kwargs)) _) Hgiven).
  reflexivity.
Qed.

(** Whatever [invoke] raises, it raises while it binds the keywords: the
    body has not run. *)
Lemma invoke_raises (h : handler) (params : value) (srv srv' : server) (e : exn) :
  (forall kwargs s, exists r s', h_body h kwargs s = (Ok r, s')) ->
  invoke h params srv = (Raise e, srv') ->
  exn_cls e = TypeError /\ srv' = srv.
Proof.
  intros Hbody. unfold invoke, raise_fault.
  destruct params as [ | b | n | x | s | items | kwargs];
    try (intros Hr; injection Hr as <- <-; split; reflexivity).
  destruct (filter (fun k => negb (mem k (h_required h ++ h_optional h))) (keys kwargs))
    as [ | k unknown].
  - destruct (filter (fun k => negb (mem k (keys kwargs))) (h_required h)) as [ | m missing].
    + destruct (Hbody kwargs srv) as (r & s' & ->). discriminate.
    + intros Hr; injection Hr as <- <-; split; reflexivity.
  - destruct (String.eqb k "self"); intros Hr; injection Hr as <- <-; split; reflexivity.
Qed.

Lemma catalog_returns (name : string) (required optional : list string) (kwargs : dict)
    (srv : server) :
  exists r s', h_body (catalog name required optional) kwargs srv = (Ok r, s').
Proof.
  cbn [catalog h_body]. destruct (operation name kwargs (doc srv) (app srv)) as [r app'].
  eexists _, _. reflexivity.
Qed.

Lemma create_object_returns (kwargs : dict) (srv : server) :
  exists r s', create_object_body kwargs srv = (Ok r, s').
Proof.
  unfold create_object_body.
  destruct (get_default "object_type" JNull kwargs) as [ | b | n | x | s | items | members];
    try (eexists _, _; reflexivity).
  destruct (type_map (str_lower s)) as [kind | ]; [ | eexists _, _; reflexivity ].
  destruct (insert_object kind _ _ _ _ (doc srv) (app srv)) as [[e | ] app'];
    eexists _, _; reflexivity.
Qed.

(** No method of the table lets an exception out of its body. *)
Lemma registered_returns (name : string) (h : handler) :
  assoc name handlers = Some h ->
  forall kwargs srv, exists r s', h_body h kwargs srv = (Ok r, s').
Proof.
  intros Hassoc kwargs srv. cbn [handlers assoc] in Hassoc.
  repeat match type of Hassoc with
         | (if ?b then _ else _) = Some _ =>
             destruct b;
             [ injection Hassoc as <-;
               first [ apply catalog_returns
                     | apply create_object_returns
                     | eexists _, _; reflexivity ]
             | ]
         end.
  discriminate Hassoc.
Qed.

Lemma registered_name (name : string) (h : handler) :
  assoc name handlers = Some h -> In name (map fst handlers).
Proof.
  intros Hassoc.
  destruct (in_dec string_dec name (map fst handlers)) as [Hin | Hnot]; [ exact Hin | ].
  rewrite (PluginFacts.assoc_not_in _ _ Hnot) in Hassoc. discriminate.
Qed.

Lemma success_or_failure (srv : server) (command : value) :
  (exists r, fst (execute_command srv command) = success r)
  \/ (exists m, fst (execute_command srv command) = failure m).
Proof.
  unfold execute_command.
  destruct (execute_command_try srv command) as [[response | e] srv'] eqn:Htry;
    [ | right; eexists; reflexivity ].
  revert Htry. unfold execute_command_try.
  destruct (command_get command "type" JNull) as [cmd_type | e]; [ | discriminate ].
  destruct (command_get command "params" (JDict [])) as [params | e]; [ | discriminate ].
  destruct (handlers_get cmd_type) as [[h | ] | e]; [ | | discriminate ].
  - destruct (invoke h params (refresh srv)) as [[r | e] srv1];
      intros Hr; injection Hr as <- _; [ left | right ]; eexists; reflexivity.
  - intros Hr; injection Hr as <- _. right. eexists. reflexivity.
Qed.

(** The dispatcher answers every command, whatever the document is, by one
    of its two envelopes; the success envelope is only given to a command
    that is an object whose type is a name of the table. *)
Theorem response_envelope (srv : server) (command : value) :
  (exists r name members,
      command = JDict members
      /\ get_default "type" JNull members = JStr name
      /\ In name (map fst handlers)
      /\ fst (execute_command srv command) = success r)
  \/ (exists m, fst (execute_command srv command) = failure m).
Proof.
  unfold execute_command, execute_command_try, command_get, raise_fault.
  destruct command as [ | b | n | x | s | items | members];
    try (right; eexists; reflexivity).
  destruct (get_default "type" JNull members) as [ | b | n | x | name | items | d] eqn:Htype;
    cbn [handlers_get]; unfold raise_fault; try (right; eexists; reflexivity).
  destruct (assoc name handlers) as [h | ] eqn:Hassoc; [ | right; eexists; reflexivity ].
  destruct (invoke h (get_default "params" (JDict []) members) (refresh srv))
    as [[r | e] srv'] eqn:Hinvoke.
  - left. exists r, name, members.
    split; [ reflexivity | ]. split; [ exact Htype | ].
    split; [ exact (registered_name _ _ Hassoc) | reflexivity ].
  - right. eexists. reflexivity.
Qed.

(** A failure response for a command of the table is a failure to bind its
    keywords.  Every method of the table but [ping], which has nothing
    that raises, is one [try] whose [except Exception] returns the text
    of the exception in a dictionary: so an exception that the call of a
    method raises is a [TypeError] of the interpreter, raised before the
    body ran, with the host as it was; and when the statements of a
    method of the catalog raise, the call returns, with the dictionary
    that carries the text and the application as the statements left
    it. *)
Theorem registered_handlers_fail_only_at_binding (name : string) (h : handler)
    (params : value) (srv : server) :
  assoc name handlers = Some h ->
  (forall e srv',
      invoke h params srv = (Raise e, srv') -> exn_cls e = TypeError /\ srv' = srv)
  /\ (forall required optional kwargs e app',
         h = catalog name required optional ->
         params = JDict kwargs ->
         Tools.fits h (keys kwargs) = true ->
         operation name kwargs (doc (refresh srv)) (app srv) = (Raise e, app') ->
         invoke h params (refresh srv)
         = (Ok (JDict [("error", JStr (str_of_exn e))]),
            {| doc := doc (refresh srv); app := app' |})
         /\ execute_command srv (JDict [("type", JStr name); ("params", params)])
            = (success (JDict [("error", JStr (str_of_exn e))]),
               {| doc := doc (refresh srv); app := app' |})).
Proof.
  intros Hassoc. split.
  - intros e srv'. apply invoke_raises. exact (registered_returns name h Hassoc).
  - intros required optional kwargs e app' Hh Hparams Hfits Hraise.
    assert (Hinvoke : invoke h params (refresh srv)
                      = (Ok (JDict [("error", JStr (str_of_exn e))]),
                         {| doc := doc (refresh srv); app := app' |})).
    { rewrite Hparams, (invoke_fits h kwargs (refresh srv) Hfits), Hh.
      cbn [catalog h_body refresh doc app] in *. rewrite Hraise. reflexivity. }
    split; [ exact Hinvoke | ].
    unfold execute_command, execute_command_try.
    cbn [command_get get_default get String.eqb Ascii.eqb Bool.eqb handlers_get].
    rewrite Hassoc, Hinvoke. reflexivity.
Qed.

(** Commands that are not what the client sends.  A document that is no
    object is answered with the text of the [AttributeError], before the
    active document is read; an object without a type, or whose type is
    no string, is answered as an unknown command named by [str] of the
    type; a type that cannot be hashed is answered with the text of the
    [TypeError]; parameters that are no object are answered with the
    [TypeError] of the call. *)
Theorem malformed_commands_answered (srv : server) :
  (forall command,
      (forall members, command <> JDict members) ->
      execute_command srv command
      = (failure (fault_text (NoAttribute command "get")), srv))
  /\ (forall members,
         get "type" members = None ->
         execute_command srv (JDict members)
         = (failure "Unknown command type: None", refresh srv))
  /\ (forall members v,
         get "type" members = Some v ->
         (forall s, v <> JStr s) -> (forall l, v <> JList l) -> (forall d, v <> JDict d) ->
         execute_command srv (JDict members)
         = (failure ("Unknown command type: " +++ py_str v), refresh srv))
  /\ (forall members v,
         get "type" members = Some v ->
         (exists l, v = JList l) \/ (exists d, v = JDict d) ->
         execute_command srv (JDict members)
         = (failure (fault_text (Unhashable v)), refresh srv))
  /\ (forall members name h params,
         get "type" members = Some (JStr name) ->
         assoc name handlers = Some h ->
         get "params" members = Some params ->
         (forall kwargs, params <> JDict kwargs) ->
         execute_command srv (JDict members)
         = (failure (fault_text (NotAMapping (h_name h) params)), refresh srv)).
Proof.
  split; [ | split; [ | split; [ | split ] ] ].
  - intros command Hno.
    destruct command as [ | b | n | x | s | items | members]; try reflexivity.
    destruct (Hno members eq_refl).
  - intros members Htype.
    unfold execute_command, execute_command_try, command_get.
    unfold get_default. rewrite Htype. reflexivity.
  - intros members v Htype Hs Hl Hd.
    unfold execute_command, execute_command_try, command_get.
    unfold get_default. rewrite Htype.
    destruct v as [ | b | n | x | s | items | d]; try reflexivity.
    + destruct (Hs s eq_refl).
    + destruct (Hl items eq_refl).
    + destruct (Hd d eq_refl).
  - intros members v Htype [[l ->] | [d ->]];
      unfold execute_command, execute_command_try, command_get;
      unfold get_default; rewrite Htype; reflexivity.
  - intros members name h params Htype Hassoc Hparams Hno.
    unfold execute_command, execute_command_try, command_get.
    unfold get_default. rewrite Htype, Hparams. cbn [handlers_get]. rewrite Hassoc.
    unfold invoke.
    destruct params as [ | b | n | x | s | items | kwargs]; try reflexivity.
    destruct (Hno kwargs eq_refl).
Qed.

(** [ping] answers that the server is alive and leaves the application as
    it is, with the parameters missing or empty; it takes no keyword, so
    any parameter makes it fail, on its first keyword: as a second value
    for [self] when that is its name, as an unexpected keyword
    otherwise. *)
Theorem ping_answer (srv : server) (members : dict) :
  get "type" members = Some (JStr "ping") ->
  (get "params" members = None \/ get "params" members = Some (JDict []) ->
   execute_command srv (JDict members)
   = (success (JDict [("status", JStr "alive")]), refresh srv))
  /\ (forall k v kwargs,
         get "params" members = Some (JDict ((k, v) :: kwargs)) ->
         execute_command srv (JDict members)
         = (failure (fault_text (if String.eqb k "self" then MultipleValues "ping" k
                                 else UnexpectedKeyword "ping" k)),
            refresh srv))
  /\ app (snd (execute_command srv (JDict members))) = app srv.
Proof.
  intros Htype.
  assert (Hempty : get "params" members = None \/ get "params" members = Some (JDict []) ->
                   execute_command srv (JDict members)
                   = (success (JDict [("status", JStr "alive")]), refresh srv)).
  { intros Hparams.
    unfold execute_command, execute_command_try, command_get, get_default. rewrite Htype.
    destruct Hparams as [-> | ->]; reflexivity. }
  assert (Hkeyword : forall k v kwargs,
             get "params" members = Some (JDict ((k, v) :: kwargs)) ->
             execute_command srv (JDict members)
             = (failure (fault_text (if String.eqb k "self" then MultipleValues "ping" k
                                     else UnexpectedKeyword "ping" k)),
                refresh srv)).
  { intros k v kwargs Hparams.
    unfold execute_command, execute_command_try, command_get, get_default.
    rewrite Htype, Hparams.
    cbn [handlers_get handlers assoc String.eqb Ascii.eqb Bool.eqb invoke ping h_required
           h_optional h_name List.app keys map fst filter mem existsb negb].
    destruct (String.eqb k "self"); reflexivity. }
  split; [ exact Hempty | split; [ exact Hkeyword | ] ].
  destruct (get "params" members) as [params | ] eqn:Hparams.
  - destruct params as [ | b | n | x | s | items | [ | [k v] kwargs]];
      try (unfold execute_command, execute_command_try, command_get, get_default;
           rewrite Htype, Hparams; reflexivity).
    rewrite (Hkeyword k v kwargs eq_refl). reflexivity.
  - rewrite (Hempty (or_introl eq_refl)). reflexivity.
Qed.

End Dispatch.

End DispatchFacts.

(** ** export_scene *)

Module ExportFacts.
Import Json Plugin PluginOps.

Section Saving.
Context `{Python} `{Host} `{!Documents}.

(** [export_scene] saves at most once and only in a format of its map,
    which it looks up under the lowered name; it saves with the flag
    [SAVEDOCUMENTFLAGS_NONE] only when the name is [c4d] as written, so a
    name in another case exports a [c4d] file with the other flag.  A name
    that is not in the map is reported as it was given and nothing is
    saved.  The method never replaces the document of the server, and it
    gives an error dictionary whenever it saved nothing. *)
Theorem export_scene_saves (filepath format : value) (srv : server) :
  let result := fst (fst (export_scene filepath format srv)) in
  let srv' := snd (fst (export_scene filepath format srv)) in
  let saves := snd (export_scene filepath format srv) in
  doc srv' = doc srv
  /\ (saves = [] -> srv' = srv /\ exists m, result = JDict [("error", JStr m)])
  /\ (forall flags f,
         In (flags, f) saves ->
         saves = [(flags, f)]
         /\ exists s,
             format = JStr s /\ format_map (str_lower s) = Some f
             /\ (flags = SAVEDOCUMENTFLAGS_NONE <-> s = "c4d"))
  /\ (forall s,
         format = JStr s -> format_map (str_lower s) = None ->
         result = JDict [("error", JStr ("Unknown format: " +++ s))] /\ saves = [])
  /\ (forall s,
         format = JStr s -> str_lower s = "c4d" -> s <> "c4d" ->
         saves = [(SAVEDOCUMENTFLAGS_DONTADDTORECENTLIST, FORMAT_C4DEXPORT)]).
Proof.
  cbv zeta. unfold export_scene.
  destruct format as [ | b | n | x | s | items | members];
    try (cbn [fst snd];
         split; [ reflexivity | ];
         split; [ intros _; split; [ reflexivity | eexists; reflexivity ] | ];
         split; [ intros flags f [] | ];
         split; intros s' Hs'; discriminate Hs').
  destruct (format_map (str_lower s)) as [export_format | ] eqn:Hmap.
  - destruct (SaveDocument (doc srv) filepath
                (if String.eqb s "c4d" then SAVEDOCUMENTFLAGS_NONE
                 else SAVEDOCUMENTFLAGS_DONTADDTORECENTLIST)
                export_format (app srv)) as [saved app'] eqn:Hsave.
    cbn [fst snd doc]. split; [ reflexivity | ]. split; [ discriminate | ].
    split; [ | split ].
    + intros flags f [Hin | []]. injection Hin as <- <-.
      split; [ reflexivity | ]. exists s. split; [ reflexivity | ]. split; [ exact Hmap | ].
      destruct (String.eqb_spec s "c4d") as [-> | Hne].
      * split; reflexivity.
      * split; [ discriminate | intros Heq; destruct (Hne Heq) ].
    + intros s' Hs' Hnone. injection Hs' as <-. congruence.
    + intros s' Hs' Hlower Hne. injection Hs' as <-.
      rewrite Hlower in Hmap. cbn in Hmap. injection Hmap as <-.
      destruct (String.eqb_spec s "c4d") as [Heq | _]; [ destruct (Hne Heq) | reflexivity ].
  - cbn [fst snd]. split; [ reflexivity | ]. split.
    + intros _. split; [ reflexivity | eexists; reflexivity ].
    + split; [ intros flags f [] | ]. split.
      * intros s' Hs' _. injection Hs' as <-. split; reflexivity.
      * intros s' Hs' Hlower. injection Hs' as <-. rewrite Hlower in Hmap.
        cbn in Hmap. discriminate Hmap.
Qed.

End Saving.

End ExportFacts.

(** ** The dispatcher at work on the reference codec and host *)

Module DispatchRuns.
Import Json Plugin PluginOps DispatchFacts ExportFacts Scenarios MoreScenarios.

#[local] Existing Instance RefCodec.python.
#[local] Existing Instance RefHost.host.

Lemma registered_handlers_fail_only_at_binding_witness :
  exists e srv',
    invoke ping (JDict [("self", JInt 1)]) RefHost.empty = (Raise e, srv')
    /\ exn_cls e = TypeError /\ srv' = RefHost.empty.
Proof.
  eexists _, _. split; [ vm_compute; reflexivity | ].
  refine (proj1 (registered_handlers_fail_only_at_binding "ping" ping
                   (JDict [("self", JInt 1)]) RefHost.empty eq_refl) _ _ _).
  vm_compute. reflexivity.
Defined.

(** A keyword named [self] and another keyword, as the reference codec
    words them. *)
Example ping_with_self :
  fst (execute_command RefHost.empty
         (JDict [("type", JStr "ping"); ("params", JDict [("self", JInt 1)])]))
  = failure "Cinema4DMCPServer.ping() got multiple values for argument 'self'"
  /\ fst (execute_command RefHost.empty
            (JDict [("type", JStr "ping"); ("params", JDict [("x", JInt 1)])]))
     = failure "Cinema4DMCPServer.ping() got an unexpected keyword argument 'x'"
  /\ fst (execute_command RefHost.empty
            (JDict [("type", JStr "ping"); ("params", JList [])]))
     = failure ("c4d_plugin.Cinema4DMCPServer.ping() argument after ** must be a mapping, "
                +++ "not list")
  /\ fst (execute_command RefHost.empty
            (JDict [("type", JStr "create_keyframe"); ("params", JDict [])]))
     = failure ("Cinema4DMCPServer.create_keyframe() missing 4 required positional "
                +++ "arguments: 'object_name', 'parameter', 'value', and 'frame'").
Proof. repeat split. Qed.

(** A host whose SDK raises in every method of the catalog: the object a
    command names is gone. *)
Example sdk_exception_answered_as_success :
  @execute_command RefCodec.python MoreScenarios.dead_host
    (@mkServer MoreScenarios.dead_host None tt)
    (Client.command_of "delete_object" (Some [("name", JStr "X")]))
  = (success (JDict [("error", JStr "Object is dead")]),
     @mkServer MoreScenarios.dead_host (Some tt) tt).
Proof. reflexivity. Qed.

Lemma ping_answer_witness :
  execute_command RefHost.empty (Client.command_of "ping" None)
  = (success (JDict [("status", JStr "alive")]), refresh RefHost.empty).
Proof.
  refine (proj1 (ping_answer RefHost.empty
                   [("type", JStr "ping"); ("params", JDict [])] eq_refl) _).
  right. reflexivity.
Defined.

(** The name of a format in upper case: the file is saved as a [c4d] file,
    with the flag of the other formats. *)
Example export_upper_case :
  export_scene (JStr "/tmp/scene.c4d") (JStr "C4D") RefHost.empty
  = (JDict [("filepath", JStr "/tmp/scene.c4d"); ("format", JStr "C4D");
            ("success", JBool true)],
     RefHost.empty,
     [(SAVEDOCUMENTFLAGS_DONTADDTORECENTLIST, FORMAT_C4DEXPORT)])
  /\ export_scene (JStr "/tmp/scene.c4d") (JStr "c4d") RefHost.empty
     = (JDict [("filepath", JStr "/tmp/scene.c4d"); ("format", JStr "c4d");
               ("success", JBool true)],
        RefHost.empty,
        [(SAVEDOCUMENTFLAGS_NONE, FORMAT_C4DEXPORT)])
  /\ export_scene (JStr "/tmp/scene.gltf") (JStr "gltf") RefHost.empty
     = (JDict [("error", JStr "Unknown format: gltf")], RefHost.empty, []).
Proof. repeat split. Qed.

End DispatchRuns.

(** ** The handler loop at work on the reference codec and host *)

Module LoopRuns.
Import Json Plugin PluginFacts Scenarios MoreScenarios.

#[local] Existing Instance RefCodec.python.
#[local] Existing Instance RefHost.host.

Lemma chunks_reassembled_witness :
  handle_loop ([chunk ping_head] ++ chunk ping_tail :: []) [] RefHost.empty
  = ([ERecv ping_head; ERecv ping_tail; ECommand (Client.command_of "ping" None);
      ESend (encode alive) true],
     refresh RefHost.empty, Blocked []).
Proof.
  refine (chunks_reassembled [chunk ping_head] [ping_head] _ [] RefHost.empty
            (chunk ping_tail) ping_tail [] _ (Client.command_of "ping" None) _ _ _).
  - constructor; [ | constructor ].
    repeat split. intros Hnil. vm_compute in Hnil. discriminate Hnil.
  - intros k Hk. destruct k as [ | k]; [ | cbn in Hk; lia ].
    eexists. vm_compute. reflexivity.
  - repeat split. intros Hnil. vm_compute in Hnil. discriminate Hnil.
  - vm_compute. reflexivity.
Defined.

Lemma whole_commands_answered_witness :
  handle_loop (map (fun a => fst (fst a)) two_arrivals) [] RefHost.empty
  = (fst (answered RefHost.empty two_arrivals), snd (answered RefHost.empty two_arrivals),
     Blocked []).
Proof.
  refine (whole_commands_answered two_arrivals _ RefHost.empty).
  constructor; [ | constructor; [ | constructor ] ].
  - split.
    + repeat split. intros Hnil. vm_compute in Hnil. discriminate Hnil.
    + eexists. vm_compute. reflexivity.
  - split.
    + repeat split. intros Hnil. vm_compute in Hnil. discriminate Hnil.
    + eexists. vm_compute. reflexivity.
Defined.

End LoopRuns.

(** ** One exchange seen from the client *)

Module ExchangeFacts.
Import Json Client ClientFacts.

Section Exchange.
Context `{Python}.

Lemma decodings_close_nothing (tried : list bytes) :
  Forall (fun a => forall s, a <> Closed s) (map Decoding tried).
Proof.
  induction tried as [ | d tried IH]; cbn [map]; constructor.
  - intros s. discriminate.
  - exact IH.
Qed.

Lemma send_command_try_journal (s : socket) (command_type : string) (params : option dict)
    (w : net) :
  exists added,
    journal (snd (send_command_try s command_type params w)) = journal w ++ added
    /\ Forall (fun a => forall s', a <> Closed s') added.
Proof.
  unfold send_command_try.
  destruct (match sends w with [] => (Accepted, []) | a :: rest => (a, rest) end)
    as [answer later].
  destruct answer as [ | err].
  - destruct (receive_full_response (recvs w)) as [[received unread] tried].
    destruct received as [data | e]; cbn [snd journal record].
    + exists (Sent s (encode (command_of command_type params))
                :: map Decoding tried ++ [Decoding data]).
      split; [ rewrite <- app_assoc; reflexivity | ].
      constructor; [ intros s'; discriminate | ].
      apply Forall_app. split; [ apply decodings_close_nothing | ].
      constructor; [ intros s'; discriminate | constructor ].
    + exists (Sent s (encode (command_of command_type params)) :: map Decoding tried).
      split; [ reflexivity | ].
      constructor; [ intros s'; discriminate | apply decodings_close_nothing ].
  - cbn [snd journal]. exists []. split; [ rewrite app_nil_r; reflexivity | constructor ].
Qed.

(** A connection without a socket connects first. *)
Lemma send_command_reconnects (c : Cinema4DConnection) (command_type : string)
    (params : option dict) (w : net) (more : list bool) :
  sock c = None -> connects w = true :: more ->
  send_command c command_type params w
  = send_command (with_sock c (Some (next_socket w))) command_type params (after_connect w).
Proof.
  intros Hsock Hconnects. unfold send_command, connect, after_connect.
  rewrite Hsock, Hconnects. cbn [with_sock sock host port timeout]. reflexivity.
Qed.

(** [send_command] closes no socket, whatever happens to the command. *)
Lemma send_command_journal (c : Cinema4DConnection) (command_type : string)
    (params : option dict) (w : net) :
  exists added,
    journal (snd (send_command c command_type params w)) = journal w ++ added
    /\ Forall (fun a => forall s, a <> Closed s) added.
Proof.
  assert (Hheld : forall c0 s0 w0,
             sock c0 = Some s0 ->
             exists added,
               journal (snd (send_command c0 command_type params w0)) = journal w0 ++ added
               /\ Forall (fun a => forall s, a <> Closed s) added).
  { intros c0 s0 w0 Hsock. rewrite (send_command_connected c0 s0 _ _ _ Hsock).
    destruct (send_command_try_journal s0 command_type params w0) as (added & Hj & Hall).
    exists added. split; [ | exact Hall ].
    destruct (send_command_try s0 command_type params w0) as [[r | e] w1];
      [ exact Hj | destruct (except_clause e); exact Hj ]. }
  destruct (sock c) as [s | ] eqn:Hsock; [ exact (Hheld c s w Hsock) | ].
  destruct (connects w) as [ | [ | ] more] eqn:Hconnects.
  - unfold send_command, connect. rewrite Hsock, Hconnects. cbn.
    exists [Refused]. split; [ reflexivity | ].
    constructor; [ intros s; discriminate | constructor ].
  - rewrite (send_command_reconnects c command_type params w more Hsock Hconnects).
    destruct (Hheld (with_sock c (Some (next_socket w))) (next_socket w) (after_connect w)
                eq_refl) as (added & Hj & Hall).
    exists (Opened (next_socket w) :: added). split.
    + rewrite Hj. cbn [after_connect journal]. rewrite <- app_assoc. reflexivity.
    + constructor; [ intros s; discriminate | exact Hall ].
  - unfold send_command, connect. rewrite Hsock, Hconnects. cbn.
    exists [Refused]. split; [ reflexivity | ].
    constructor; [ intros s; discriminate | constructor ].
Qed.

(** Whenever [send_command] raises, the connection is left without a
    socket. *)
Lemma send_command_raised (c : Cinema4DConnection) (command_type : string)
    (params : option dict) (w : net) (e : exn) (c' : Cinema4DConnection) (w' : net) :
  send_command c command_type params w = (Raise e, c', w') -> sock c' = None.
Proof.
  unfold send_command.
  destruct (match sock c with Some _ => (true, c, w) | None => connect c w end)
    as [[connected c1] w1] eqn:Hconnect.
  assert (Hfailed : connected = false -> sock c1 = None).
  { intros ->. destruct (sock c) eqn:Hc; [ discriminate Hconnect | ].
    unfold connect in Hconnect. rewrite Hc in Hconnect.
    destruct (connects w) as [ | [ | ] more]; try discriminate Hconnect;
      injection Hconnect as <- _; reflexivity. }
  destruct connected.
  - destruct (sock c1) as [s | ] eqn:Hs.
    + destruct (send_command_try s command_type params w1) as [[r | e1] w2] eqn:Htry;
        [ discriminate | ].
      pose proof (send_command_try_raises _ _ _ _ _ _ Htry) as Hnot.
      unfold except_clause. destruct (exn_cls e1); try congruence;
        intros Hr; injection Hr as _ <- _; reflexivity.
    + intros Hr; injection Hr as _ <- _. exact Hs.
  - intros Hr. injection Hr as _ <- _. exact (Hfailed eq_refl).
Qed.

Lemma create_connection_journal (w : net) :
  exists added,
    journal (snd (create_connection w)) = journal w ++ added
    /\ Forall (fun a => forall s, a <> Closed s) added.
Proof.
  unfold create_connection, connect, new_connection. cbn [sock].
  destruct (connects w) as [ | [ | ] more]; cbn [snd journal record];
    eexists; (split; [ reflexivity | ]);
    (constructor; [ intros s; discriminate | constructor ]).
Qed.

(** C6.  The acquisition closes no socket.  When the ping of the cached
    connection raises, [send_command] has already dropped the socket of
    the connection without closing it, so the [disconnect] that
    [get_cinema4d_connection] runs on the stale connection finds nothing
    to close and does nothing; the function then goes on as with nothing
    cached.  Nothing the acquisition ever does is the closing of a
    socket: the stale one stays open until the interpreter collects
    it. *)
Theorem stale_socket_is_never_closed (cached : option Cinema4DConnection) (w : net) :
  (forall c e c' w',
      cached = Some c ->
      send_command c "ping" None w = (Raise e, c', w') ->
      sock c' = None
      /\ disconnect c' w' = (c', w')
      /\ get_cinema4d_connection cached w = create_connection w')
  /\ exists added,
      journal (snd (get_cinema4d_connection cached w)) = journal w ++ added
      /\ Forall (fun a => forall s, a <> Closed s) added.
Proof.
  assert (Hstale : forall c e c' w',
             cached = Some c ->
             send_command c "ping" None w = (Raise e, c', w') ->
             sock c' = None
             /\ disconnect c' w' = (c', w')
             /\ get_cinema4d_connection cached w = create_connection w').
  { intros c e c' w' -> Hping.
    pose proof (send_command_raised _ _ _ _ _ _ _ Hping) as Hsock.
    assert (Hdisconnect : disconnect c' w' = (c', w')).
    { unfold disconnect. rewrite Hsock. reflexivity. }
    split; [ exact Hsock | ]. split; [ exact Hdisconnect | ].
    cbn [get_cinema4d_connection]. rewrite Hping, Hdisconnect. reflexivity. }
  split; [ exact Hstale | ].
  destruct cached as [c | ].
  - destruct (send_command_journal c "ping" None w) as (sent & Hsent & Hnone).
    destruct (send_command c "ping" None w) as [[[r | e] c'] w'] eqn:Hping.
    + cbn [get_cinema4d_connection]. rewrite Hping. cbn [snd] in *.
      exists sent. split; assumption.
    + destruct (Hstale c e c' w' eq_refl Hping) as (_ & _ & ->).
      destruct (create_connection_journal w') as (added & Hadded & Hnone').
      cbn [snd] in Hsent. exists (sent ++ added). split.
      * rewrite Hadded, Hsent, app_assoc. reflexivity.
      * apply Forall_app. split; assumption.
  - cbn [get_cinema4d_connection]. apply create_connection_journal.
Qed.

(** A command that fails costs the connection its socket, which nobody
    closes: whenever [send_command] raises, the connection is left without
    a socket, no socket was closed on the way, and a [disconnect] that
    follows, as in the recovery of [get_cinema4d_connection], does
    nothing. *)
Theorem failed_command_forgets_socket (c : Cinema4DConnection) (command_type : string)
    (params : option dict) (w : net) (e : exn) (c' : Cinema4DConnection) (w' : net) :
  send_command c command_type params w = (Raise e, c', w') ->
  sock c' = None
  /\ disconnect c' w' = (c', w')
  /\ exists added,
      journal w' = journal w ++ added
      /\ Forall (fun a => forall s, a <> Closed s) added.
Proof.
  intros Hraise.
  assert (Hsock : sock c' = None).
  { revert Hraise. unfold send_command.
    destruct (match sock c with Some _ => (true, c, w) | None => connect c w end)
      as [[connected c1] w1] eqn:Hconnect.
    assert (Hfailed : connected = false -> sock c1 = None).
    { intros ->. destruct (sock c) eqn:Hc; [ discriminate Hconnect | ].
      unfold connect in Hconnect. rewrite Hc in Hconnect.
      destruct (connects w) as [ | [ | ] more]; try discriminate Hconnect;
        injection Hconnect as <- _; reflexivity. }
    destruct connected.
    - destruct (sock c1) as [s | ] eqn:Hs.
      + destruct (send_command_try s command_type params w1) as [[r | e1] w2] eqn:Htry;
          [ discriminate | ].
        pose proof (send_command_try_raises _ _ _ _ _ _ Htry) as Hnot.
        unfold except_clause. destruct (exn_cls e1); try congruence;
          intros Hr; injection Hr as _ <- _; reflexivity.
      + intros Hr; injection Hr as _ <- _. exact Hs.
    - intros Hr. injection Hr as _ <- _. exact (Hfailed eq_refl). }
  split; [ exact Hsock | ]. split.
  - unfold disconnect. rewrite Hsock. reflexivity.
  - destruct (send_command_journal c command_type params w) as (added & Hj & Hall).
    rewrite Hraise in Hj. exists added. split; [ exact Hj | exact Hall ].
Qed.

(** A response that arrives in pieces is returned whole: while what was
    gathered is text but no document the loop reads on, the chunk that
    completes the document ends the call with all the bytes received, one
    decode was tried per chunk, and what the peer sent after the document
    stays unread. *)
Theorem response_reassembled (datas : list bytes) (final : bytes)
    (rest : list recv_answer) (text : string) (v : value) :
  Forall (fun d => d <> []) datas ->
  Forall (fun b => exists partial, decode b = NotJson partial) (accumulations [] datas) ->
  final <> [] ->
  decode (concat (datas ++ [final])) = Parsed text v ->
  receive_full_response (map Chunk datas ++ Chunk final :: rest)
  = (Ok (concat (datas ++ [final])), rest,
     accumulations [] datas ++ [concat (datas ++ [final])]).
Proof.
  intros Hne Hacc Hfinal Hdec. unfold receive_full_response.
  rewrite (receive_loop_chunks datas [] (Chunk final :: rest) Hne Hacc).
  cbn [app receive_loop]. destruct final as [ | b final]; [ congruence | ].
  cbv zeta. rewrite Hdec. reflexivity.
Qed.

End Exchange.

End ExchangeFacts.

(** ** The client and the plugin, one talking to the other *)

Module BridgeFacts.
Import Json Client ClientFacts.

Section Bridge.
Context `{Python} `{Plugin.Host}.

(** The plugin that receives a command whole writes its response, once. *)
Lemma plugin_answers (command : value) (srv : Plugin.server) (text : string) :
  encode command <> [] ->
  decode (encode command) = Parsed text command ->
  Plugin.handle_client [Plugin.chunk (encode command)] srv
  = ([Plugin.ERecv (encode command); Plugin.ECommand command;
      Plugin.ESend (encode (fst (Plugin.execute_command srv command))) true],
     snd (Plugin.execute_command srv command), Plugin.Blocked []).
Proof.
  intros Hne Hdec. rewrite PluginFacts.handle_client_closing.
  rewrite (PluginFacts.handle_loop_step (Plugin.chunk (encode command)) [] [] srv
             (encode command)) by (repeat split; exact Hne).
  rewrite app_nil_l, Hdec.
  destruct (Plugin.execute_command srv command) as [response srv1]. reflexivity.
Qed.

(** The client that receives a response whole reads it. *)
Lemma client_reads (c : Cinema4DConnection) (s : socket) (command_type : string)
    (params : option dict) (w : net) (rest : list recv_answer) (response : value)
    (text : string) :
  sock c = Some s -> accepts w ->
  encode response <> [] ->
  decode (encode response) = Parsed text response ->
  recvs w = Chunk (encode response) :: rest ->
  send_command_try s command_type params w
  = (interpret (encode response),
     record [Decoding (encode response)]
       (after_exchange w s (encode (command_of command_type params)) rest
          [encode response])).
Proof.
  intros Hsock Haccepts Hne Hdec Hrecvs.
  rewrite (send_command_try_accepted s _ _ _ Haccepts), Hrecvs.
  unfold receive_full_response. cbn [receive_loop].
  destruct (encode response) as [ | b data] eqn:Hbytes; [ congruence | ].
  cbv zeta. cbn [app concat]. rewrite app_nil_r, Hdec. reflexivity.
Qed.

(** One command from the client to the plugin and back.  The client holds
    a socket, the plugin receives the command whole, and the client
    receives what the plugin wrote; the codec gives back the command and
    the response it was given.  Then the plugin writes one response; a
    success envelope makes [send_command] return the result of the
    handler, on the same socket; an error envelope makes it raise the
    message of the dispatcher behind its own words, and costs the
    connection its socket; and the response is one of the two. *)
Theorem command_round_trip (c : Cinema4DConnection) (s : socket) (command_type : string)
    (params : option dict) (w : net) (rest : list recv_answer) (srv : Plugin.server)
    (text text' : string) :
  let command := command_of command_type params in
  let served := Plugin.handle_client [Plugin.chunk (encode command)] srv in
  let response := fst (Plugin.execute_command srv command) in
  let w' :=
    record [Decoding (encode response)]
      (after_exchange w s (encode command) rest [encode response]) in
  sock c = Some s -> accepts w ->
  encode command <> [] -> encode response <> [] ->
  decode (encode command) = Parsed text command ->
  decode (encode response) = Parsed text' response ->
  recvs w = map Chunk (Plugin.written (fst (fst served))) ++ rest ->
  Plugin.written (fst (fst served)) = [encode response]
  /\ (forall r,
         response = Plugin.success r ->
         send_command c command_type params w = (Ok r, c, w'))
  /\ (forall m,
         response = Plugin.failure m ->
         send_command c command_type params w
         = (Raise (Exn PlainException ("Communication error with Cinema 4D: " +++ m)),
            with_sock c None, w'))
  /\ ((exists r, response = Plugin.success r) \/ (exists m, response = Plugin.failure m)).
Proof.
  intros command served response w' Hsock Haccepts Hcommand Hresponse Hdec Hdec' Hrecvs.
  assert (Hwritten : Plugin.written (fst (fst served)) = [encode response]).
  { unfold served. rewrite (plugin_answers command srv text Hcommand Hdec). reflexivity. }
  rewrite Hwritten in Hrecvs. cbn [map app] in Hrecvs.
  pose proof (client_reads c s command_type params w rest response text'
                Hsock Haccepts Hresponse Hdec' Hrecvs) as Htry.
  fold command in Htry. fold w' in Htry.
  split; [ exact Hwritten | ]. split; [ | split ].
  - intros r Hr. rewrite (send_command_connected c s _ _ _ Hsock), Htry.
    unfold interpret. rewrite Hdec', Hr. reflexivity.
  - intros m Hm. rewrite (send_command_connected c s _ _ _ Hsock), Htry.
    unfold interpret. rewrite Hdec', Hm. reflexivity.
  - exact (DispatchFacts.success_or_failure srv command).
Qed.

End Bridge.

End BridgeFacts.

(** ** The tools *)

Module ToolFacts.
Import Json Client ClientFacts Tools.

Section Served.
Context `{Python} `{Pretty} `{Plugin.Host}.

(** The command of a tool whose keywords fit reaches the body of its
    handler with the parameters of the tool, and is answered with what the
    body returned. *)
Lemma served_command (t : tool) (srv : Plugin.server) :
  served t = true ->
  exists h r,
    Plugin.assoc (t_command t) Plugin.handlers = Some h
    /\ Plugin.h_body h (match t_params t with Some d => d | None => [] end)
         (Plugin.refresh srv)
       = (Ok r, snd (Plugin.execute_command srv (command_of (t_command t) (t_params t))))
    /\ fst (Plugin.execute_command srv (command_of (t_command t) (t_params t)))
       = Plugin.success r.
Proof.
  unfold served. destruct (Plugin.assoc (t_command t) Plugin.handlers) as [h | ] eqn:Hassoc;
    [ | discriminate ].
  intros Hfits.
  assert (Hkeys : keywords t = keys (match t_params t with Some d => d | None => [] end)).
  { unfold keywords. destruct (t_params t); reflexivity. }
  rewrite Hkeys in Hfits.
  destruct (DispatchFacts.registered_returns _ _ Hassoc
              (match t_params t with Some d => d | None => [] end) (Plugin.refresh srv))
    as (r & srv' & Hbody).
  exists h, r. split; [ reflexivity | ].
  unfold Plugin.execute_command, Plugin.execute_command_try, command_of.
  cbn [Plugin.command_get get_default get String.eqb Ascii.eqb Bool.eqb Plugin.handlers_get].
  rewrite Hassoc, (DispatchFacts.invoke_fits h _ (Plugin.refresh srv) Hfits), Hbody.
  split; reflexivity.
Qed.

(** Every tool sends a command of the table with keywords that fit the
    signature of its handler, whatever its arguments are; and the command
    of a tool that does so always gets the success envelope, around what
    the body of the handler returned on the parameters of the tool. *)
Theorem tools_reach_their_handlers :
  (forall include_hierarchy, served (get_scene_info include_hierarchy) = true)
  /\ (forall object_name, served (get_object_info object_name) = true)
  /\ (forall object_type name position rotation scale,
         served (create_object object_type name position rotation scale) = true)
  /\ (forall object_name position rotation scale properties,
         served (modify_object object_name position rotation scale properties) = true)
  /\ (forall object_name, served (delete_object object_name) = true)
  /\ (forall name color reflectance roughness metallic opacity,
         served (create_material name color reflectance roughness metallic opacity) = true)
  /\ (forall object_name material_name,
         served (apply_material object_name material_name) = true)
  /\ (forall frame, served (set_animation_frame frame) = true)
  /\ (forall object_name parameter v frame,
         served (create_keyframe object_name parameter v frame) = true)
  /\ (forall code, served (execute_python code) = true)
  /\ (forall filepath format, served (export_scene filepath format) = true)
  /\ (forall filepath merge, served (import_file filepath merge) = true)
  /\ (forall t srv,
         served t = true ->
         exists h r,
           Plugin.assoc (t_command t) Plugin.handlers = Some h
           /\ fst (Plugin.h_body h (match t_params t with Some d => d | None => [] end)
                     (Plugin.refresh srv)) = Ok r
           /\ fst (Plugin.execute_command srv (command_of (t_command t) (t_params t)))
              = Plugin.success r).
Proof.
  repeat (split; [ intros; reflexivity | ]).
  intros t srv Hserved.
  destruct (served_command t srv Hserved) as (h & r & Hassoc & Hbody & Hresponse).
  exists h, r. split; [ exact Hassoc | ]. split; [ | exact Hresponse ].
  rewrite Hbody. reflexivity.
Qed.

Lemma acquisition_raises (cached : option Cinema4DConnection) (w : net) (e : exn)
    (now_cached : option Cinema4DConnection) (w' : net) :
  get_cinema4d_connection cached w = (Raise e, now_cached, w') ->
  e = could_not_connect /\ now_cached = None.
Proof.
  intros Hget.
  assert (Hcreate : forall w0,
             create_connection w0 = (Raise e, now_cached, w') ->
             e = could_not_connect /\ now_cached = None).
  { intros w0 Hc. pose proof (create_connection_post w0) as Hpost.
    rewrite Hc in Hpost. destruct Hpost as [-> ->]. split; reflexivity. }
  destruct cached as [c | ]; cbn [get_cinema4d_connection] in Hget.
  - destruct (send_command c "ping" None w) as [[[r | e0] c'] w1]; [ discriminate | ].
    destruct (disconnect c' w1) as [c2 w2]. exact (Hcreate w2 Hget).
  - exact (Hcreate w Hget).
Qed.

(** A tool never raises for want of a host: when no connection can be
    acquired, it returns its own words for a failure followed by the
    advice to start the plugin, nothing stays cached, and the command was
    not sent.  That is what happens to every tool when nothing is cached
    and the connect is refused. *)
Theorem tool_without_host (t : tool) (cached : option Cinema4DConnection) (w : net) :
  (forall e now_cached w',
      get_cinema4d_connection cached w = (Raise e, now_cached, w') ->
      run_tool t cached w
      = (t_failure t
         +++ ": Could not connect to Cinema 4D. Make sure the Cinema 4D plugin is running.",
         None, w'))
  /\ (cached = None -> hd false (connects w) = false ->
      fst (run_tool t cached w)
      = (t_failure t
         +++ ": Could not connect to Cinema 4D. Make sure the Cinema 4D plugin is running.",
         None)
      /\ journal (snd (run_tool t cached w)) = journal w ++ [Refused]).
Proof.
  split.
  - intros e now_cached w' Hget.
    destruct (acquisition_raises _ _ _ _ _ Hget) as [-> ->].
    unfold run_tool, call_host. rewrite Hget. reflexivity.
  - intros -> Hrefused.
    unfold run_tool, call_host. cbn [get_cinema4d_connection].
    unfold create_connection, connect, new_connection. cbn [sock].
    destruct (connects w) as [ | [ | ] more]; cbn [hd] in Hrefused;
      [ | discriminate | ]; split; reflexivity.
Qed.

(** A tool, the client and the plugin together.  Nothing is cached, the
    plugin accepts the connection and receives the command of the tool
    whole, and the client receives what the plugin wrote; the codec gives
    back the command and the response it was given.  Then a tool whose
    keywords fit is answered with the success envelope around the result
    of its handler; what the tool returns is the report it makes of that
    result, or its words for a failure when making the report raises; and
    the connection on the new socket is the cached one. *)
Theorem tool_round_trip (t : tool) (w : net) (more : list bool) (rest : list recv_answer)
    (srv : Plugin.server) (text text' : string) :
  let command := command_of (t_command t) (t_params t) in
  let served_by := Plugin.handle_client [Plugin.chunk (encode command)] srv in
  let response := fst (Plugin.execute_command srv command) in
  served t = true ->
  connects w = true :: more -> accepts w ->
  encode command <> [] -> encode response <> [] ->
  decode (encode command) = Parsed text command ->
  decode (encode response) = Parsed text' response ->
  recvs w = map Chunk (Plugin.written (fst (fst served_by))) ++ rest ->
  exists r,
    response = Plugin.success r
    /\ fst (fst (run_tool t None w))
       = match t_report t r with
         | Ok report => report
         | Raise e => t_failure t +++ ": " +++ str_of_exn e
         end
    /\ snd (fst (run_tool t None w)) = Some (with_sock new_connection (Some (next_socket w)))
    /\ recvs (snd (run_tool t None w)) = rest.
Proof.
  intros command served_by response Hserved Hconnects Haccepts Hcommand Hresponse
    Hdec Hdec' Hrecvs.
  destruct (served_command t srv Hserved) as (h & r & _ & _ & Hr).
  fold command in Hr. fold response in Hr.
  exists r. split; [ exact Hr | ].
  unfold served_by in Hrecvs.
  rewrite (BridgeFacts.plugin_answers command srv text Hcommand Hdec) in Hrecvs.
  cbn [fst Plugin.written map app] in Hrecvs. fold response in Hrecvs.
  unfold run_tool, call_host. cbn [get_cinema4d_connection].
  unfold create_connection, connect, new_connection. cbn [sock]. rewrite Hconnects.
  cbn [with_sock host port sock timeout].
  set (c := {| host := "localhost"; port := 9877; sock := Some (next_socket w);
               timeout := 30 |}).
  set (w1 := {| connects := more; sends := sends w; recvs := recvs w;
                next_socket := S (next_socket w);
                journal := journal w ++ [Opened (next_socket w)] |}).
  rewrite (send_command_connected c (next_socket w) _ _ _ eq_refl).
  rewrite (BridgeFacts.client_reads c (next_socket w) (t_command t) (t_params t) w1 rest
             response text' eq_refl Haccepts Hresponse Hdec' Hrecvs).
  unfold interpret. rewrite Hdec', Hr.
  cbn [response_get Plugin.success get_default get String.eqb Ascii.eqb Bool.eqb
         value_is_error].
  destruct (t_report t r) as [report | e]; repeat split.
Qed.

Lemma all_accepted (l : list send_answer) :
  Forall (fun a => a = Accepted) l ->
  hd Accepted l = Accepted /\ Forall (fun a => a = Accepted) (tl l).
Proof.
  intros Hall. destruct Hall as [ | a l Ha Hl]; [ split; [ reflexivity | constructor ] | ].
  split; [ exact Ha | exact Hl ].
Qed.

(** With a connection cached, every call of a tool costs two exchanges on
    the socket of the connection: the ping of the acquisition, then the
    command of the tool, whatever the response to the command is and
    whatever the tool makes of it. *)
Theorem tool_pings_first (t : tool) (c : Cinema4DConnection) (s : socket) (w : net)
    (rest : list recv_answer) (response : value) (text text' : string) :
  let alive := Plugin.success (JDict [("status", JStr "alive")]) in
  sock c = Some s ->
  Forall (fun a => a = Accepted) (sends w) ->
  encode alive <> [] -> encode response <> [] ->
  decode (encode alive) = Parsed text alive ->
  decode (encode response) = Parsed text' response ->
  recvs w = Chunk (encode alive) :: Chunk (encode response) :: rest ->
  journal (snd (run_tool t (Some c) w))
  = journal w
    ++ [Sent s (encode (command_of "ping" None));
        Decoding (encode alive); Decoding (encode alive);
        Sent s (encode (command_of (t_command t) (t_params t)));
        Decoding (encode response); Decoding (encode response)]
  /\ recvs (snd (run_tool t (Some c) w)) = rest.
Proof.
  intros alive Hsock Hsends Halive Hresponse Hdec Hdec' Hrecvs.
  destruct (all_accepted _ Hsends) as [Haccepts Hlater].
  set (w1 := record [Decoding (encode alive)]
               (after_exchange w s (encode (command_of "ping" None))
                  (Chunk (encode response) :: rest) [encode alive])).
  assert (Hping : send_command c "ping" None w
                  = (Ok (JDict [("status", JStr "alive")]), c, w1)).
  { rewrite (send_command_connected c s _ _ _ Hsock).
    rewrite (BridgeFacts.client_reads c s "ping" None w (Chunk (encode response) :: rest)
               alive text Hsock Haccepts Halive Hdec Hrecvs).
    unfold interpret. rewrite Hdec. reflexivity. }
  assert (Haccepts1 : accepts w1).
  { unfold accepts, w1. cbn [record after_exchange sends].
    exact (proj1 (all_accepted _ Hlater)). }
  set (w2 := record [Decoding (encode response)]
               (after_exchange w1 s (encode (command_of (t_command t) (t_params t)))
                  rest [encode response])).
  assert (Hcommand : exists r c',
             send_command c (t_command t) (t_params t) w1 = (r, c', w2)).
  { rewrite (send_command_connected c s _ _ _ Hsock).
    rewrite (BridgeFacts.client_reads c s (t_command t) (t_params t) w1 rest response text'
               Hsock Haccepts1 Hresponse Hdec' eq_refl).
    fold w2. destruct (interpret (encode response)) as [result | e];
      [ | destruct (except_clause e) ]; eexists _, _; reflexivity. }
  destruct Hcommand as (r & c' & Hcommand).
  assert (Hrun : snd (run_tool t (Some c) w) = w2).
  { unfold run_tool, call_host. cbn [get_cinema4d_connection]. rewrite Hping, Hcommand.
    destruct r as [result | e]; [ destruct (t_report t result) | ]; reflexivity. }
  rewrite Hrun. split; [ | reflexivity ].
  unfold w2, w1. cbn [record after_exchange journal map]. rewrite <- !app_assoc. reflexivity.
Qed.

End Served.

End ToolFacts.

(** ** The bridge at work on the reference codec and host *)

Module BridgeRuns.
Import Json Client ClientFacts ExchangeFacts BridgeFacts Tools ToolFacts Scenarios MoreScenarios.

#[local] Existing Instance RefCodec.python.
#[local] Existing Instance RefHost.host.

Lemma failed_command_forgets_socket_witness :
  sock (with_sock held None) = None
  /\ disconnect (with_sock held None) (snd (send_command held "nope" None nope_network))
     = (with_sock held None, snd (send_command held "nope" None nope_network))
  /\ exists added,
      journal (snd (send_command held "nope" None nope_network))
      = journal nope_network ++ added
      /\ Forall (fun a => forall s, a <> Closed s) added.
Proof.
  refine (failed_command_forgets_socket held "nope" None nope_network _ _ _ _).
  vm_compute. reflexivity.
Defined.

Lemma stale_socket_is_never_closed_witness :
  get_cinema4d_connection (Some held) (network [true] [Chunk []])
  = create_connection
      (after_exchange (network [true] [Chunk []]) 0 (encode (command_of "ping" None)) [] [])
  /\ journal (snd (get_cinema4d_connection (Some held) (network [true] [Chunk []])))
     = [Sent 0 (encode (command_of "ping" None)); Opened 1].
Proof.
  split; [ | vm_compute; reflexivity ].
  refine (proj2 (proj2 (proj1 (stale_socket_is_never_closed (Some held)
                                  (network [true] [Chunk []]))
                          held _ (with_sock held None) _ eq_refl _))).
  vm_compute. reflexivity.
Defined.

Lemma response_reassembled_witness :
  receive_full_response (map Chunk [alive_head] ++ Chunk alive_tail :: [])
  = (Ok (concat ([alive_head] ++ [alive_tail])), [],
     accumulations [] [alive_head] ++ [concat ([alive_head] ++ [alive_tail])]).
Proof.
  refine (response_reassembled [alive_head] alive_tail [] _ _ _ _ _ _).
  - constructor; [ | constructor ]. intros Hnil. vm_compute in Hnil. discriminate Hnil.
  - constructor; [ | constructor ]. eexists. vm_compute. reflexivity.
  - intros Hnil. vm_compute in Hnil. discriminate Hnil.
  - vm_compute. reflexivity.
Defined.

Lemma command_round_trip_witness :
  send_command held "ping" None alive_network
  = (Ok (JDict [("status", JStr "alive")]), held,
     record [Decoding (encode alive)]
       (after_exchange alive_network 0 (encode (command_of "ping" None)) []
          [encode alive])).
Proof.
  refine (proj1 (proj2 (command_round_trip held 0 "ping" None alive_network []
                          RefHost.empty _ _ eq_refl eq_refl _ _ _ _ _))
            (JDict [("status", JStr "alive")]) _).
  - intros Hnil. vm_compute in Hnil. discriminate Hnil.
  - intros Hnil. vm_compute in Hnil. discriminate Hnil.
  - vm_compute. reflexivity.
  - vm_compute. reflexivity.
  - vm_compute. reflexivity.
  - vm_compute. reflexivity.
Defined.

Lemma tool_round_trip_witness :
  exists r,
    fst (Plugin.execute_command RefHost.empty
           (command_of "delete_object" (Some [("name", JStr "X")])))
    = Plugin.success r
    /\ fst (fst (run_tool (delete_object "X") None deleted_network))
       = match t_report (delete_object "X") r with
         | Ok report => report
         | Raise e => "Error deleting object" +++ ": " +++ str_of_exn e
         end
    /\ snd (fst (run_tool (delete_object "X") None deleted_network))
       = Some (with_sock new_connection (Some 1))
    /\ recvs (snd (run_tool (delete_object "X") None deleted_network)) = [].
Proof.
  refine (tool_round_trip (delete_object "X") deleted_network [] [] RefHost.empty _ _
            eq_refl eq_refl eq_refl _ _ _ _ _).
  - intros Hnil. vm_compute in Hnil. discriminate Hnil.
  - intros Hnil. vm_compute in Hnil. discriminate Hnil.
  - vm_compute. reflexivity.
  - vm_compute. reflexivity.
  - vm_compute. reflexivity.
Defined.

Lemma tool_pings_first_witness :
  journal (snd (run_tool (delete_object "X") (Some held)
                  (network [] [Chunk (encode alive); Chunk (encode deleted)])))
  = journal (network [] [Chunk (encode alive); Chunk (encode deleted)])
    ++ [Sent 0 (encode (command_of "ping" None));
        Decoding (encode alive); Decoding (encode alive);
        Sent 0 (encode (command_of "delete_object" (Some [("name", JStr "X")])));
        Decoding (encode deleted); Decoding (encode deleted)]
  /\ recvs (snd (run_tool (delete_object "X") (Some held)
                   (network [] [Chunk (encode alive); Chunk (encode deleted)]))) = [].
Proof.
  refine (tool_pings_first (delete_object "X") held 0
            (network [] [Chunk (encode alive); Chunk (encode deleted)]) [] deleted _ _
            eq_refl _ _ _ _ _ eq_refl).
  - constructor.
  - intros Hnil. vm_compute in Hnil. discriminate Hnil.
  - intros Hnil. vm_compute in Hnil. discriminate Hnil.
  - vm_compute. reflexivity.
  - vm_compute. reflexivity.
Defined.

(** The deletion of an object goes through and is reported in the words
    of the tool, whatever the handler returned. *)
Example deletion_reported :
  run_tool (delete_object "X") None deleted_network
  = ("Successfully deleted 'X'", Some (with_sock new_connection (Some 1)),
     {| connects := []; sends := []; recvs := []; next_socket := 2;
        journal := [Opened 1;
                    Sent 1 (encode (command_of "delete_object" (Some [("name", JStr "X")])));
                    Decoding (encode deleted);
                    Decoding (encode deleted)] |}).
Proof. vm_compute. reflexivity. Qed.

(** With a connection cached, a tool pings before it sends its command,
    on the same socket. *)
Example ping_before_command :
  journal (snd (run_tool (delete_object "X") (Some held)
                  (network [] [Chunk (encode alive); Chunk (encode deleted)])))
  = [Sent 0 (encode (command_of "ping" None));
     Decoding (encode alive); Decoding (encode alive);
     Sent 0 (encode (command_of "delete_object" (Some [("name", JStr "X")])));
     Decoding (encode deleted); Decoding (encode deleted)].
Proof. vm_compute. reflexivity. Qed.

(** Nobody listens: every tool says so in its own words. *)
Example nobody_listens :
  run_tool (delete_object "X") None (network [false] [])
  = ("Error deleting object: Could not connect to Cinema 4D. "
     +++ "Make sure the Cinema 4D plugin is running.",
     None,
     {| connects := []; sends := []; recvs := []; next_socket := 1; journal := [Refused] |}).
Proof. vm_compute. reflexivity. Qed.

End BridgeRuns.

(** ** The accept loop *)

Module AcceptFacts.
Import Acceptor.

Lemma handlers_of_app (a b : list did) :
  handlers_of (a ++ b) = handlers_of a ++ handlers_of b.
Proof.
  induction a as [ | d a IH]; [ reflexivity | ].
  destruct d; cbn [app handlers_of]; rewrite IH; reflexivity.
Qed.

Lemma accept_loop_running (script : list pass) :
  keeps_running script ->
  snd (accept_loop script) = Waiting
  /\ handlers_of (fst (accept_loop script)) = clients_of script.
Proof.
  induction 1 as [ | p rest [Htest Hexcept] Hrest [IHhow IHdone]]; [ split; reflexivity | ].
  cbn [accept_loop clients_of]. rewrite Htest, Hexcept. cbn [negb].
  destruct (accept_loop rest) as [later how]. cbn [fst snd] in IHhow, IHdone.
  destruct (accept p) as [client address [text | ] | | text]; cbn [fst snd];
    rewrite ?handlers_of_app; cbn [handlers_of app]; split; congruence.
Qed.

Lemma accept_loop_stopped (script : list pass) :
  snd (accept_loop script) = Stopped ->
  exists pre p post,
    script = pre ++ p :: post
    /\ Forall (fun q => running_at_test q = true) pre
    /\ (running_at_test p = false \/ running_at_except p = false)
    /\ handlers_of (fst (accept_loop script)) = clients_of pre.
Proof.
  induction script as [ | p rest IH]; [ discriminate | ].
  cbn [accept_loop].
  destruct (running_at_test p) eqn:Htest; cbn [negb].
  2:{ intros _. exists [], p, rest. repeat split; [ constructor | left; exact Htest ]. }
  assert (Hgo : snd (accept_loop rest) = Stopped ->
                forall before client,
                  handlers_of before = client ->
                  exists pre q post,
                    p :: rest = pre ++ q :: post
                    /\ Forall (fun q => running_at_test q = true) pre
                    /\ (running_at_test q = false \/ running_at_except q = false)
                    /\ handlers_of (before ++ fst (accept_loop rest))
                       = client ++ clients_of (skipn 1 pre)
                    /\ pre <> []).
  { intros Hrest before client Hbefore.
    destruct (IH Hrest) as (pre & q & post & -> & Hpre & Hq & Hdone).
    exists (p :: pre), q, post. repeat split.
    - constructor; assumption.
    - exact Hq.
    - rewrite handlers_of_app, Hbefore, Hdone. reflexivity.
    - discriminate. }
  destruct (accept p) as [client address [text | ] | | text] eqn:Haccept.
  - destruct (running_at_except p) eqn:Hexcept; cbn [negb].
    + destruct (accept_loop rest) as [later how] eqn:Hloop. cbn [fst snd] in *.
      intros Hhow.
      destruct (Hgo Hhow
                  ([Printed ("Connected to client: " +++ address)]
                   ++ [Printed ("Error accepting connection: " +++ text)]) [] eq_refl)
        as (pre & q & post & Hscript & Hpre & Hq & Hdone & Hne).
      exists pre, q, post. repeat split; try assumption.
      rewrite Hdone. destruct pre as [ | p0 pre]; [ congruence | ].
      injection Hscript as <- _. cbn [skipn clients_of app]. rewrite Haccept. reflexivity.
    + intros _. exists [], p, rest. repeat split; [ constructor | right; exact Hexcept ].
  - destruct (accept_loop rest) as [later how] eqn:Hloop. cbn [fst snd] in *.
    intros Hhow.
    destruct (Hgo Hhow
                [Printed ("Connected to client: " +++ address); HandlerStarted client]
                [client] eq_refl)
      as (pre & q & post & Hscript & Hpre & Hq & Hdone & Hne).
    exists pre, q, post. repeat split; try assumption.
    cbn [app] in Hdone. rewrite Hdone. destruct pre as [ | p0 pre]; [ congruence | ].
    injection Hscript as <- _. cbn [skipn clients_of app]. rewrite Haccept. reflexivity.
  - intros Hhow.
    destruct (Hgo Hhow [] [] eq_refl) as (pre & q & post & Hscript & Hpre & Hq & Hdone & Hne).
    exists pre, q, post. repeat split; try assumption.
    cbn [app] in Hdone. rewrite Hdone. destruct pre as [ | p0 pre]; [ congruence | ].
    injection Hscript as <- _. cbn [skipn clients_of app]. rewrite Haccept. reflexivity.
  - destruct (running_at_except p) eqn:Hexcept; cbn [negb].
    + destruct (accept_loop rest) as [later how] eqn:Hloop. cbn [fst snd] in *.
      intros Hhow.
      destruct (Hgo Hhow ([] ++ [Printed ("Error accepting connection: " +++ text)]) []
                  eq_refl)
        as (pre & q & post & Hscript & Hpre & Hq & Hdone & Hne).
      exists pre, q, post. repeat split; try assumption.
      rewrite Hdone. destruct pre as [ | p0 pre]; [ congruence | ].
      injection Hscript as <- _. cbn [skipn clients_of app]. rewrite Haccept. reflexivity.
    + intros _. exists [], p, rest. repeat split; [ constructor | right; exact Hexcept ].
Qed.

(** The accept loop is left only through the [running] flag.  While the
    flag stays set, timeouts and exceptions of [accept] are passed over,
    the thread goes on accepting, and every client whose thread could be
    started got one handler, in the order of arrival.  A loop that was
    left met the flag cleared, at its test or in the [except] clause; it
    started the handlers of the clients that came before, and ends with
    the message that the thread stopped. *)
Theorem accept_loop_left_when_stopped (script : list pass) :
  (keeps_running script ->
   snd (server_loop script) = Waiting
   /\ handlers_of (fst (server_loop script)) = clients_of script)
  /\ (snd (server_loop script) = Stopped ->
      exists pre p post,
        script = pre ++ p :: post
        /\ Forall (fun q => running_at_test q = true) pre
        /\ (running_at_test p = false \/ running_at_except p = false)
        /\ handlers_of (fst (server_loop script)) = clients_of pre
        /\ last (fst (server_loop script)) SetTimeout = Printed "Server thread stopped").
Proof.
  unfold server_loop. split.
  - intros Hrun. destruct (accept_loop_running script Hrun) as [Hhow Hdone].
    destruct (accept_loop script) as [done how]. cbn [fst snd] in *. subst how.
    split; [ reflexivity | ]. cbn [handlers_of]. rewrite app_nil_r. exact Hdone.
  - pose proof (accept_loop_stopped script) as Hstopped.
    destruct (accept_loop script) as [done how]. cbn [fst snd] in *.
    intros ->. destruct (Hstopped eq_refl) as (pre & p & post & Hscript & Hpre & Hp & Hdone).
    exists pre, p, post. repeat split; try assumption.
    + cbn [handlers_of]. rewrite handlers_of_app, Hdone. cbn [handlers_of].
      apply app_nil_r.
    + change (Printed "Server thread started" :: SetTimeout
                :: done ++ [Printed "Server thread stopped"])
        with ((Printed "Server thread started" :: SetTimeout :: done)
                ++ [Printed "Server thread stopped"]).
      apply last_last.
Qed.

(** A timeout, a client, an error, and then [stop]: one handler, and the
    client that comes after the stop gets none. *)
Example one_client_served :
  server_loop MoreScenarios.one_client
  = ([Printed "Server thread started"; SetTimeout;
      Printed "Connected to client: ('127.0.0.1', 50000)"; HandlerStarted 7;
      Printed "Error accepting connection: Too many open files";
      Printed "Server thread stopped"],
     Stopped).
Proof. reflexivity. Qed.

End AcceptFacts.

(** ** The answers of process_chat *)

Module ChatTopicFacts.
Import ChatTopics.

Lemma append_assoc (a b c : string) : (a +++ b) +++ c = a +++ (b +++ c).
Proof. induction a as [ | x a IH]; cbn; [ reflexivity | rewrite IH; reflexivity ]. Qed.

Lemma prefix_append (needle text : string) :
  String.prefix needle text = true <-> exists post, text = needle +++ post.
Proof.
  revert text. induction needle as [ | a needle IH]; intros text.
  - cbn. destruct text; split; intros _; try reflexivity; eexists; reflexivity.
  - destruct text as [ | b text]; cbn.
    + split; [ discriminate | intros [post Hpost]; discriminate Hpost ].
    + destruct (ascii_dec a b) as [-> | Hne].
      * rewrite IH. split; intros [post Hpost]; exists post;
          [ rewrite Hpost; reflexivity | injection Hpost as ->; reflexivity ].
      * split; [ discriminate | intros [post Hpost]; injection Hpost as Hab _; congruence ].
Qed.

(** [contains] is Python's [in]: the needle stands somewhere in the
    text. *)
Lemma contains_append (needle text : string) :
  contains needle text = true <-> exists pre post, text = pre +++ needle +++ post.
Proof.
  induction text as [ | b text IH]; cbn [contains].
  - rewrite orb_false_r, prefix_append. split.
    + intros [post Hpost]. exists EmptyString, post. exact Hpost.
    + intros (pre & post & Hpost). destruct pre as [ | x pre]; [ | discriminate Hpost ].
      exists post. exact Hpost.
  - rewrite orb_true_iff, prefix_append, IH. split.
    + intros [[post Hpost] | (pre & post & Hpost)].
      * exists EmptyString, post. exact Hpost.
      * exists (String b pre), post. cbn. rewrite Hpost. reflexivity.
    + intros (pre & post & Hpost). destruct pre as [ | x pre].
      * left. exists post. exact Hpost.
      * right. cbn in Hpost. injection Hpost as _ Hpost. exists pre, post. exact Hpost.
Qed.

Lemma contains_trans (a b c : string) :
  contains a b = true -> contains b c = true -> contains a c = true.
Proof.
  rewrite !contains_append.
  intros (p1 & q1 & ->) (p2 & q2 & ->).
  exists (p2 +++ p1), (q1 +++ q2). rewrite !append_assoc. reflexivity.
Qed.

Section Topics.
Context `{Python}.

(** The greeting comes first and looks for its words anywhere in the
    lowered message: a message in which a word occurs that has [hello],
    [hi] or [hey] in it is greeted, whatever it asks, and none of the
    branches that look at the scene is taken. *)
Theorem greeting_shadows (message word greeting : string) :
  In greeting ["hello"; "hi"; "hey"] ->
  contains greeting word = true ->
  contains word (str_lower message) = true ->
  process_chat_branch message = Greeting.
Proof.
  intros Hin Hword Hmessage.
  pose proof (contains_trans _ _ _ Hword Hmessage) as Hfound.
  unfold process_chat_branch. cbv zeta. cbn [existsb].
  destruct Hin as [<- | [<- | [<- | []]]]; rewrite Hfound, ?orb_true_r; reflexivity.
Qed.

End Topics.

End ChatTopicFacts.

(** ** The chat tools *)

Module ChatToolFacts.
Import Json Chat Client ChatTools.

Lemma lastn_snoc {A : Type} (n : nat) (l : list A) (x : A) :
  0 < n -> exists earlier, lastn n (l ++ [x]) = earlier ++ [x] /\ S (length earlier) <= n.
Proof.
  intros Hn. unfold lastn. rewrite length_app. cbn [length].
  exists (skipn (length l + 1 - n) l). split.
  - rewrite skipn_app. replace (length l + 1 - n - length l) with 0 by lia. reflexivity.
  - rewrite length_skipn. lia.
Qed.

(** After [add_message] on a manager whose bound is not negative, the
    message is the last of the history. *)
Lemma add_message_last (now : string) (cm : ChatManager) (r c : string) (md : option dict) :
  (0 <= max_history cm)%Z ->
  exists earlier,
    history (snd (add_message now cm r c md))
    = earlier ++ [ChatMessage_init now r c None md].
Proof.
  intros Hbound. unfold add_message. cbn [snd with_history history].
  destruct (Z.ltb_spec (max_history cm)
              (Z.of_nat (length (history cm ++ [ChatMessage_init now r c None md]))))
    as [Hlt | Hge]; [ | eexists; reflexivity ].
  destruct (Z.eq_dec (max_history cm) 0) as [Hzero | Hpos].
  - rewrite Hzero. cbn [Z.opp]. rewrite ChatStoreFacts.py_slice_from_drop by lia.
    cbn [Z.to_nat skipn]. eexists; reflexivity.
  - rewrite ChatFacts.py_slice_from_last by lia.
    destruct (lastn_snoc (Z.to_nat (max_history cm)) (history cm)
                (ChatMessage_init now r c None md)) as (earlier & Hlast & _); [ lia | ].
    exists earlier. exact Hlast.
Qed.

Section Request.
Context `{Python} `{Plugin.Host}.

(** [send_chat_message] records the message of the user before it sends
    it.  When no connection can be acquired, the tool says so and the
    manager is not touched, not even created.  Otherwise the manager holds
    the message from then on, whether the command is answered or raises:
    a failed send leaves a message without a reply in the history.  With
    a bound that is not negative, the message is the last of the history,
    and the history that goes out with the command has at most ten
    entries, of which the message is the last.  The keywords of the
    command fit the signature of [process_chat]. *)
Theorem chat_message_recorded_before_send (now stamp message : string)
    (include_scene_context : bool) (cached : option Cinema4DConnection)
    (global : option ChatManager) (w : net) :
  let out :=
    send_chat_message_request now stamp message include_scene_context cached global w in
  let chat_manager :=
    snd (add_message now (get_chat_manager stamp global) "user" message None) in
  let user_message := ChatMessage_init now "user" message None None in
  (forall e now_cached w1,
      get_cinema4d_connection cached w = (Raise e, now_cached, w1) ->
      out
      = (Failed ("Error sending chat message: Could not connect to Cinema 4D. "
                 +++ "Make sure the Cinema 4D plugin is running."),
         None, global, w1))
  /\ (forall c now_cached w1,
         get_cinema4d_connection cached w = (Ok c, now_cached, w1) ->
         snd (fst out) = Some chat_manager
         /\ snd out = snd (send_command c "process_chat"
                             (Some (chat_params chat_manager message include_scene_context))
                             w1))
  /\ ((0 <= max_history chat_manager)%Z ->
      (exists earlier, history chat_manager = earlier ++ [user_message])
      /\ exists earlier,
          chat_params chat_manager message include_scene_context
          = [("message", JStr message);
             ("include_scene_context", JBool include_scene_context);
             ("history", JList (earlier ++ [JDict (to_dict user_message)]))]
          /\ length earlier < 10)
  /\ exists h,
      Plugin.assoc "process_chat" Plugin.handlers = Some h
      /\ Tools.fits h (keys (chat_params chat_manager message include_scene_context)) = true.
Proof.
  cbv zeta. split; [ | split; [ | split ] ].
  - intros e now_cached w1 Hget.
    destruct (ToolFacts.acquisition_raises _ _ _ _ _ Hget) as [-> ->].
    unfold send_chat_message_request. rewrite Hget. reflexivity.
  - intros c now_cached w1 Hget.
    unfold send_chat_message_request. rewrite Hget.
    destruct (send_command c "process_chat" _ w1) as [[[result | e] c'] w2];
      split; reflexivity.
  - intros Hbound.
    destruct (add_message_last now (get_chat_manager stamp global) "user" message None)
      as [earlier Hlast]; [ exact Hbound | ].
    split; [ exists earlier; exact Hlast | ].
    unfold chat_params, get_conversation_history, get_messages.
    cbn [Z.eqb]. rewrite ChatFacts.py_slice_from_last by lia. rewrite Hlast.
    destruct (lastn_snoc (Z.to_nat 10) earlier (ChatMessage_init now "user" message None None))
      as (kept & Hkept & Hlen); [ cbn; lia | ].
    rewrite Hkept, !map_app. cbn [map].
    exists (map JDict (map to_dict kept)). split; [ reflexivity | ].
    rewrite !length_map. cbn in Hlen. lia.
  - eexists. split; reflexivity.
Qed.

End Request.

End ChatToolFacts.

(** ** The chat tools and topics at work on the reference codec *)

Module ChatRuns.
Import Json Chat Client ChatTools ChatTopics ChatTopicFacts Scenarios MoreScenarios.

#[local] Existing Instance RefCodec.python.
#[local] Existing Instance RefHost.host.

Lemma greeting_shadows_witness :
  process_chat_branch "Which lights are on?" = Greeting.
Proof.
  refine (greeting_shadows "Which lights are on?" "which" "hi" _ _ _).
  - right. left. reflexivity.
  - reflexivity.
  - vm_compute. reflexivity.
Defined.

(** What the chain makes of a few messages: a question about the
    children of an object is greeted, a question about lights that has
    no greeting in it is answered with the lights. *)
Example branches_taken :
  map process_chat_branch
    ["Hello"; "How many children has the cube?"; "How many objects are there?";
     "list objects"; "What is selected?"; "Any lights?"; "help"; "render it"]
  = [Greeting; Greeting; HowMany; ListObjects; Selected; Lights; Help; Default].
Proof. vm_compute. reflexivity. Qed.

(** A message whose command times out: the tool reports the failure, and
    the manager it created holds the message without a reply. *)
Example unanswered_message_is_kept :
  let '(outcome, cached, global, w) :=
    send_chat_message_request "2026-01-01T10:00:00" "20260101_100000" "How many objects?"
      true None None (network [true] [RecvFails TimedOut]) in
  outcome
  = Failed "Error sending chat message: Communication error with Cinema 4D: No data received"
  /\ cached = Some (with_sock new_connection None)
  /\ global
     = Some {| history :=
                 [mkChatMessage "user" "How many objects?" "2026-01-01T10:00:00" []];
               max_history := 100; context_data := []; session_id := "20260101_100000" |}.
Proof. vm_compute. repeat split. Qed.

End ChatRuns.

(** ** The summary of a conversation *)

Module SummaryFacts.
Import Json Chat.

Lemma role_counts (l : list ChatMessage) :
  length (filter (fun m => String.eqb (role m) "user") l)
  + length (filter (fun m => String.eqb (role m) "assistant") l) <= length l
  /\ (length (filter (fun m => String.eqb (role m) "user") l)
      + length (filter (fun m => String.eqb (role m) "assistant") l) = length l
      <-> Forall (fun m => role m = "user" \/ role m = "assistant") l).
Proof.
  induction l as [ | m l [IHle IHeq]]; cbn [filter length].
  - split; [ lia | split; [ constructor | reflexivity ] ].
  - destruct (String.eqb_spec (role m) "user") as [Huser | Hnot_user].
    + rewrite Huser. cbn [String.eqb Ascii.eqb Bool.eqb length]. split; [ lia | ].
      split.
      * intros Hsum. constructor; [ left; exact Huser | apply IHeq; lia ].
      * intros Hall. inversion Hall as [ | m' l' _ Hrest]; subst.
        apply IHeq in Hrest. lia.
    + destruct (String.eqb_spec (role m) "assistant") as [Hassistant | Hnot_assistant];
        cbn [length].
      * split; [ lia | ]. split.
        -- intros Hsum. constructor; [ right; exact Hassistant | apply IHeq; lia ].
        -- intros Hall. inversion Hall as [ | m' l' _ Hrest]; subst.
           apply IHeq in Hrest. lia.
      * split; [ lia | ]. split.
        -- intros Hsum. lia.
        -- intros Hall. inversion Hall as [ | m' l' [Hu | Ha] _]; subst; congruence.
Qed.

(** [get_summary] counts every message once at most: the user and the
    assistant messages together are never more than the messages, and
    they are all of them exactly when no message has another role.  The
    summary of a manager that was reset counts nothing and lists no
    context key, under the new session id; that is the summary of the
    manager [clear_chat_history] leaves, whatever manager there was. *)
Theorem summary_counts (cm : ChatManager) (stamp : string) :
  (exists n u a,
      get_summary cm
      = [("session_id", JStr (session_id cm));
         ("message_count", JInt n); ("user_messages", JInt u);
         ("assistant_messages", JInt a);
         ("context_keys", JList (map JStr (keys (context_data cm))))]
      /\ n = Z.of_nat (length (history cm))
      /\ (0 <= u)%Z /\ (0 <= a)%Z /\ (u + a <= n)%Z
      /\ ((u + a = n)%Z
          <-> Forall (fun m => role m = "user" \/ role m = "assistant") (history cm)))
  /\ get_summary (reset stamp cm)
     = [("session_id", JStr stamp); ("message_count", JInt 0); ("user_messages", JInt 0);
        ("assistant_messages", JInt 0); ("context_keys", JList [])]
  /\ (forall created global,
         exists cleared,
           ChatTools.clear_chat_history created stamp global
           = ("Chat history cleared. Starting new conversation session.", Some cleared)
           /\ get_summary cleared = get_summary (reset stamp cm)).
Proof.
  split; [ | split; [ reflexivity | intros created global; eexists; split; reflexivity ] ].
  destruct (role_counts (history cm)) as [Hle Heq].
  eexists _, _, _. split; [ reflexivity | ]. split; [ reflexivity | ].
  split; [ lia | ]. split; [ lia | ]. split; [ lia | ].
  rewrite <- Heq. lia.
Qed.

End SummaryFacts.
